(** * A shallow embedding of the eVOLVER daemon, command layer and bioreactors

    Python floats are modelled by rationals [Q]; a float that may be NaN
    by [fl].  Python exceptions are modelled by an explicit error result
    that keeps the object state reached when the exception was raised,
    because the methods mutate [self] before they raise. *)

From stdpp Require Import base gmap list strings.
From Stdlib Require Import Ascii QArith Qround Qminmax Lqa Lia.

Set Warnings "-register-all".
Open Scope Q_scope.

(** Python exceptions that the modelled code can raise. *)
Inductive py_exn :=
| KeyError
| TypeError
| ValueError
| IndexError
| AttributeError
| TimeoutError
| ZeroDivisionError.

(** ** global_config.py: the constants read by EvolverControls *)
Module Config.
Definition OUTFLOW_EXTRA : Q := 5.
Definition BOLUS_VOLUME_MIN : Q := 2 # 10.
Definition BOLUS_VOLUME_MAX : Q := 15.
Definition BOLUS_REPEAT_MAX : Q := 5.
Definition PUMP_TIME_MAX : Q := 18.
Definition MIN_PUMP_PERIOD : Q := 120.
Definition SECS_PER_UNIT_TIME : Q := 3600.
Definition NUM_VIALS_DEFAULT : nat := 16.
End Config.

(** ** EvolverControls.adjust_bolus_rate (evolver_controls.py, l. 147-192) *)
Module Adjust.
  Import Config.

  (** Returns [inl ValueError] where the method raises, else
      [inr (adjusted, bolus, rate)]. *)
Definition adjust_bolus_rate (bolus rate total_volume : Q)
    : py_exn + (bool * Q * Q) :=
    let period := (SECS_PER_UNIT_TIME * bolus) / (rate * total_volume) in
    let max_rate := (SECS_PER_UNIT_TIME * bolus) / (MIN_PUMP_PERIOD * total_volume) in
    if Qlt_le_dec BOLUS_REPEAT_MAX bolus then
      (* Bolus too high *)
      let rate' := rate * (BOLUS_REPEAT_MAX / bolus) in
      let bolus' := BOLUS_REPEAT_MAX in
      if Qlt_le_dec max_rate rate' then inl ValueError
      else inr (true, bolus', rate')
    else if Qlt_le_dec max_rate rate then
      (* Rate too high *)
      let bolus' := bolus * MIN_PUMP_PERIOD / period in
      let rate' := rate * period / MIN_PUMP_PERIOD in
      if Qlt_le_dec BOLUS_REPEAT_MAX bolus' then inl ValueError
      else inr (true, bolus', rate')
    else if Qlt_le_dec bolus BOLUS_VOLUME_MIN then
      (* Bolus too small *)
      inr (true, BOLUS_VOLUME_MIN, rate * (BOLUS_VOLUME_MIN / bolus))
    else inr (false, bolus, rate).

  (** The pump period implied by a bolus and a rate, as computed by the
      method's first line and by [dilute_repeat]. *)
Definition implied_period (bolus rate total_volume : Q) : Q :=
    (SECS_PER_UNIT_TIME * bolus) / (rate * total_volume).

  (** Boolean form of the feasibility claim, used on concrete inputs. *)
Definition feasible_result (total_volume : Q) (r : py_exn + (bool * Q * Q)) : bool :=
    match r with
    | inl ValueError => true
    | inl _ => false
    | inr (_, b, rt) =>
        Qle_bool BOLUS_VOLUME_MIN b && Qle_bool b BOLUS_REPEAT_MAX &&
        Qle_bool MIN_PUMP_PERIOD (implied_period b rt total_volume)
    end.
End Adjust.

(** ** Python values and the EvolverControls object *)

(** The Python values that flow through the command layer: broadcast
    payloads, queue tokens, call arguments and emitted messages. *)
Inductive pyval :=
| PNone
| PBool (b : bool)
| PInt (z : Z)
| PNum (q : Q)
| PStr (s : string)
| PList (l : list pyval)
| PDict (kvs : list (string * pyval)).

Module Py.
Fixpoint assoc {A} (k : string) (kvs : list (string * A)) : option A :=
    match kvs with
    | [] => None
    | (k', v) :: rest => if String.eqb k k' then Some v else assoc k rest
    end.

  (** [v[k]] for a string key *)
Definition getitem (v : pyval) (k : string) : py_exn + pyval :=
    match v with
    | PDict kvs => match assoc k kvs with Some x => inr x | None => inl KeyError end
    | _ => inl TypeError
    end.

  (** [iter(v)], as a list of the values a for loop visits *)
Definition py_iter (v : pyval) : py_exn + list pyval :=
    match v with
    | PList l => inr l
    | PStr s => inr (map (fun c => PStr (String c EmptyString)) (String.list_ascii_of_string s))
    | PDict kvs => inr (map (fun kv => PStr kv.1) kvs)
    | _ => inl TypeError
    end.

Definition is_bar (v : pyval) : bool :=
    match v with PStr s => String.eqb s "|" | _ => false end.

  (** [hasattr(value, "__iter__") and "|" in value] *)
Definition has_schedule_marker (v : pyval) : bool :=
    match v with
    | PStr s => existsb (fun c => Ascii.eqb c "|"%char) (String.list_ascii_of_string s)
    | PList l => existsb is_bar l
    | PDict kvs => existsb (fun kv => String.eqb kv.1 "|") kvs
    | _ => false
    end.

  (** [l[i] = x] on a Python list: IndexError out of range *)
Definition setitem {A} (l : list A) (i : nat) (x : A) : py_exn + list A :=
    if decide (i < length l)%nat then inr (<[i:=x]> l) else inl IndexError.
End Py.

Module Controls.
Definition PUMP_SET : list string := ["IN1"; "IN2"; "OUT"].

Record controls := mkControls {
    num_vials_total : nat;
    locked : bool;                          (* _locked *)
    data : pyval;                           (* _data *)
    power : pyval;                          (* _power *)
    temp_setpoint : pyval;                  (* _temp_setpoint *)
    stir_rate : pyval;                      (* _stir_rate *)
    recurrent_commands : gmap string (list pyval);
    paused_dilutions : gmap string (list pyval);
    immediate_queue : list pyval;
    recurring_queue : list pyval;
    awaiting_response_field : bool;         (* _awaiting_response *)
    awaiting_response_attr : option bool;   (* instance attribute awaiting_response *)
    active_calibrations : pyval;            (* _active_calibrations *)
    emitted : list (string * pyval)         (* events sent with self.emit, oldest first *)
  }.

  (** Result of running a method: its return value or the exception it
      raised, with the object state in both cases. *)
Inductive res (A : Type) :=
  | Ok (a : A) (s : controls)
  | Raise (e : py_exn) (s : controls).
Arguments Ok {A}. Arguments Raise {A}.

Definition M (A : Type) := controls -> res A.
Definition ret {A} (a : A) : M A := fun s => Ok a s.
Definition raise {A} (e : py_exn) : M A := fun s => Raise e s.
Definition bind {A B} (m : M A) (k : A -> M B) : M B :=
    fun s => match m s with Ok a s' => k a s' | Raise e s' => Raise e s' end.
Definition get : M controls := fun s => Ok s s.
Definition put (s : controls) : M unit := fun _ => Ok tt s.
Definition lift {A} (r : py_exn + A) : M A :=
    match r with inl e => raise e | inr a => ret a end.

Notation "'let!' x ':=' m 'in' k" := (bind m (fun x => k))
    (at level 200, x name, m at level 100, right associativity).

Definition state_of {A} (r : res A) : controls :=
    match r with Ok _ s => s | Raise _ s => s end.

Definition set_locked (b : bool) (s : controls) : controls :=
    mkControls s.(num_vials_total) b s.(data) s.(power) s.(temp_setpoint) s.(stir_rate)
      s.(recurrent_commands) s.(paused_dilutions) s.(immediate_queue) s.(recurring_queue)
      s.(awaiting_response_field) s.(awaiting_response_attr) s.(active_calibrations) s.(emitted).
Definition set_recurrent_commands m s :=
    mkControls s.(num_vials_total) s.(locked) s.(data) s.(power) s.(temp_setpoint) s.(stir_rate)
      m s.(paused_dilutions) s.(immediate_queue) s.(recurring_queue)
      s.(awaiting_response_field) s.(awaiting_response_attr) s.(active_calibrations) s.(emitted).
Definition set_queues iq rq s :=
    mkControls s.(num_vials_total) s.(locked) s.(data) s.(power) s.(temp_setpoint) s.(stir_rate)
      s.(recurrent_commands) s.(paused_dilutions) iq rq
      s.(awaiting_response_field) s.(awaiting_response_attr) s.(active_calibrations) s.(emitted).
Definition set_broadcast d pw tp st s :=
    mkControls s.(num_vials_total) s.(locked) d pw tp st
      s.(recurrent_commands) s.(paused_dilutions) s.(immediate_queue) s.(recurring_queue)
      s.(awaiting_response_field) s.(awaiting_response_attr) s.(active_calibrations) s.(emitted).
Definition set_response fld attr cal s :=
    mkControls s.(num_vials_total) s.(locked) s.(data) s.(power) s.(temp_setpoint) s.(stir_rate)
      s.(recurrent_commands) s.(paused_dilutions) s.(immediate_queue) s.(recurring_queue)
      fld attr cal s.(emitted).
Definition push_emit ev msg s :=
    mkControls s.(num_vials_total) s.(locked) s.(data) s.(power) s.(temp_setpoint) s.(stir_rate)
      s.(recurrent_commands) s.(paused_dilutions) s.(immediate_queue) s.(recurring_queue)
      s.(awaiting_response_field) s.(awaiting_response_attr) s.(active_calibrations)
      (s.(emitted) ++ [(ev, msg)]).

Definition emit (ev : string) (msg : pyval) : M unit :=
    fun s => Ok tt (push_emit ev msg s).


  (** Field updates used by the methods below. *)
Definition set_data d s :=
    mkControls s.(num_vials_total) s.(locked) d s.(power) s.(temp_setpoint) s.(stir_rate)
      s.(recurrent_commands) s.(paused_dilutions) s.(immediate_queue) s.(recurring_queue)
      s.(awaiting_response_field) s.(awaiting_response_attr) s.(active_calibrations) s.(emitted).
Definition set_power v s := set_broadcast s.(data) v s.(temp_setpoint) s.(stir_rate) s.
Definition set_temp_setpoint v s := set_broadcast s.(data) s.(power) v s.(stir_rate) s.
Definition set_stir_rate v s := set_broadcast s.(data) s.(power) s.(temp_setpoint) v s.

Definition modify (f : controls -> controls) : M unit := fun s => Ok tt (f s).

Definition is_str (v : pyval) : bool := match v with PStr _ => true | _ => false end.

  (** The pump message built by the methods that talk to the device. *)
Definition pump_message (recurring immediate : bool) (value : list pyval) : pyval :=
    PDict [("fields_expected_incoming", PInt 49); ("fields_expected_outgoing", PInt 49);
           ("recurring", PBool recurring); ("immediate", PBool immediate);
           ("value", PList value); ("param", PStr "pump")].

  (** [for vial, pump_val in zip(vials, pump_set): if pump_val is None:
      continue; value[vial + off] = pump_val] *)
Fixpoint write_tokens (value : list pyval) (off : nat) (vials : list nat)
      (vals : list pyval) : py_exn + list pyval :=
    match vials, vals with
    | v :: vs, x :: xs =>
        match x with
        | PNone => write_tokens value off vs xs
        | _ => match Py.setitem value (v + off) x with
               | inl e => inl e
               | inr value' => write_tokens value' off vs xs
               end
        end
    | _, _ => inr value
    end.

  (** The loop over [enumerate([in1, in2, out])]; [", ".join(pump_set)] in
      the debug log raises TypeError on a non-string entry. *)
Fixpoint fill_sets (n idx : nat) (vials : list nat) (sets : list (option (list pyval)))
      (value : list pyval) : py_exn + list pyval :=
    match sets with
    | [] => inr value
    | None :: rest => fill_sets n (S idx) vials rest value
    | Some ps :: rest =>
        match write_tokens value (idx * n) vials ps with
        | inl e => inl e
        | inr value' =>
            if forallb is_str ps then fill_sets n (S idx) vials rest value' else inl TypeError
        end
    end.

  (** [fluid_command], the definition at l. 695 that the class keeps: it
      builds one message per call and emits it at once. *)
Definition fluid_command (vials : list nat) (in1 in2 out : option (list pyval))
      (recurring immediate : bool) : M unit :=
    let! s := get in
    let n := s.(num_vials_total) in
    let! value := lift (fill_sets n 0 vials [in1; in2; out] (replicate (3 * n) (PStr "--"))) in
    emit "command" (pump_message recurring immediate value).

  (** [fluid_command] as first defined at l. 230 (shadowed by the later
      definition): it writes into the immediate or the recurring queue. *)
Fixpoint queue_tokens (recurring : bool) (off : nat) (vials : list nat)
      (vals : list pyval) : M unit :=
    match vials, vals with
    | v :: vs, x :: xs =>
        match x with
        | PNone => queue_tokens recurring off vs xs
        | _ =>
            let! s := get in
            let q := if recurring then s.(recurring_queue) else s.(immediate_queue) in
            let! q' := lift (Py.setitem q (v + off) x) in
            let! _ := put (if recurring then set_queues s.(immediate_queue) q' s
                           else set_queues q' s.(recurring_queue) s) in
            queue_tokens recurring off vs xs
        end
    | _, _ => ret tt
    end.

Fixpoint queue_sets (recurring : bool) (n idx : nat) (vials : list nat)
      (sets : list (option (list pyval))) : M unit :=
    match sets with
    | [] => ret tt
    | None :: rest => queue_sets recurring n (S idx) vials rest
    | Some ps :: rest =>
        let! _ := queue_tokens recurring (idx * n) vials ps in
        queue_sets recurring n (S idx) vials rest
    end.

Definition fluid_command_queued (vials : list nat) (in1 in2 out : option (list pyval))
      (recurring immediate : bool) : M unit :=
    let! s := get in
    queue_sets recurring s.(num_vials_total) 0 vials [in1; in2; out].

  (** [reset_queues] *)
Definition reset_queues : M unit :=
    modify (fun s => set_queues (replicate (3 * s.(num_vials_total)) (PStr "--"))
                                (replicate (3 * s.(num_vials_total)) (PStr "--")) s).

Definition not_noop (v : pyval) : bool :=
    match v with PStr t => negb (String.eqb t "--") | _ => true end.

  (** [dispatch_queues] *)
Definition dispatch_queues : M unit :=
    let! s := get in
    let! _ := if existsb not_noop s.(immediate_queue)
              then emit "command" (pump_message false true s.(immediate_queue)) else ret tt in
    let! _ := if existsb not_noop s.(recurring_queue)
              then emit "command" (pump_message true false s.(recurring_queue)) else ret tt in
    reset_queues.

  (** [stop_pumps], the definition at l. 744 that the class keeps. *)
Fixpoint stop_writes (value : list pyval) (off : nat) (vials : list nat) : py_exn + list pyval :=
    match vials with
    | [] => inr value
    | v :: vs => match Py.setitem value (v + off) (PStr "0") with
                 | inl e => inl e
                 | inr value' => stop_writes value' off vs
                 end
    end.

Definition stop_pumps (vials : list nat) (in1 in2 out : bool) : M unit :=
    let! s := get in
    let n := s.(num_vials_total) in
    let step (acc : py_exn + list pyval) (fl : nat * bool) :=
      match acc with
      | inl e => inl e
      | inr value => if fl.2 then stop_writes value (fl.1 * n) vials else inr value
      end in
    let! value := lift (foldl step (inr (replicate 48 (PStr "__"))) [(0, in1); (1, in2); (2, out)]%nat) in
    emit "command"
      (PDict [("fields_expected_incoming", PInt 49); ("fields_expected_outgoing", PInt 49);
              ("param", PStr "pump"); ("value", PList value);
              ("recurring", PBool false); ("immediate", PBool true)]).


  (** [self._data["config"]["pump"]["value"]] *)
Definition config_pump_values (d : pyval) : py_exn + pyval :=
    match Py.getitem d "config" with
    | inl e => inl e
    | inr c => match Py.getitem c "pump" with
               | inl e => inl e
               | inr p => Py.getitem p "value"
               end
    end.

  (** The loop of [lock] over [enumerate(pump_vals)]: remembers every
      token carrying a schedule marker and collects its vial. *)
Fixpoint remember_schedule (n i : nat) (items : list pyval) (vials : list nat) : M (list nat) :=
    match items with
    | [] => ret vials
    | value :: rest =>
        if Py.has_schedule_marker value then
          if decide (n = 0%nat) then raise ZeroDivisionError else
          match nth_error PUMP_SET (i / n) with
          | None => raise IndexError
          | Some pump =>
              let vial := (i mod n)%nat in
              let! s := get in
              let! row := lift (match s.(recurrent_commands) !! pump with
                                | Some r => inr r | None => inl KeyError end) in
              let! row' := lift (Py.setitem row vial value) in
              let! _ := put (set_recurrent_commands (<[pump := row']> s.(recurrent_commands)) s) in
              remember_schedule n (S i) rest (if decide (vial ∈ vials) then vials else vials ++ [vial])
          end
        else remember_schedule n (S i) rest vials
    end.

  (** [lock] (l. 73-92) *)
Definition lock : M unit :=
    let! s := get in
    if s.(locked) then ret tt else
    let! _ := put (set_locked true s) in
    let! pump_vals := lift (config_pump_values s.(data)) in
    let! items := lift (Py.py_iter pump_vals) in
    let! vials := remember_schedule s.(num_vials_total) 0 items [] in
    stop_pumps vials true true true.

  (** Python's binding of a call's arguments to the parameters of
      [fluid_command(self, vials, in1=None, in2=None, out=None,
      recurring=False, immediate=False)]: positional arguments fill the
      parameters in order; a keyword naming an already bound parameter is a
      TypeError ("got multiple values for argument"). *)
Definition fluid_command_params : list string :=
    ["vials"; "in1"; "in2"; "out"; "recurring"; "immediate"].
Definition fluid_command_defaults : list (string * pyval) :=
    [("in1", PNone); ("in2", PNone); ("out", PNone);
     ("recurring", PBool false); ("immediate", PBool false)].

Definition bind_args (params : list string) (defaults : list (string * pyval))
      (pos : list pyval) (kw : list (string * pyval)) : py_exn + list (string * pyval) :=
    if decide (length params < length pos)%nat then inl TypeError else
    let bound := zip (take (length pos) params) pos in
    let add (acc : py_exn + list (string * pyval)) (kv : string * pyval) :=
      match acc with
      | inl e => inl e
      | inr b =>
          if existsb (fun p => String.eqb p kv.1) (map fst b) then inl TypeError
          else if existsb (String.eqb kv.1) params then inr (b ++ [kv])
          else inl TypeError
      end in
    match foldl add (inr bound) kw with
    | inl e => inl e
    | inr b =>
        let fill (acc : py_exn + list (string * pyval)) (p : string) :=
          match acc with
          | inl e => inl e
          | inr out =>
              match Py.assoc p b with
              | Some v => inr (out ++ [(p, v)])
              | None => match Py.assoc p defaults with
                        | Some v => inr (out ++ [(p, v)])
                        | None => inl TypeError
                        end
              end
          end in
        foldl fill (inr []) params
    end.

Definition as_vials (v : pyval) : py_exn + list nat :=
    match v with
    | PList l =>
        foldr (fun x acc => match x, acc with
                            | PInt z, inr vs => if decide (0 <= z)%Z then inr (Z.to_nat z :: vs)
                                                else inl IndexError
                            | _, inr _ => inl TypeError
                            | _, inl e => inl e
                            end) (inr []) l
    | _ => inl TypeError
    end.
Definition as_pump_set (v : pyval) : py_exn + option (list pyval) :=
    match v with PNone => inr None | PList l => inr (Some l) | _ => inl TypeError end.
Definition as_flag (v : pyval) : py_exn + bool :=
    match v with PBool b => inr b | _ => inl TypeError end.

  (** A call of [self.fluid_command] with positional arguments [pos] and keyword arguments [kw]. *)
Definition call_fluid_command (pos : list pyval) (kw : list (string * pyval)) : M unit :=
    let! b := lift (bind_args fluid_command_params fluid_command_defaults pos kw) in
    let arg p := match Py.assoc p b with Some v => v | None => PNone end in
    let! vials := lift (as_vials (arg "vials")) in
    let! in1 := lift (as_pump_set (arg "in1")) in
    let! in2 := lift (as_pump_set (arg "in2")) in
    let! out := lift (as_pump_set (arg "out")) in
    let! recurring := lift (as_flag (arg "recurring")) in
    let! immediate := lift (as_flag (arg "immediate")) in
    fluid_command vials in1 in2 out recurring immediate.

Definition per_pump_rows (m : gmap string (list pyval)) : py_exn + list pyval :=
    foldr (fun p acc => match m !! p, acc with
                        | Some r, inr rows => inr (PList r :: rows)
                        | None, _ => inl KeyError
                        | _, inl e => inl e
                        end) (inr []) PUMP_SET.

  (** [unlock] (l. 94-108):
      [self.fluid_command(vials=vials, *recurrent_cmd, recurring=True)]
      and [self.fluid_command(vials=vials, *dilution_cmd)], then the flag is
      cleared. *)
Definition unlock : M unit :=
    let vials := PList [] in
    let! s := get in
    let! recurrent_cmd := lift (per_pump_rows s.(recurrent_commands)) in
    let! _ := call_fluid_command recurrent_cmd [("vials", vials); ("recurring", PBool true)] in
    let! s := get in
    let! dilution_cmd := lift (per_pump_rows s.(paused_dilutions)) in
    let! _ := call_fluid_command dilution_cmd [("vials", vials)] in
    modify (set_locked false).

  (** [tuple(broadcast["config"][param]["value"])] *)
Definition config_tuple (broadcast : pyval) (param : string) : py_exn + pyval :=
    match Py.getitem broadcast "config" with
    | inl e => inl e
    | inr c => match Py.getitem c param with
               | inl e => inl e
               | inr p => match Py.getitem p "value" with
                          | inl e => inl e
                          | inr v => match Py.py_iter v with
                                     | inl e => inl e
                                     | inr l => inr (PList l)
                                     end
                          end
               end
    end.

  (** [on_broadcast] (l. 492-501) *)
Definition on_broadcast (broadcast : pyval) : M unit :=
    let! pw := lift (config_tuple broadcast "lxml") in
    let! _ := modify (set_power pw) in
    let! tp := lift (config_tuple broadcast "temp") in
    let! _ := modify (set_temp_setpoint tp) in
    let! st := lift (config_tuple broadcast "stir") in
    let! _ := modify (set_stir_rate st) in
    let! d := lift (Py.getitem broadcast "data") in
    modify (set_data d).


  (** Python truthiness *)
Definition truthy (v : pyval) : bool :=
    match v with
    | PNone => false
    | PBool b => b
    | PInt z => negb (Z.eqb z 0)
    | PNum q => negb (Qeq_bool q 0)
    | PStr t => negb (String.eqb t "")
    | PList l => negb (bool_decide (l = []))
    | PDict kvs => negb (bool_decide (kvs = []))
    end.

Fixpoint dict_set (k : string) (v : pyval) (kvs : list (string * pyval)) : list (string * pyval) :=
    match kvs with
    | [] => [(k, v)]
    | (k', v') :: rest => if String.eqb k k' then (k, v) :: rest else (k', v') :: dict_set k v rest
    end.

Definition set_active_calibrations cal s :=
    set_response s.(awaiting_response_field) s.(awaiting_response_attr) cal s.

  (** [self._active_calibrations[fit_type] = fit_data] *)
Definition store_fit (fit_type : string) (fit_data : pyval) : M unit :=
    let! s := get in
    match s.(active_calibrations) with
    | PDict kvs => modify (set_active_calibrations (PDict (dict_set fit_type fit_data kvs)))
    | _ => raise TypeError
    end.

Fixpoint store_active_fits (fit_type : string) (fits : list pyval) : M unit :=
    match fits with
    | [] => ret tt
    | fit_data :: rest =>
        let! act := lift (Py.getitem fit_data "active") in
        let! _ := if truthy act then store_fit fit_type fit_data else ret tt in
        store_active_fits fit_type rest
    end.

  (** The loop over calibrations.  The [match] binds [fit_type] only for
      the three known types; an unknown type keeps the previous binding,
      and before any binding the name is unbound (a NameError, here
      reported as KeyError). *)
Fixpoint store_calibrations (fit_type : option string) (cals : list pyval) : M unit :=
    match cals with
    | [] => ret tt
    | cal :: rest =>
        let! ty := lift (Py.getitem cal "calibrationType") in
        let fit_type' :=
          match ty with
          | PStr "od" => Some "od"
          | PStr "temperature" => Some "temp"
          | PStr "pump" => Some "pump"
          | _ => fit_type
          end in
        let! ft := lift (match fit_type' with Some f => inr f | None => inl KeyError end) in
        let! fits := lift (Py.getitem cal "fits") in
        let! fits := lift (Py.py_iter fits) in
        let! _ := store_active_fits ft fits in
        store_calibrations fit_type' rest
    end.

  (** [on_activecalibrations] (l. 506-525) *)
Definition on_activecalibrations (calibrations : pyval) : M unit :=
    let! _ := modify (set_active_calibrations
                        (PDict [("od", PNone); ("temp", PNone); ("pump", PNone)])) in
    let! cals := lift (Py.py_iter calibrations) in
    let! _ := store_calibrations None cals in
    modify (fun s => set_response false s.(awaiting_response_attr) s.(active_calibrations) s).

  (** What arrives from the device while the caller sleeps: [env k] is the
      payload of an "activecalibrations" event handled during the k-th
      [time.sleep(period)], if any.  The handler runs on the client's own
      thread, so an exception it raises does not reach the sleeping caller. *)
Definition environment := nat -> option pyval.

Definition sleep (env : environment) (k : nat) : M unit :=
    match env k with
    | Some payload => fun s => Ok tt (state_of (on_activecalibrations payload s))
    | None => ret tt
    end.

  (** Reading [self.awaiting_response]: EvolverControls has no attribute or
      property of that name, so the read finds the instance attribute that
      an earlier assignment created, or raises AttributeError. *)
Definition read_awaiting_response : M bool :=
    fun s => match s.(awaiting_response_attr) with
             | Some b => Ok b s
             | None => Raise AttributeError s
             end.

  (** Writing [self.awaiting_response = b]: creates or sets the instance attribute. *)
Definition write_awaiting_response (b : bool) : M unit :=
    modify (fun s => set_response s.(awaiting_response_field) (Some b) s.(active_calibrations) s).

Definition DEFAULT_TIMEOUT : Q := 10.
Definition DEFAULT_PERIOD : Q := 2 # 10.

  (** The while loop of [_block] (l. 537-559).  The clock is the time spent
      in [time.sleep]: after k sleeps, [time.time() - start_time] is
      [k * period].  [fuel] bounds the number of iterations; [block_fuel]
      gives enough of it for the timeout to be reached. *)
Fixpoint block_loop (fuel k : nat) (env : environment) (timeout period : Q)
      (safe : bool) : M bool :=
    let! waiting := read_awaiting_response in
    if negb waiting then ret true else
    match fuel with
    | O => ret false
    | S f =>
        let! _ := sleep env k in
        if Qle_bool timeout (inject_Z (Z.of_nat (S k)) * period) then
          (if safe then ret false else raise TimeoutError)
        else block_loop f (S k) env timeout period safe
    end.

Definition block_fuel (timeout period : Q) : nat :=
    S (Z.to_nat (Qceiling (timeout / period))).

Definition block (env : environment) (timeout : Q) (safe : bool) (period : Q) : M bool :=
    block_loop (block_fuel timeout period) 0 env timeout period safe.

  (** [request_active_calibrations] (l. 561-571) *)
Definition request_active_calibrations (env : environment) (timeout : Q) (safe : bool) : M pyval :=
    let! _ := write_awaiting_response true in
    let! _ := emit "getactivecal" (PDict []) in
    let! successful := block env timeout safe DEFAULT_PERIOD in
    if successful then (let! s := get in ret s.(active_calibrations)) else ret PNone.

  (** [__init__] *)
Definition init (n : nat) : controls :=
    let nones := replicate n PNone in
    let per_pump := list_to_map (map (fun p => (p, nones)) PUMP_SET) in
    mkControls n false PNone (PList []) (PList []) (PList []) per_pump per_pump
      (replicate (3 * n) (PStr "--")) (replicate (3 * n) (PStr "--"))
      false None PNone [].
End Controls.

(** ** Arithmetic on [Q] used by the proofs *)
Module QFacts.
Ltac nonzero := let E := fresh in intro E;
    match goal with H : 0 < ?c |- _ => rewrite E in H; apply (Qlt_irrefl 0); exact H end.

Lemma div_lt_mult (a c d : Q) : 0 < c -> a / c < d -> a < d * c.
  Proof.
    intros Hc H. apply (Qmult_lt_r _ _ c Hc) in H.
    assert (E : a / c * c == a) by (field; nonzero). rewrite E in H. exact H.
  Qed.

Lemma le_div_mult (a b c : Q) : 0 < c -> a <= b / c -> a * c <= b.
  Proof.
    intros Hc H. apply (Qmult_le_r _ _ c Hc) in H.
    assert (E : b / c * c == b) by (field; nonzero). rewrite E in H. exact H.
  Qed.

Lemma div_pos (a c : Q) : 0 < a -> 0 < c -> 0 < a / c.
  Proof.
    intros Ha Hc. apply Qlt_shift_div_l; [exact Hc|]. lra.
  Qed.
End QFacts.

Example adjust_ex_plain : Adjust.adjust_bolus_rate 1 1 20 = inr (false, 1, 1).
Proof. reflexivity. Qed.

Section AdjustProofs.
  Import Config Adjust QFacts.

Lemma adjust_rate_too_high_period (b r V : Q) :
    0 < b -> 0 < r -> 0 < V ->
    SECS_PER_UNIT_TIME * b / (MIN_PUMP_PERIOD * V) < r ->
    let p := SECS_PER_UNIT_TIME * b / (r * V) in
    p < MIN_PUMP_PERIOD /\ 0 < p /\
    implied_period (b * MIN_PUMP_PERIOD / p) (r * p / MIN_PUMP_PERIOD) V
      == MIN_PUMP_PERIOD * MIN_PUMP_PERIOD / p.
  Proof.
    intros Hb Hr HV Hmax p.
    assert (HrV : 0 < r * V) by (apply Qmult_lt_0_compat; assumption).
    assert (Hp : 0 < p).
    { unfold p. apply div_pos; [unfold SECS_PER_UNIT_TIME; lra | exact HrV]. }
    apply div_lt_mult in Hmax; [| unfold MIN_PUMP_PERIOD; nra].
    split; [| split; [exact Hp|]].
    - unfold p. apply Qlt_shift_div_r; [exact HrV|].
      unfold MIN_PUMP_PERIOD, SECS_PER_UNIT_TIME in *. nra.
    - unfold implied_period, p.
      unfold MIN_PUMP_PERIOD, SECS_PER_UNIT_TIME in *.
      field. repeat split; nonzero.
  Qed.

Lemma adjust_no_change_period (b r V : Q) :
    0 < b -> 0 < r -> 0 < V ->
    ~ SECS_PER_UNIT_TIME * b / (MIN_PUMP_PERIOD * V) < r ->
    MIN_PUMP_PERIOD <= implied_period b r V.
  Proof.
    intros Hb Hr HV Hmax. apply Qnot_lt_le in Hmax.
    apply le_div_mult in Hmax; [| unfold MIN_PUMP_PERIOD; nra].
    unfold implied_period. apply Qle_shift_div_l; [nra|].
    unfold MIN_PUMP_PERIOD, SECS_PER_UNIT_TIME in *. nra.
  Qed.

Lemma implied_period_scale (b r V k : Q) :
    0 < b -> 0 < r -> 0 < V -> 0 < k ->
    implied_period k (r * (k / b)) V == implied_period b r V.
  Proof.
    intros Hb Hr HV Hk. unfold implied_period. field.
    repeat split; nonzero.
  Qed.
End AdjustProofs.

(** C1 (counterexample).  The claim that every returned bolus lies in
    [BOLUS_VOLUME_MIN, BOLUS_REPEAT_MAX] with a period of at least
    MIN_PUMP_PERIOD fails: bolus 10, rate 20, volume 20 is cut to bolus 5 at
    rate 10, a period of 90 s; bolus 0.01, rate 0.03, volume 20 is rescaled
    to bolus 0.02, below the minimum bolus. *)
Lemma C1_adjust_bolus_rate_counterexample :
  match Adjust.adjust_bolus_rate 10 20 20 with
  | inr (true, b, r) => b == 5 /\ r == 10 /\ Adjust.implied_period b r 20 == 90
  | _ => False
  end /\
  Adjust.feasible_result 20 (Adjust.adjust_bolus_rate 10 20 20) = false /\
  Adjust.feasible_result 20 (Adjust.adjust_bolus_rate (1 # 100) (3 # 100) 20) = false.
Proof. vm_compute. repeat split; reflexivity. Qed.

(** C1 (amended).  For bolus, rate and total volume > 0, adjust_bolus_rate
    either raises ValueError or returns a bolus between
    min(bolus, BOLUS_VOLUME_MIN) and BOLUS_REPEAT_MAX; and when the input bolus
    does not exceed BOLUS_REPEAT_MAX, the returned bolus and rate imply a pump
    period SECS_PER_UNIT_TIME * bolus / (rate * volume) of at least
    MIN_PUMP_PERIOD. *)
Theorem C1_adjust_bolus_rate_bounds (bolus rate total_volume : Q)
  (Hb : 0 < bolus) (Hr : 0 < rate) (HV : 0 < total_volume) :
  match Adjust.adjust_bolus_rate bolus rate total_volume with
  | inl e => e = ValueError
  | inr (_, b', r') =>
      Qmin bolus Config.BOLUS_VOLUME_MIN <= b' /\ b' <= Config.BOLUS_REPEAT_MAX /\
      (bolus <= Config.BOLUS_REPEAT_MAX ->
       Config.MIN_PUMP_PERIOD <= Adjust.implied_period b' r' total_volume)
  end.
Proof.
  unfold Adjust.adjust_bolus_rate.
  destruct (Qlt_le_dec Config.BOLUS_REPEAT_MAX bolus) as [Hbig|Hsmall].
  - destruct (Qlt_le_dec _ _); [reflexivity|].
    split; [| split; [apply Qle_refl|]].
    + eapply Qle_trans; [apply Q.le_min_r|]. unfold Config.BOLUS_VOLUME_MIN,
        Config.BOLUS_REPEAT_MAX. lra.
    + intros Hle. exfalso. apply (Qlt_irrefl bolus). eapply Qle_lt_trans; eauto.
  - destruct (Qlt_le_dec (Config.SECS_PER_UNIT_TIME * bolus /
        (Config.MIN_PUMP_PERIOD * total_volume)) rate) as [Hfast|Hslow].
    + destruct (adjust_rate_too_high_period bolus rate total_volume Hb Hr HV Hfast)
        as (Hlt & Hp & Heq).
      set (p := Config.SECS_PER_UNIT_TIME * bolus / (rate * total_volume)) in *.
      destruct (Qlt_le_dec _ _); [reflexivity|].
      split; [| split; [assumption|]].
      * eapply Qle_trans; [apply Q.le_min_l|].
        apply Qle_shift_div_l; [exact Hp|].
        unfold Config.MIN_PUMP_PERIOD in *. nra.
      * intros _. rewrite Heq. apply Qle_shift_div_l; [exact Hp|].
        unfold Config.MIN_PUMP_PERIOD in *. nra.
    + assert (Hper : Config.MIN_PUMP_PERIOD <= Adjust.implied_period bolus rate total_volume).
      { apply adjust_no_change_period; auto. apply Qle_not_lt. exact Hslow. }
      destruct (Qlt_le_dec bolus Config.BOLUS_VOLUME_MIN) as [Hmin|Hmin].
      * split; [apply Q.le_min_r|]. split.
        { unfold Config.BOLUS_VOLUME_MIN, Config.BOLUS_REPEAT_MAX. lra. }
        intros _. rewrite implied_period_scale; auto.
        unfold Config.BOLUS_VOLUME_MIN. lra.
      * split; [apply Q.le_min_l|]. split; [exact Hsmall|]. intros _. exact Hper.
Qed.

(** Witness: a bolus that is below the minimum is raised to it. *)
Lemma C1_adjust_bolus_rate_bounds_witness :
  (0 < 1 # 10 /\ 0 < 1 /\ 0 < 20) /\
  match Adjust.adjust_bolus_rate (1 # 10) 1 20 with
  | inl e => e = ValueError
  | inr (_, b', r') =>
      Qmin (1 # 10) Config.BOLUS_VOLUME_MIN <= b' /\ b' <= Config.BOLUS_REPEAT_MAX /\
      ((1 # 10) <= Config.BOLUS_REPEAT_MAX ->
       Config.MIN_PUMP_PERIOD <= Adjust.implied_period b' r' 20)
  end.
Proof.
  split; [vm_compute; repeat split; reflexivity|].
  apply (C1_adjust_bolus_rate_bounds (1 # 10) 1 20); reflexivity.
Defined.

(** ** Sample device traffic *)
Module Samples.
  Import Controls.

  (** A broadcast shaped as [type_hints.Broadcast]: its "data" section holds
      the sensor readings keyed od_90, od_135 and temp; the pump echo has a
      recurring token for vial 0 on IN1. *)
Definition sample_pump_values : list pyval :=
    PStr "1.0|120" :: replicate 47 (PStr "--").
Definition readings : pyval := PList (replicate 16 (PStr "2000")).
Definition sample_config : pyval :=
    PDict [("lxml", PDict [("value", PList (replicate 16 (PStr "4095")))]);
           ("pump", PDict [("value", PList sample_pump_values)]);
           ("stir", PDict [("value", PList (replicate 16 (PStr "8")))]);
           ("temp", PDict [("value", PList (replicate 16 (PStr "2100")))])].
Definition sample_broadcast : pyval :=
    PDict [("data", PDict [("od_90", readings); ("od_135", readings); ("temp", readings)]);
           ("config", sample_config);
           ("ip", PStr "10.0.0.3"); ("timestamp", PNum 0)].

  (** A state whose cached data does carry a config echo. *)
Definition state_with_echo : controls :=
    set_data (PDict [("config", sample_config)]) (init 16).

Definition sample_calibrations : pyval :=
    PList [PDict [("calibrationType", PStr "od");
                  ("fits", PList [PDict [("active", PBool true); ("name", PStr "od_fit")]])]].
Definition respond_at_first_sleep : environment :=
    fun k => match k with O => Some sample_calibrations | _ => None end.
End Samples.

Example lock_before_broadcast :
  match Controls.lock (Controls.init 16) with
  | Controls.Raise TypeError s => Controls.locked s = true
  | _ => False
  end.
Proof. vm_compute. reflexivity. Qed.

Example lock_after_broadcast :
  match Controls.on_broadcast Samples.sample_broadcast (Controls.init 16) with
  | Controls.Ok _ s => match Controls.lock s with Controls.Raise KeyError _ => True | _ => False end
  | _ => False
  end.
Proof. vm_compute. exact I. Qed.

Example lock_with_echo_then_unlock :
  match Controls.lock Samples.state_with_echo with
  | Controls.Ok _ s =>
      length (Controls.emitted s) = 1%nat /\
      (match Controls.unlock s with Controls.Raise TypeError s' => s' = s | _ => False end)
  | _ => False
  end.
Proof. vm_compute. split; reflexivity. Qed.

Example request_with_response :
  match Controls.request_active_calibrations Samples.respond_at_first_sleep 10 true
          (Controls.init 16) with
  | Controls.Ok PNone s => Controls.awaiting_response_field s = false
  | _ => False
  end.
Proof. vm_compute. reflexivity. Qed.

(** ** Proofs about the lock discipline *)
Section LockProofs.
  Import Controls.

Lemma lock_when_locked (s : controls) : locked s = true -> lock s = Ok tt s.
  Proof. intros H. unfold lock, bind, get. rewrite H. reflexivity. Qed.

Lemma lift_state {A} (r : py_exn + A) (s : controls) : state_of (lift r s) = s.
  Proof. destruct r; reflexivity. Qed.

Lemma remember_schedule_locked (n : nat) (items : list pyval) :
    forall (i : nat) (vials : list nat) (s : controls),
      locked (state_of (remember_schedule n i items vials s)) = locked s.
  Proof.
    induction items as [|v rest IH]; intros i vials s; [reflexivity|].
    simpl. destruct (Py.has_schedule_marker v); [|apply IH].
    destruct (decide (n = 0%nat)); [reflexivity|].
    destruct (nth_error PUMP_SET (i / n)); [|reflexivity].
    unfold bind, get, lift. destruct (recurrent_commands s !! s0); [|reflexivity].
    simpl. destruct (Py.setitem _ _ _); [reflexivity|]. simpl.
    unfold put. rewrite IH. reflexivity.
  Qed.

Lemma stop_pumps_locked (vials : list nat) (a b c : bool) (s : controls) :
    locked (state_of (stop_pumps vials a b c s)) = locked s.
  Proof.
    unfold stop_pumps, bind, get, lift.
    destruct (foldl _ _ _); reflexivity.
  Qed.

Lemma lock_sets_flag (s : controls) : locked (state_of (lock s)) = true.
  Proof.
    destruct (locked s) eqn:E; [rewrite lock_when_locked; auto|].
    unfold lock, bind at 1, get. rewrite E.
    unfold bind at 1, put.
    set (s1 := set_locked true s).
    assert (H1 : locked s1 = true) by reflexivity. clearbody s1.
    unfold bind at 1, lift. destruct (config_pump_values (data s)) as [e|pv]; [exact H1|].
    unfold ret at 1. unfold bind at 1. destruct (Py.py_iter pv) as [e|l]; [exact H1|].
    unfold ret at 1. unfold bind at 1.
    pose proof (remember_schedule_locked (num_vials_total s) l 0 [] s1) as H2.
    destruct (remember_schedule _ _ _ _ s1) as [vs s2|e s2]; simpl in H2; [|simpl; congruence].
    rewrite stop_pumps_locked. congruence.
  Qed.

Lemma lock_lock (s : controls) : (let! _ := lock in lock) s = lock s.
  Proof.
    unfold bind at 1. pose proof (lock_sets_flag s) as H.
    destruct (lock s) as [[] s'|e s']; simpl in H; [|reflexivity].
    apply lock_when_locked. exact H.
  Qed.

Lemma per_pump_rows_length (m : gmap string (list pyval)) (rows : list pyval) :
    per_pump_rows m = inr rows -> length rows = 3%nat.
  Proof.
    unfold per_pump_rows. simpl.
    destruct (m !! "OUT"); [|destruct (m !! "IN2"), (m !! "IN1"); discriminate].
    destruct (m !! "IN2"); [|destruct (m !! "IN1"); discriminate].
    destruct (m !! "IN1"); [|discriminate].
    intros H. inversion H. reflexivity.
  Qed.

  (** Every call of [unlock] raises before it emits anything or clears the
      lock flag. *)
Lemma unlock_raises (s : controls) : exists e, unlock s = Raise e s.
  Proof.
    unfold unlock, bind at 1, get, bind at 1, lift.
    destruct (per_pump_rows (recurrent_commands s)) as [e|rows] eqn:E; [eexists; reflexivity|].
    apply per_pump_rows_length in E.
    destruct rows as [|a [|b [|c [|d rows]]]]; try discriminate.
    exists TypeError. reflexivity.
  Qed.
End LockProofs.

(** ** One tick of the command queues (EvolverManager.on_broadcast):
    reset, two pump commands for the same vial and channel, dispatch. *)
Module Tick.
  Import Controls.

Definition tick (v : nat) (t1 t2 : string) : M unit :=
    let! _ := reset_queues in
    let! _ := fluid_command [v] (Some [PStr t1]) None None false false in
    let! _ := fluid_command [v] (Some [PStr t2]) None None false false in
    dispatch_queues.

  (** The same tick through the shadowed queue-based [fluid_command]. *)
Definition tick_queued (v : nat) (t1 t2 : string) : M unit :=
    let! _ := reset_queues in
    let! _ := fluid_command_queued [v] (Some [PStr t1]) None None false false in
    let! _ := fluid_command_queued [v] (Some [PStr t2]) None None false false in
    dispatch_queues.

Definition noop_row (n : nat) : list pyval := replicate (3 * n) (PStr "--").
End Tick.

Section TickProofs.
  Import Controls Tick.

Lemma existsb_not_noop_replicate (k : nat) : existsb not_noop (replicate k (PStr "--")) = false.
  Proof. induction k; simpl; auto. Qed.

Lemma fill_one (n v : nat) (t : string) (value : list pyval) :
    (v < length value)%nat ->
    fill_sets n 0 [v] [Some [PStr t]; None; None] value = inr (<[v:=PStr t]> value).
  Proof.
    intros Hv. simpl. unfold Py.setitem. rewrite Nat.add_0_r.
    destruct (decide (v < length value)%nat); [reflexivity|lia].
  Qed.

Lemma existsb_not_noop_insert (k v : nat) (t : string) :
    (v < k)%nat -> t <> "--" ->
    existsb not_noop (<[v:=PStr t]> (replicate k (PStr "--"))) = true.
  Proof.
    intros Hv Ht. apply existsb_exists. exists (PStr t). split.
    - apply list_elem_of_In. apply list_elem_of_lookup. exists v.
      apply list_lookup_insert_eq. rewrite length_replicate. exact Hv.
    - simpl. apply negb_true_iff. apply String.eqb_neq. exact Ht.
  Qed.

Lemma fluid_command_one (s : controls) (v : nat) (t : string) (r i : bool) :
    (v < num_vials_total s)%nat ->
    fluid_command [v] (Some [PStr t]) None None r i s =
    Ok tt (push_emit "command" (pump_message r i (<[v:=PStr t]> (noop_row (num_vials_total s)))) s).
  Proof.
    intros Hv. unfold fluid_command, bind, get, lift.
    rewrite fill_one; [reflexivity|]. rewrite length_replicate. lia.
  Qed.

Lemma dispatch_noop (s : controls) :
    immediate_queue s = noop_row (num_vials_total s) ->
    recurring_queue s = noop_row (num_vials_total s) ->
    emitted (state_of (dispatch_queues s)) = emitted s.
  Proof.
    intros Hi Hr. unfold dispatch_queues, bind, get. rewrite Hi, Hr.
    unfold noop_row. rewrite existsb_not_noop_replicate. reflexivity.
  Qed.
End TickProofs.

(** C4 (code bug).  Two [fluid_command] calls in one tick for the same vial
    and pump channel: the class keeps the second definition of
    [fluid_command], which emits a message per call, so the tick sends the
    first call's token in a message of its own and then the second one; the
    queues that [dispatch_queues] sends stay empty. *)
Theorem C4_fluid_command_emits_each_call (s : Controls.controls) (v : nat) (t1 t2 : string)
  (Hv : (v < Controls.num_vials_total s)%nat) :
  Controls.emitted (Controls.state_of (Tick.tick v t1 t2 s)) =
  Controls.emitted s ++
    [("command", Controls.pump_message false false
                   (<[v:=PStr t1]> (Tick.noop_row (Controls.num_vials_total s))));
     ("command", Controls.pump_message false false
                   (<[v:=PStr t2]> (Tick.noop_row (Controls.num_vials_total s))))].
Proof.
  unfold Tick.tick. unfold Controls.bind at 1. unfold Controls.reset_queues, Controls.modify.
  unfold Controls.bind at 1. rewrite fluid_command_one by exact Hv.
  unfold Controls.bind at 1. rewrite fluid_command_one by exact Hv.
  rewrite dispatch_noop by reflexivity.
  simpl. rewrite <- app_assoc. reflexivity.
Qed.

(** Witness: vial 3 of a 16-vial device, tokens "5" then "7". *)
Lemma C4_fluid_command_emits_each_call_witness :
  (3 < Controls.num_vials_total (Controls.init 16))%nat /\
  Controls.emitted (Controls.state_of (Tick.tick 3 "5" "7" (Controls.init 16))) =
  [("command", Controls.pump_message false false (<[3%nat:=PStr "5"]> (Tick.noop_row 16)));
   ("command", Controls.pump_message false false (<[3%nat:=PStr "7"]> (Tick.noop_row 16)))].
Proof.
  split; [simpl; lia|].
  apply (C4_fluid_command_emits_each_call (Controls.init 16) 3 "5" "7"). simpl. lia.
Defined.

Section QueuedProofs.
  Import Controls Tick.

Lemma queue_sets_one (s : controls) (v : nat) (t : string) :
    (v < length (immediate_queue s))%nat ->
    fluid_command_queued [v] (Some [PStr t]) None None false false s =
    Ok tt (set_queues (<[v:=PStr t]> (immediate_queue s)) (recurring_queue s) s).
  Proof.
    intros Hv. unfold fluid_command_queued, bind, get. simpl.
    unfold bind, get, lift, Py.setitem. rewrite Nat.add_0_r.
    destruct (decide _); [reflexivity|lia].
  Qed.

  (** The shadowed queue-based definition does keep only the last token:
      the tick then sends one immediate message carrying [t2]. *)
Lemma tick_queued_last_write_wins (s : controls) (v : nat) (t1 t2 : string) :
    (v < num_vials_total s)%nat -> t2 <> "--" ->
    emitted (state_of (tick_queued v t1 t2 s)) =
    emitted s ++ [("command", pump_message false true
                     (<[v:=PStr t2]> (noop_row (num_vials_total s))))].
  Proof.
    intros Hv Ht. unfold tick_queued. unfold bind at 1. unfold reset_queues, modify.
    unfold bind at 1. rewrite queue_sets_one by (simpl; rewrite length_replicate; lia).
    unfold bind at 1. rewrite queue_sets_one
      by (simpl; rewrite length_insert, length_replicate; lia).
    simpl. rewrite list_insert_insert_eq.
    unfold dispatch_queues, bind, get. simpl.
    rewrite existsb_not_noop_insert by (lia || exact Ht).
    rewrite existsb_not_noop_replicate. reflexivity.
  Qed.
End QueuedProofs.

(** ** Proofs about the blocking calibration query *)
Section BlockProofs.
  Import Controls.

Definition keeps_attr {A} (m : M A) : Prop :=
    forall s, awaiting_response_attr (state_of (m s)) = awaiting_response_attr s.

Lemma keeps_attr_bind {A B} (m : M A) (k : A -> M B) :
    keeps_attr m -> (forall a, keeps_attr (k a)) -> keeps_attr (bind m k).
  Proof.
    intros Hm Hk s. unfold bind. specialize (Hm s).
    destruct (m s) as [a s'|e s'] eqn:E; simpl in *; [rewrite Hk|]; exact Hm.
  Qed.

Lemma keeps_attr_ret {A} (a : A) : keeps_attr (ret a).
  Proof. intros s. reflexivity. Qed.
Lemma keeps_attr_raise {A} (e : py_exn) : keeps_attr (A:=A) (raise e).
  Proof. intros s. reflexivity. Qed.
Lemma keeps_attr_get : keeps_attr get.
  Proof. intros s. reflexivity. Qed.
Lemma keeps_attr_lift {A} (r : py_exn + A) : keeps_attr (lift r).
  Proof. intros s. destruct r; reflexivity. Qed.
Lemma keeps_attr_set_cal (c : pyval) : keeps_attr (modify (set_active_calibrations c)).
  Proof. intros s. reflexivity. Qed.
Lemma keeps_attr_emit (ev : string) (msg : pyval) : keeps_attr (emit ev msg).
  Proof. intros s. reflexivity. Qed.

Create HintDb attr.
#[local] Hint Resolve keeps_attr_bind keeps_attr_ret keeps_attr_raise keeps_attr_get
    keeps_attr_lift keeps_attr_set_cal keeps_attr_emit : attr.

Lemma keeps_attr_store_fit (ft : string) (fd : pyval) : keeps_attr (store_fit ft fd).
  Proof.
    unfold store_fit. apply keeps_attr_bind; [auto with attr|]. intros s.
    destruct (active_calibrations s); auto with attr.
  Qed.
#[local] Hint Resolve keeps_attr_store_fit : attr.

Lemma keeps_attr_store_active_fits (ft : string) (fits : list pyval) :
    keeps_attr (store_active_fits ft fits).
  Proof.
    induction fits as [|f rest IH]; simpl; [auto with attr|].
    apply keeps_attr_bind; [auto with attr|]. intros a.
    apply keeps_attr_bind; [destruct (truthy a); auto with attr|]. auto.
  Qed.
#[local] Hint Resolve keeps_attr_store_active_fits : attr.

Lemma keeps_attr_store_calibrations (cals : list pyval) :
    forall ft, keeps_attr (store_calibrations ft cals).
  Proof.
    induction cals as [|c rest IH]; intros ft; simpl; [auto with attr|].
    repeat (apply keeps_attr_bind; [auto with attr|]; intros ?). auto.
  Qed.
#[local] Hint Resolve keeps_attr_store_calibrations : attr.

Lemma keeps_attr_on_activecalibrations (payload : pyval) :
    keeps_attr (on_activecalibrations payload).
  Proof.
    unfold on_activecalibrations.
    repeat (apply keeps_attr_bind; [auto with attr|]; intros ?).
    intros s. reflexivity.
  Qed.

Lemma sleep_keeps_attr (env : environment) (k : nat) : keeps_attr (sleep env k).
  Proof.
    intros s. unfold sleep. destruct (env k); [|reflexivity].
    apply keeps_attr_on_activecalibrations.
  Qed.

Lemma sleep_ok (env : environment) (k : nat) (s : controls) :
    exists s', sleep env k s = Ok tt s'.
  Proof. unfold sleep. destruct (env k); eexists; reflexivity. Qed.

  (** While the instance attribute stays set, the safe loop ends with
      [False] whatever the device sends. *)
Lemma block_loop_never_succeeds (env : environment) (timeout period : Q) (fuel : nat) :
    forall (k : nat) (s : controls), awaiting_response_attr s = Some true ->
      exists s', block_loop fuel k env timeout period true s = Ok false s'.
  Proof.
    induction fuel as [|f IH]; intros k s Hs; simpl;
      unfold bind at 1, read_awaiting_response; rewrite Hs; simpl.
    - eexists; reflexivity.
    - unfold bind at 1. destruct (sleep_ok env k s) as [s1 E].
      pose proof (sleep_keeps_attr env k s) as Hk. rewrite E in *. simpl in Hk.
      destruct (Qle_bool _ _); [eexists; reflexivity|].
      apply IH. congruence.
  Qed.
End BlockProofs.

(** C8 (code bug).  request_active_calibrations sets the instance attribute
    [awaiting_response], and [_block] polls that attribute, while the
    response handler clears the separate field [_awaiting_response].  For
    every device behaviour (a response at any sleep, or none), every timeout
    and every starting state, the safe query returns None. *)
Theorem C8_request_active_calibrations_returns_none
  (env : Controls.environment) (timeout : Q) (s : Controls.controls) :
  exists s', Controls.request_active_calibrations env timeout true s = Controls.Ok PNone s'.
Proof.
  unfold Controls.request_active_calibrations, Controls.bind at 1,
    Controls.write_awaiting_response, Controls.modify.
  unfold Controls.bind at 1, Controls.emit.
  unfold Controls.bind at 1, Controls.block.
  destruct (block_loop_never_succeeds env timeout Controls.DEFAULT_PERIOD
              (Controls.block_fuel timeout Controls.DEFAULT_PERIOD) 0
              (Controls.push_emit "getactivecal" (PDict [])
                 (Controls.set_response (Controls.awaiting_response_field s) (Some true)
                    (Controls.active_calibrations s) s))) as [s' E]; [reflexivity|].
  rewrite E. eexists; reflexivity.
Qed.

(** C3 (code bug).  [lock(); lock()] has the effect of [lock()] alone, from
    every state.  But [unlock] never re-issues anything: from every state it
    raises before emitting a command or clearing the lock flag (its call
    [fluid_command(vials=vials, *recurrent_cmd, recurring=True)] binds
    [vials] twice, a TypeError).  On a state whose cached data carries a
    config echo with the token "1.0|120" for IN1 of vial 0, [lock] remembers
    that token, and the following [unlock] raises TypeError, leaving the
    controls locked. *)
Theorem C3_lock_idempotent_unlock_raises :
  (forall s, (Controls.bind Controls.lock (fun _ => Controls.lock)) s = Controls.lock s) /\
  (forall s, exists e, Controls.unlock s = Controls.Raise e s) /\
  match Controls.lock Samples.state_with_echo with
  | Controls.Ok _ s =>
      Controls.locked s = true /\
      (Controls.recurrent_commands s !! "IN1") ≫= head = Some (PStr "1.0|120") /\
      Controls.unlock s = Controls.Raise TypeError s
  | _ => False
  end.
Proof.
  split; [exact lock_lock|]. split; [exact unlock_raises|].
  vm_compute. repeat split; reflexivity.
Qed.

(** C10 (code bug).  Before any broadcast ([_data] is None) [lock] raises
    TypeError after setting the lock flag, and a retry is a no-op.  After a
    broadcast whose "data" section has no "config" key (the shape of
    [type_hints.DataDict]), [lock] raises KeyError as well, again leaving the
    flag set: [on_broadcast] caches [broadcast["data"]] while [lock] reads
    [self._data["config"]]. *)
Theorem C10_lock_raises_after_broadcast (b d : pyval) (s s' : Controls.controls)
  (Hb : Controls.on_broadcast b s = Controls.Ok tt s')
  (Hd : Py.getitem b "data" = inr d)
  (Hnc : Py.getitem d "config" = inl KeyError)
  (Hu : Controls.locked s = false) :
  Controls.lock s' = Controls.Raise KeyError (Controls.set_locked true s') /\
  Controls.lock (Controls.set_locked true s') = Controls.Ok tt (Controls.set_locked true s').
Proof.
  assert (Hs' : Controls.data s' = d /\ Controls.locked s' = Controls.locked s).
  { unfold Controls.on_broadcast, Controls.bind, Controls.lift, Controls.modify in Hb.
    destruct (Controls.config_tuple b "lxml"); [discriminate|].
    destruct (Controls.config_tuple b "temp"); [discriminate|].
    destruct (Controls.config_tuple b "stir"); [discriminate|].
    rewrite Hd in Hb. simpl in Hb. inversion Hb. subst. split; reflexivity. }
  destruct Hs' as [Hdata Hlock].
  split.
  - unfold Controls.lock, Controls.bind, Controls.get, Controls.put.
    rewrite Hlock, Hu. unfold Controls.lift, Controls.config_pump_values.
    rewrite Hdata, Hnc. reflexivity.
  - apply lock_when_locked. reflexivity.
Qed.

Lemma C10_lock_raises_after_broadcast_witness :
  match Controls.on_broadcast Samples.sample_broadcast (Controls.init 16) with
  | Controls.Ok _ s' =>
      Controls.lock s' = Controls.Raise KeyError (Controls.set_locked true s') /\
      Controls.lock (Controls.set_locked true s') = Controls.Ok tt (Controls.set_locked true s')
  | _ => False
  end.
Proof.
  destruct (Controls.on_broadcast Samples.sample_broadcast (Controls.init 16)) as [[] s'|e s'] eqn:E.
  - apply (C10_lock_raises_after_broadcast Samples.sample_broadcast
             (PDict [("od_90", Samples.readings); ("od_135", Samples.readings);
                     ("temp", Samples.readings)]) (Controls.init 16) s' E);
      reflexivity.
  - vm_compute in E. discriminate.
Defined.

(** The state before any broadcast: [lock] raises TypeError with the flag
    set, and the retry returns at once without recording any schedule. *)
Lemma lock_before_any_broadcast (s : Controls.controls) :
  Controls.data s = PNone -> Controls.locked s = false ->
  Controls.lock s = Controls.Raise TypeError (Controls.set_locked true s) /\
  Controls.lock (Controls.set_locked true s) = Controls.Ok tt (Controls.set_locked true s).
Proof.
  intros Hd Hu. split.
  - unfold Controls.lock, Controls.bind, Controls.get, Controls.put.
    rewrite Hu. unfold Controls.lift, Controls.config_pump_values. rewrite Hd. reflexivity.
  - apply lock_when_locked. reflexivity.
Qed.

(** ** Bioreactor.parse_fluid_usage (bioreactor.py, l. 395-417) *)
Module FluidUsage.
Definition PUMP_SET : list string := ["IN1"; "IN2"; "OUT"].

Definition usage := gmap Z (gmap string pyval).

  (** [for pump in PUMP_SET: entry[pump] = record[pump]] *)
Definition copy_pumps (record : pyval) (entry : gmap string pyval) : py_exn + gmap string pyval :=
    foldl (fun acc pump => match acc with
                           | inl e => inl e
                           | inr en => match Py.getitem record pump with
                                       | inl e => inl e
                                       | inr v => inr (<[pump := v]> en)
                                       end
                           end) (inr entry) PUMP_SET.

Definition blank_entry : gmap string pyval :=
    list_to_map (map (fun p => (p, PNone)) PUMP_SET).

Definition is_command (v : pyval) (name : string) : bool :=
    match v with PStr t => String.eqb t name | _ => false end.

Fixpoint parse_records (records : list pyval) (dilution recurrent : usage)
      : py_exn + (usage * usage) :=
    match records with
    | [] => inr (dilution, recurrent)
    | record :: rest =>
        match Py.getitem record "vial" with
        | inl e => inl e
        | inr (PInt vial) =>
            match Py.getitem record "command" with
            | inl e => inl e
            | inr cmd =>
                if is_command cmd "recurrent" then
                  if bool_decide (is_Some (recurrent !! vial)) then parse_records rest dilution recurrent
                  else match copy_pumps record blank_entry with
                       | inl e => inl e
                       | inr en => parse_records rest dilution (<[vial := en]> recurrent)
                       end
                else if is_command cmd "dilution" then
                  (* the branch tests [dilution] but writes into [recurrent] *)
                  if bool_decide (is_Some (dilution !! vial)) then parse_records rest dilution recurrent
                  else match copy_pumps record blank_entry with
                       | inl e => inl e
                       | inr en => parse_records rest dilution (<[vial := en]> recurrent)
                       end
                else parse_records rest dilution recurrent
            end
        | inr _ => inl TypeError
        end
    end.

  (** [parse_fluid_usage(update_msg)]: vials are modelled as ints (every
      producer of records writes an int). *)
Definition parse_fluid_usage (update_msg : pyval) : py_exn + (usage * usage) :=
    match Py.getitem update_msg "record" with
    | inl e => inl e
    | inr recs => match Py.py_iter recs with
                  | inl e => inl e
                  | inr records => parse_records records ∅ ∅
                  end
    end.

Definition dilution_record : pyval :=
    PDict [("vial", PInt 0); ("command", PStr "dilution");
           ("IN1", PNum 1); ("IN2", PNum 1); ("OUT", PNum 7)].
Definition sample_update : pyval :=
    PDict [("time", PNum 0); ("record", PList [dilution_record]);
           ("vials", PList [PInt 0]); ("od", PList []); ("temp", PList [])].
End FluidUsage.

Example parse_dilution_sample :
  match FluidUsage.parse_fluid_usage FluidUsage.sample_update with
  | inr (dil, rec) => dil = ∅ /\ rec !! 0%Z = Some (<["OUT":=PNum 7]> (<["IN2":=PNum 1]>
                                   (<["IN1":=PNum 1]> FluidUsage.blank_entry)))
  | inl _ => False
  end.
Proof. split; reflexivity. Qed.

Lemma parse_records_dilution_unchanged (records : list pyval) :
  forall (dil rec dil' rec' : FluidUsage.usage),
    FluidUsage.parse_records records dil rec = inr (dil', rec') -> dil' = dil.
Proof.
  induction records as [|r rest IH]; intros dil rec dil' rec' H; simpl in H.
  - inversion H. reflexivity.
  - repeat (case_match; try discriminate); eauto.
Qed.

(** C6 (code bug).  Whatever the update message, the "dilution" map
    returned by parse_fluid_usage is empty: records tagged "dilution" are
    written into the recurring map. *)
Theorem C6_parse_fluid_usage_dilution_empty (update_msg : pyval)
  (dil rec : FluidUsage.usage)
  (H : FluidUsage.parse_fluid_usage update_msg = inr (dil, rec)) :
  dil = ∅.
Proof.
  unfold FluidUsage.parse_fluid_usage in H.
  destruct (Py.getitem update_msg "record"); [discriminate|].
  destruct (Py.py_iter p); [discriminate|].
  eapply parse_records_dilution_unchanged. exact H.
Qed.

Lemma C6_parse_fluid_usage_dilution_empty_witness :
  match FluidUsage.parse_fluid_usage FluidUsage.sample_update with
  | inr (dil, rec) => dil = ∅
  | inl _ => False
  end.
Proof.
  destruct (FluidUsage.parse_fluid_usage FluidUsage.sample_update) as [e|[dil rec]] eqn:E.
  - vm_compute in E. discriminate.
  - exact (C6_parse_fluid_usage_dilution_empty FluidUsage.sample_update dil rec E).
Defined.

(** ** Floats that may be NaN, and numpy's median *)
Module Fl.
Inductive fl := Num (q : Q) | NaN.

  (** Python's [<] on floats: every comparison with NaN is False. *)
Definition lt (a b : fl) : bool :=
    match a, b with Num x, Num y => negb (Qle_bool y x) | _, _ => false end.

Definition is_nan (a : fl) : bool := match a with NaN => true | _ => false end.

Fixpoint nums (h : list fl) : list Q :=
    match h with [] => [] | Num x :: r => x :: nums r | NaN :: r => nums r end.

Fixpoint insert_sorted (x : Q) (l : list Q) : list Q :=
    match l with
    | [] => [x]
    | y :: r => if Qle_bool x y then x :: y :: r else y :: insert_sorted x r
    end.
Definition sort (l : list Q) : list Q := fold_right insert_sorted [] l.

  (** [np.median]: NaN if the sample is empty or holds a NaN. *)
Definition median (h : list fl) : fl :=
    if existsb is_nan h then NaN else
    let xs := sort (nums h) in
    let n := length xs in
    match n with
    | O => NaN
    | _ => if Nat.odd n then Num (nth (n / 2) xs 0)
           else Num ((nth (n / 2 - 1) xs 0 + nth (n / 2) xs 0) / 2)
    end.

  (** [deque(maxlen=m).append(x)] *)
Definition append_bounded (m : nat) (h : list fl) (x : fl) : list fl :=
    let h' := h ++ [x] in
    if decide (m < length h')%nat then drop (length h' - m) h' else h'.

  (** [d[-1]] *)
Definition last_item (h : list fl) : py_exn + fl :=
    match last h with Some x => inr x | None => inl IndexError end.
End Fl.

Example median_odd : Fl.median [Fl.Num 3; Fl.Num 1; Fl.Num 2] = Fl.Num 2.
Proof. reflexivity. Qed.
Example median_nan : Fl.median [Fl.Num 3; Fl.NaN] = Fl.NaN.
Proof. reflexivity. Qed.

(** ** Turbidostat.update (turbidostat.py, l. 124-219) with
    Bioreactor.pre_update (bioreactor.py, l. 346-387) *)
Module Turbidostat.
  Import Fl.

  (** The per-vial settings the update loop zips together. *)
Record tvial := mkTV {
    tv_vial : Z;
    tv_start : Q;     (* start_times *)
    tv_end : Q;       (* end_times *)
    tv_upper : Q;     (* od_upper_bounds *)
    tv_lower : Q      (* od_lower_bounds *)
  }.

Record tconfig := mkTC { tc_vials : list tvial; mem_len : nat }.

Record tstate := mkTS {
    is_diluting : gmap Z bool;          (* _is_diluting *)
    num_dilutions_left : gmap Z Z;      (* _num_dilutions_left *)
    od_history : gmap Z (list fl);      (* _past_od_readings *)
    temp_history : gmap Z (list fl);    (* _past_temp_readings *)
    num_readings : Z                    (* _num_readings *)
  }.

Definition set_diluting (v : Z) (b : bool) (st : tstate) : tstate :=
    mkTS (<[v:=b]> st.(is_diluting)) st.(num_dilutions_left) st.(od_history)
         st.(temp_history) st.(num_readings).
Definition set_left (v k : Z) (st : tstate) : tstate :=
    mkTS st.(is_diluting) (<[v:=k]> st.(num_dilutions_left)) st.(od_history)
         st.(temp_history) st.(num_readings).

  (** The lists the loop fills: vials_to_adjust with their current OD,
      vials_to_stop, and records. *)
Record acc := mkAcc {
    to_adjust : list (Z * fl);
    to_stop : list Z;
    records : list pyval
  }.

Definition stop_record (v : Z) : pyval := PDict [("vial", PInt v); ("command", PStr "stop")].

Definition add_adjust (v : Z) (od : fl) (a : acc) : acc :=
    mkAcc (a.(to_adjust) ++ [(v, od)]) a.(to_stop) a.(records).
Definition add_stop (v : Z) (a : acc) : acc :=
    mkAcc a.(to_adjust) (a.(to_stop) ++ [v]) (a.(records) ++ [stop_record v]).

Definition qlt (x y : Q) : bool := negb (Qle_bool y x).

  (** The body of the loop over vials (l. 165-200). *)
Definition vial_step (curr : Q) (c : tvial) (st : tstate) (a : acc)
      : py_exn + (tstate * acc) :=
    let v := c.(tv_vial) in
    if qlt curr c.(tv_start) || qlt c.(tv_end) curr then inr (st, a) else
    match st.(od_history) !! v with
    | None => inl KeyError
    | Some h =>
        let average_od := median h in
        let dilute (st' : tstate) :=
          match last_item h with
          | inl e => inl e
          | inr curr_od =>
              if lt curr_od (Num c.(tv_lower)) then inr (set_diluting v false st', a)
              else inr (st', add_adjust v curr_od a)
          end in
        match st.(is_diluting) !! v with
        | None => inl KeyError
        | Some true => dilute st
        | Some false =>
            if lt average_od (Num c.(tv_upper)) then inr (st, a) else
            let remaining := default 1%Z (st.(num_dilutions_left) !! v) in
            if (0 <? remaining)%Z then
              let st1 := set_diluting v true st in
              let st2 := match st1.(num_dilutions_left) !! v with
                         | Some k => set_left v (k - 1) st1
                         | None => st1
                         end in
              dilute st2
            else inr (st, add_stop v a)
        end
    end.

Fixpoint vial_loop (curr : Q) (cs : list tvial) (st : tstate) (a : acc)
      : py_exn + (tstate * acc) :=
    match cs with
    | [] => inr (st, a)
    | c :: rest => match vial_step curr c st a with
                   | inl e => inl e
                   | inr (st', a') => vial_loop curr rest st' a'
                   end
    end.
  (** The calls the update makes on the evolver. *)
Inductive event :=
  | StopPumps (vials : list Z)
  | DiluteSingle (vials : list (Z * fl)).

  (** [self.od_history[vial].append(od)] etc. over
      [zip(self.vials, od_readings, temp_readings)] (bioreactor.py l. 366-371);
      the readings are what [process_data] returned. *)
Fixpoint record_readings (m : nat) (vs : list Z) (ods temps : list fl) (st : tstate)
      : py_exn + tstate :=
    match vs, ods, temps with
    | v :: vs', o :: os, t :: ts =>
        match st.(od_history) !! v, st.(temp_history) !! v with
        | Some h, Some th =>
            record_readings m vs' os ts
              (mkTS st.(is_diluting) st.(num_dilutions_left)
                    (<[v := append_bounded m h o]> st.(od_history))
                    (<[v := append_bounded m th t]> st.(temp_history))
                    (st.(num_readings) + 1))
        | _, _ => inl KeyError
        end
    | _, _, _ => inr st
    end.

  (** [min(self.start_times)]: ValueError on an empty sequence. *)
Definition min_start (cfg : tconfig) : py_exn + Q :=
    match map tv_start cfg.(tc_vials) with
    | [] => inl ValueError
    | s :: ss => inr (fold_left Qmin ss s)
    end.

  (** [pre_update] (bioreactor.py l. 346-387): [None] for the records stands
      for [(False, None)], [Some records] for [(True, records)].
      [_manage_temperature] only talks to the device and is left out. *)
Definition pre_update (cfg : tconfig) (st : tstate) (curr : Q) (ods temps : list fl)
      : py_exn + (tstate * option (list pyval) * list event) :=
    match record_readings cfg.(mem_len) (map tv_vial cfg.(tc_vials)) ods temps st with
    | inl e => inl e
    | inr st1 =>
        match min_start cfg with
        | inl e => inl e
        | inr m =>
            if qlt curr m then inr (st1, None, []) else
            let to_stop := map tv_vial
              (filter (fun c => negb (Qeq_bool c.(tv_end) 0) && qlt c.(tv_end) curr)
                      cfg.(tc_vials)) in
            inr (st1, Some (map stop_record to_stop), [StopPumps to_stop])
        end
    end.

  (** The properties [od_readings] / [temp_readings]: [history[vial][-1]]
      for every vial. *)
Fixpoint last_readings (hist : gmap Z (list fl)) (vs : list Z) : py_exn + list fl :=
    match vs with
    | [] => inr []
    | v :: vs' =>
        match hist !! v with
        | None => inl KeyError
        | Some h => match last_item h with
                    | inl e => inl e
                    | inr x => match last_readings hist vs' with
                               | inl e => inl e
                               | inr xs => inr (x :: xs)
                               end
                    end
        end
    end.

Record update_msg := mkUM {
    um_time : Q; um_record : option (list pyval); um_vials : list Z;
    um_od : list fl; um_temp : list fl
  }.

  Section Update.
    (** [self._evolver.dilute_single(...)], seen through the records the
        loop over its result appends. *)
Variable dilute_single : list (Z * fl) -> list pyval.

    (** [Turbidostat.update]: the message is built (reading the histories)
        before [pre_update] runs, and the method has no [return] after the
        loop, so it returns [None] there. *)
Definition update (cfg : tconfig) (st : tstate) (timestamp curr : Q) (ods temps : list fl)
        : py_exn + (tstate * list event * option update_msg) :=
      let vs := map tv_vial cfg.(tc_vials) in
      match last_readings st.(od_history) vs with
      | inl e => inl e
      | inr odr =>
          match last_readings st.(temp_history) vs with
          | inl e => inl e
          | inr tr =>
              let msg := mkUM timestamp None vs odr tr in
              match pre_update cfg st curr ods temps with
              | inl e => inl e
              | inr (st1, None, evs) => inr (st1, evs, Some msg)
              | inr (st1, Some recs, evs) =>
                  match vial_loop curr cfg.(tc_vials) st1 (mkAcc [] [] recs) with
                  | inl e => inl e
                  | inr (st2, a) =>
                      let _records := a.(records) ++ dilute_single a.(to_adjust) in
                      inr (st2, evs ++ [DiluteSingle a.(to_adjust); StopPumps a.(to_stop)], None)
                  end
              end
          end
      end.
  End Update.

  (** The state [Bioreactor.__init__] (bioreactor.py, l. 148-152) leaves
      behind: an empty deque per vial in both histories and
      [_num_readings = 0]. The two dilution maps belong to [Turbidostat]
      and stay empty for the other reactors. *)
Definition bioreactor_init (cfg : tconfig) : tstate :=
    let vs := map tv_vial cfg.(tc_vials) in
    mkTS ∅ ∅ (list_to_map (map (fun v => (v, [])) vs))
         (list_to_map (map (fun v => (v, [])) vs)) 0.

Definition started (cfg : tconfig) (curr : Q) : bool :=
    match min_start cfg with inr m => negb (qlt curr m) | inl _ => false end.

  (** The window test of the loop, [not (curr_time < start_time or curr_time > end_time)]. *)
Definition in_window (curr : Q) (c : tvial) : bool :=
    negb (qlt curr c.(tv_start) || qlt c.(tv_end) curr).
End Turbidostat.

(** ** Daemon (daemon.py) *)
Module Daemon.
  (** [self._fluids]: fluid name to remaining volume (mL). *)
Abbreviation inventory := (gmap string Q).

Definition ok_response : pyval := PDict [("status", PStr "ok")].

  (** The [refill] branch of [handle_client] (l. 144-148); the volumes are
      JSON numbers, so [float(vol)] is the number itself. *)
Definition refill_one (fluids : inventory) (arg : string * Q) : inventory :=
    let '(fluid, vol) := arg in
    if bool_decide (is_Some (fluids !! fluid)) then <[fluid := vol]> fluids else fluids.

Definition refill (fluids : inventory) (args : list (string * Q)) : inventory * pyval :=
    (foldl refill_one fluids args, ok_response).

  (** Python's [//] and [%] on floats with a positive divisor. *)
Definition py_floordiv (a b : Q) : Q := inject_Z (Qfloor (a / b)).
Definition py_mod (a b : Q) : Q := a - b * py_floordiv a b.

Definition qlt (x y : Q) : bool := negb (Qle_bool y x).

  (** [self._recurrent]: fluid name to [[vol, period, last]]. *)
Abbreviation recurrent := (gmap string (Q * Q * Q)).

  (** One iteration of the loop of [manage_updates] over
      [self._recurrent.items()] (l. 332-339), started at time [start]. *)
Definition advance_one (start : Q) (fluid_name : string) (params : Q * Q * Q)
      (rec : recurrent) (fluids : inventory) : py_exn + (recurrent * inventory) :=
    let '(vol, period, last) := params in
    let elapsed_time := start - last in
    if qlt period elapsed_time then
      let dilutions := py_floordiv elapsed_time period in
      let new_last := start - py_mod elapsed_time period in
      let rec' := <[fluid_name := (vol, period, new_last)]> rec in
      match fluids !! fluid_name with
      | None => inl KeyError
      | Some x => inr (rec', <[fluid_name := x - dilutions * vol]> fluids)
      end
    else inr (rec, fluids).

Fixpoint advance_list (start : Q) (entries : list (string * (Q * Q * Q)))
      (rec : recurrent) (fluids : inventory) : py_exn + (recurrent * inventory) :=
    match entries with
    | [] => inr (rec, fluids)
    | (f, params) :: rest =>
        match advance_one start f params rec fluids with
        | inl e => inl e
        | inr (rec', fluids') => advance_list start rest rec' fluids'
        end
    end.

  (** The whole pass; assigning to an existing key while iterating is
      allowed in Python, and each iteration only touches its own key. *)
Definition advance_recurrent (start : Q) (rec : recurrent) (fluids : inventory)
      : py_exn + (recurrent * inventory) :=
    advance_list start (map_to_list rec) rec fluids.
End Daemon.

Module DSamples.
Definition fluids0 : Daemon.inventory := {[ "media" := 100; "water" := 50 ]}.
Definition refill_args : list (string * Q) := [("media", 80); ("ethanol", 20)].
Definition unknown_args : list (string * Q) := [("ethanol", 20); ("bleach", 5)].
End DSamples.

Section DaemonProofs.
  Import Daemon.

Lemma refill_one_dom fluids arg f :
    is_Some (refill_one fluids arg !! f) <-> is_Some (fluids !! f).
  Proof.
    destruct arg as [g v]; simpl. case_bool_decide as Hg; [|tauto].
    destruct (decide (g = f)) as [->|Hne].
    - rewrite lookup_insert_eq. split; intros _; eauto.
    - rewrite lookup_insert_ne by done. tauto.
  Qed.

Lemma refill_foldl_dom args : forall fluids f,
    is_Some (foldl refill_one fluids args !! f) <-> is_Some (fluids !! f).
  Proof.
    induction args as [|a args IH]; intros fluids f; simpl; [tauto|].
    rewrite IH. apply refill_one_dom.
  Qed.

Lemma refill_foldl_other args : forall fluids f,
    f ∉ args.*1 -> foldl refill_one fluids args !! f = fluids !! f.
  Proof.
    induction args as [|[g v] args IH]; intros fluids f Hf; simpl; [done|].
    rewrite fmap_cons, not_elem_of_cons in Hf. destruct Hf as [Hfg Hf].
    rewrite IH by done. simpl. case_bool_decide; [|done].
    rewrite lookup_insert_ne; auto.
  Qed.

Lemma refill_foldl_in args : forall fluids f v,
    NoDup args.*1 -> (f, v) ∈ args -> is_Some (fluids !! f) ->
    foldl refill_one fluids args !! f = Some v.
  Proof.
    induction args as [|[g w] args IH]; intros fluids f v Hnd Hin Hs; simpl.
    - apply not_elem_of_nil in Hin. contradiction.
    - rewrite fmap_cons, NoDup_cons in Hnd. destruct Hnd as [Hg Hnd]. simpl in Hg.
      apply elem_of_cons in Hin as [Heq|Hin].
      + injection Heq as -> ->. rewrite refill_foldl_other by done. simpl.
        rewrite bool_decide_eq_true_2 by done. apply lookup_insert_eq.
      + apply IH; [done|done|]. apply (refill_one_dom fluids (g, w) f). done.
  Qed.

Ltac case_if := match goal with |- context [if ?b then _ else _] => destruct b eqn:? end.

Lemma advance_one_other start g params rec fluids rec' fluids' f :
    g <> f -> advance_one start g params rec fluids = inr (rec', fluids') ->
    rec' !! f = rec !! f /\ fluids' !! f = fluids !! f.
  Proof.
    intros Hne. destruct params as [[vol period] last]. unfold advance_one.
    case_if.
    - destruct (fluids !! g); [|discriminate]. intros H; injection H as <- <-.
      rewrite !lookup_insert_ne by done. auto.
    - intros H; injection H as <- <-. auto.
  Qed.

Lemma advance_list_other start entries : forall rec fluids rec' fluids' f,
    f ∉ entries.*1 -> advance_list start entries rec fluids = inr (rec', fluids') ->
    rec' !! f = rec !! f /\ fluids' !! f = fluids !! f.
  Proof.
    induction entries as [|[g params] entries IH]; intros rec fluids rec' fluids' f Hf H; simpl in H.
    - injection H as <- <-. auto.
    - rewrite fmap_cons, not_elem_of_cons in Hf. destruct Hf as [Hfg Hf]. simpl in Hfg.
      destruct (advance_one start g params rec fluids) as [e|[r1 f1]] eqn:E; [discriminate|].
      destruct (IH _ _ _ _ f Hf H) as [-> ->].
      apply (advance_one_other start g params rec fluids); auto.
  Qed.

Lemma advance_list_key start entries : forall rec fluids rec' fluids' f b p t0,
    NoDup entries.*1 -> (f, (b, p, t0)) ∈ entries ->
    advance_list start entries rec fluids = inr (rec', fluids') ->
    if qlt p (start - t0) then
      exists x, fluids !! f = Some x
        /\ fluids' !! f = Some (x - py_floordiv (start - t0) p * b)
        /\ rec' !! f = Some (b, p, start - py_mod (start - t0) p)
    else rec' !! f = rec !! f /\ fluids' !! f = fluids !! f.
  Proof.
    induction entries as [|[g params] entries IH];
      intros rec fluids rec' fluids' f b p t0 Hnd Hin H.
    - apply not_elem_of_nil in Hin. contradiction.
    - rewrite fmap_cons, NoDup_cons in Hnd. destruct Hnd as [Hg Hnd]. simpl in Hg.
      simpl in H.
      destruct (advance_one start g params rec fluids) as [e|[r1 f1]] eqn:E; [discriminate|].
      apply elem_of_cons in Hin as [Heq|Hin].
      + injection Heq as Hf Hp. subst g params.
        destruct (advance_list_other _ _ _ _ _ _ f Hg H) as [-> ->].
        unfold advance_one in E. case_if.
        * destruct (fluids !! f) as [x|]; [|discriminate].
          injection E as <- <-. exists x. rewrite !lookup_insert_eq. auto.
        * injection E as <- <-. auto.
      + assert (g <> f) as Hne.
        { intros ->. apply Hg. apply list_elem_of_fmap_2' with (x := (f, (b, p, t0))); done. }
        destruct (advance_one_other _ _ _ _ _ _ _ f Hne E) as [E1 E2].
        specialize (IH r1 f1 rec' fluids' f b p t0 Hnd Hin H).
        rewrite E1, E2 in IH. exact IH.
  Qed.

  (** Floor division and remainder split the elapsed time into whole periods
      and a remainder shorter than a period. *)
Lemma py_mod_spec a b :
    0 < b -> a == b * py_floordiv a b + py_mod a b /\ 0 <= py_mod a b /\ py_mod a b < b.
  Proof.
    intros Hb. unfold py_mod, py_floordiv.
    pose proof (Qfloor_le (a / b)) as L. pose proof (Qlt_floor (a / b)) as U.
    rewrite inject_Z_plus in U. replace (inject_Z 1) with 1 in U by reflexivity.
    assert (E : a == b * (a / b)) by (field; intro; subst; lra).
    split; [ring|]. split.
    - apply Qmult_le_l with (z := b) in L; [|exact Hb]. lra.
    - apply Qmult_lt_l with (z := b) in U; [|exact Hb].
      rewrite Qmult_plus_distr_r in U. lra.
  Qed.

Lemma qlt_true x y : qlt x y = true <-> x < y.
  Proof.
    unfold qlt. destruct (Qle_bool y x) eqn:E; simpl.
    - apply Qle_bool_iff in E. split; [discriminate|]. intros H. lra.
    - split; [|reflexivity]. intros _. apply Qnot_le_lt. intros H.
      apply Qle_bool_iff in H. congruence.
  Qed.

Lemma refill_foldl_unknown args : forall fluids,
    Forall (fun a => fluids !! a.1 = None) args -> foldl refill_one fluids args = fluids.
  Proof.
    induction args as [|[g w] args IH]; intros fluids Hall; simpl; [done|].
    apply Forall_cons in Hall as [Hg Hall]. simpl in Hg.
    rewrite Hg. simpl. apply IH. exact Hall.
  Qed.
End DaemonProofs.

(** C9: [refill] answers status ok, gives every fluid of its arguments that
    is already in the inventory the supplied volume, leaves every other
    entry as it was and adds no new fluid; with only unknown fluids it leaves
    the inventory unchanged. The arguments are a JSON object, so their fluid
    names are distinct. *)
Theorem C9_refill_overwrites_known (fluids : gmap string Q) (args : list (string * Q))
  (Hnd : NoDup args.*1) :
  let '(fluids', response) := Daemon.refill fluids args in
  response = Daemon.ok_response
  /\ (forall f v, (f, v) ∈ args -> is_Some (fluids !! f) -> fluids' !! f = Some v)
  /\ (forall f, f ∉ args.*1 -> fluids' !! f = fluids !! f)
  /\ (forall f, fluids !! f = None -> fluids' !! f = None)
  /\ (Forall (fun a => fluids !! a.1 = None) args -> fluids' = fluids).
Proof.
  simpl. split; [reflexivity|]. split; [|split; [|split]].
  - intros f v Hin Hs. apply refill_foldl_in; assumption.
  - intros f Hf. apply refill_foldl_other. exact Hf.
  - intros f Hf. destruct (foldl Daemon.refill_one fluids args !! f) eqn:E; [|reflexivity].
    exfalso. assert (is_Some (fluids !! f)) as [y Hy].
    { apply (refill_foldl_dom args). rewrite E. eauto. }
    congruence.
  - apply refill_foldl_unknown.
Qed.

Lemma C9_refill_overwrites_known_witness :
  NoDup DSamples.refill_args.*1
  /\ Daemon.refill DSamples.fluids0 DSamples.refill_args
     = ({[ "media" := 80; "water" := 50 ]}, Daemon.ok_response)
  /\ fst (Daemon.refill DSamples.fluids0 DSamples.unknown_args) = DSamples.fluids0.
Proof.
  assert (Hnd : NoDup DSamples.refill_args.*1) by (simpl; repeat constructor; set_solver).
  assert (Hnd' : NoDup DSamples.unknown_args.*1) by (simpl; repeat constructor; set_solver).
  pose proof (C9_refill_overwrites_known DSamples.fluids0 DSamples.refill_args Hnd) as H1.
  pose proof (C9_refill_overwrites_known DSamples.fluids0 DSamples.unknown_args Hnd') as H2.
  split; [exact Hnd|]. split.
  - vm_compute. reflexivity.
  - simpl in H2. destruct H2 as [_ [_ [_ [_ H2]]]]. apply H2.
    repeat constructor.
Defined.

(** C2: one pass over the installed recurring entries at time [start]. An
    entry [fluid: [b, p, t0]] with [p > 0] and [start - t0 > p] costs its
    fluid [floor((start - t0) / p) * b] and gets [start - (start - t0) mod p]
    as its new last-applied time, which is [t0] plus that many whole periods,
    the remainder being shorter than one period; an entry with
    [start - t0 <= p] is left alone, as is its fluid. In particular with
    [b = 1] and [p = 100] a pass at [t0 + 250] takes exactly 2 and sets the
    last-applied time to [t0 + 200]. *)
Theorem C2_recurrent_advance_whole_periods (start : Q) (rec : gmap string (Q * Q * Q))
  (fluids : gmap string Q) (rec' : gmap string (Q * Q * Q)) (fluids' : gmap string Q)
  (H : Daemon.advance_recurrent start rec fluids = inr (rec', fluids'))
  (f : string) (b p t0 : Q) (Hf : rec !! f = Some (b, p, t0)) (Hp : 0 < p) :
  (p < start - t0 ->
     exists x, fluids !! f = Some x
       /\ fluids' !! f = Some (x - inject_Z (Qfloor ((start - t0) / p)) * b)
       /\ rec' !! f = Some (b, p, start - Daemon.py_mod (start - t0) p)
       /\ start - Daemon.py_mod (start - t0) p == t0 + p * inject_Z (Qfloor ((start - t0) / p))
       /\ 0 <= Daemon.py_mod (start - t0) p < p)
  /\ (start - t0 <= p -> rec' !! f = Some (b, p, t0) /\ fluids' !! f = fluids !! f)
  /\ (b = 1 -> p = 100 -> start == t0 + 250 ->
       exists x y l, fluids !! f = Some x /\ fluids' !! f = Some y /\ y == x - 2
         /\ rec' !! f = Some (1, 100, l) /\ l == t0 + 200).
Proof.
  unfold Daemon.advance_recurrent in H.
  assert (Hin : (f, (b, p, t0)) ∈ map_to_list rec) by (apply elem_of_map_to_list; exact Hf).
  pose proof (advance_list_key start (map_to_list rec) rec fluids rec' fluids' f b p t0
                (NoDup_fst_map_to_list rec) Hin H) as K.
  assert (Long : p < start - t0 ->
     exists x, fluids !! f = Some x
       /\ fluids' !! f = Some (x - inject_Z (Qfloor ((start - t0) / p)) * b)
       /\ rec' !! f = Some (b, p, start - Daemon.py_mod (start - t0) p)
       /\ start - Daemon.py_mod (start - t0) p == t0 + p * inject_Z (Qfloor ((start - t0) / p))
       /\ 0 <= Daemon.py_mod (start - t0) p < p).
  { intros Hlt. apply qlt_true in Hlt. rewrite Hlt in K.
    destruct K as [x [Hx [Hx' Hr]]]. exists x.
    destruct (py_mod_spec (start - t0) p Hp) as [E [M1 M2]].
    unfold Daemon.py_floordiv in *.
    repeat split; try assumption. lra. }
  split; [exact Long|]. split.
  - intros Hle. destruct (Daemon.qlt p (start - t0)) eqn:Q.
    + apply qlt_true in Q. lra.
    + destruct K as [-> ->]. auto.
  - intros -> -> Hs.
    assert (Hlt : 100 < start - t0) by lra.
    destruct (Long Hlt) as [x [Hx [Hx' [Hr [Hl _]]]]].
    assert (F : Qfloor ((start - t0) / 100) = 2%Z).
    { rewrite (Qfloor_comp _ (5 # 2)) by (rewrite Hs; field). reflexivity. }
    rewrite F in Hx', Hl.
    exists x, (x - inject_Z 2 * 1), (start - Daemon.py_mod (start - t0) 100).
    split; [exact Hx|]. split; [exact Hx'|]. split.
    + change (inject_Z 2) with 2. ring.
    + split; [exact Hr|]. rewrite Hl. change (inject_Z 2) with 2. ring.
Qed.

Lemma C2_recurrent_advance_whole_periods_witness :
  exists rec' fluids',
    Daemon.advance_recurrent 1250 {[ "media" := (1, 100, 1000) ]} {[ "media" := 100 ]}
      = inr (rec', fluids')
    /\ exists x y l, ({[ "media" := 100 ]} : gmap string Q) !! "media" = Some x
       /\ fluids' !! "media" = Some y /\ y == x - 2
       /\ rec' !! "media" = Some (1, 100, l) /\ l == 1000 + 200.
Proof.
  destruct (Daemon.advance_recurrent 1250 {[ "media" := (1, 100, 1000) ]} {[ "media" := 100 ]})
    as [e|[rec' fluids']] eqn:E.
  { exfalso. vm_compute in E. discriminate E. }
  exists rec', fluids'. split; [reflexivity|].
  destruct (C2_recurrent_advance_whole_periods 1250 {[ "media" := (1, 100, 1000) ]}
              {[ "media" := 100 ]} rec' fluids' E "media" 1 100 1000
              ltac:(vm_compute; reflexivity) ltac:(reflexivity)) as [_ [_ S]].
  destruct (S eq_refl eq_refl ltac:(reflexivity)) as [x [y [l [Hx [Hy [Hxy [Hr Hl]]]]]]].
  exists x, y, l. split; [exact Hx|]. split; [exact Hy|]. split; [exact Hxy|].
  split; [exact Hr|exact Hl].
Defined.

(** ** EvolverControls: setpoint updates (evolver_controls.py, l. 611-693) *)
Module Setpoints.
Import Controls.

  (** The position Python's [l[i]] reaches in a list of length [len]: a
      negative index counts from the end; [None] is an IndexError. *)
Definition py_index (len : nat) (i : Z) : option nat :=
    if decide (0 <= i < Z.of_nat len)%Z then Some (Z.to_nat i)
    else if decide (- Z.of_nat len <= i < 0)%Z then Some (Z.to_nat (i + Z.of_nat len))
    else None.

  (** [l[i] = x] with an integer index *)
Definition setitem_z {A} (l : list A) (i : Z) (x : A) : py_exn + list A :=
    match py_index (length l) i with
    | Some k => inr (<[k:=x]> l)
    | None => inl IndexError
    end.

  (** [for vial, value in zip(vials, values): adjustment[vial] = value] *)
Fixpoint write_adjustment (adjustment : list pyval) (vials : list Z) (vals : list pyval)
      : py_exn + list pyval :=
    match vials, vals with
    | v :: vs, x :: xs =>
        match setitem_z adjustment v x with
        | inl e => inl e
        | inr adjustment' => write_adjustment adjustment' vs xs
        end
    | _, _ => inr adjustment
    end.

Definition setting_message (param : string) (value : list pyval) (immediate : bool) : pyval :=
    PDict [("param", PStr param); ("value", PList value);
           ("immediate", PBool immediate); ("recurring", PBool true)].

  (** [update_stir_rate] (l. 611-637) *)
Definition update_stir_rate (vials : list Z) (stir_rates : list pyval) (immediate : bool) : M unit :=
    let! s := get in
    let! adjustment := lift (write_adjustment (replicate s.(num_vials_total) (PStr "NaN"))
                                              vials stir_rates) in
    emit "command" (setting_message "stir" adjustment immediate).

  (** [update_temperature] (l. 639-665) *)
Definition update_temperature (vials : list Z) (temperatures : list pyval) (immediate : bool) : M unit :=
    let! s := get in
    let! adjustment := lift (write_adjustment (replicate s.(num_vials_total) (PStr "NaN"))
                                              vials temperatures) in
    emit "command" (setting_message "temp" adjustment immediate).

  (** [update_led_power] (l. 667-693): the adjustment is built, but the
      message carries [led_powers]. *)
Definition update_led_power (vials : list Z) (led_powers : list pyval) (immediate : bool) : M unit :=
    let! s := get in
    let! _adjustment := lift (write_adjustment (replicate s.(num_vials_total) (PStr "NaN"))
                                               vials led_powers) in
    emit "command" (setting_message "od_led" led_powers immediate).
End Setpoints.

Section SetpointProofs.
  Import Controls Setpoints.

Lemma py_index_lt len i k : py_index len i = Some k -> (k < len)%nat.
  Proof.
    unfold py_index. repeat case_decide; intros H'; inversion H'; subst; lia.
  Qed.

Lemma write_adjustment_length adj vs xs adj' :
    write_adjustment adj vs xs = inr adj' -> length adj' = length adj.
  Proof.
    revert adj xs. induction vs as [|v vs IH]; intros adj [|x xs] H; simpl in H;
      try (inversion H; reflexivity).
    unfold setitem_z in H. destruct (py_index (length adj) v) eqn:E; [|discriminate].
    apply IH in H. rewrite H. apply length_insert.
  Qed.

Lemma write_adjustment_error adj vs xs e :
    write_adjustment adj vs xs = inl e -> e = IndexError.
  Proof.
    revert adj xs. induction vs as [|v vs IH]; intros adj [|x xs] H; simpl in H;
      try discriminate.
    unfold setitem_z in H. destruct (py_index (length adj) v) eqn:E.
    - exact (IH _ _ H).
    - inversion H; reflexivity.
  Qed.

Lemma write_adjustment_fails adj vs xs :
    Exists (fun p => py_index (length adj) p.1 = None) (zip vs xs) ->
    write_adjustment adj vs xs = inl IndexError.
  Proof.
    revert adj xs. induction vs as [|v vs IH]; intros adj [|x xs] H; simpl in *;
      try (inversion H; fail).
    unfold setitem_z. apply Exists_cons in H. destruct H as [H|H].
    - simpl in H. rewrite H. reflexivity.
    - destruct (py_index (length adj) v); [|reflexivity].
      apply IH. rewrite length_insert. exact H.
  Qed.

Lemma write_adjustment_ok adj vs xs :
    Forall (fun p => is_Some (py_index (length adj) p.1)) (zip vs xs) ->
    exists adj', write_adjustment adj vs xs = inr adj'
      /\ length adj' = length adj
      /\ (forall j, (forall p, p ∈ zip vs xs -> py_index (length adj) p.1 <> Some j) ->
            adj' !! j = adj !! j)
      /\ (forall l1 l2 v x j, zip vs xs = l1 ++ (v, x) :: l2 ->
            py_index (length adj) v = Some j ->
            (forall p, p ∈ l2 -> py_index (length adj) p.1 <> Some j) -> adj' !! j = Some x).
  Proof.
    revert adj xs. induction vs as [|v vs IH]; intros adj xs H.
    - exists adj. split; [reflexivity|]. split; [reflexivity|]. split; [reflexivity|].
      intros l1 l2 v x j E. destruct l1; discriminate.
    - destruct xs as [|x xs].
      + exists adj. split; [reflexivity|]. split; [reflexivity|]. split; [reflexivity|].
        intros l1 l2 v' x' j E. destruct l1; discriminate.
      + simpl in H. apply Forall_cons in H as [[k Hk] H]. simpl in Hk.
        assert (Hklt : (k < length adj)%nat) by (eapply py_index_lt; eauto).
        rewrite <- (length_insert adj k x) in H.
        destruct (IH (<[k:=x]> adj) xs H) as [adj' [E [L [U W]]]].
        rewrite length_insert in U, W.
        exists adj'. simpl. unfold setitem_z. rewrite Hk. split; [exact E|].
        split; [rewrite L; apply length_insert|]. split.
        * intros j Hj. rewrite U.
          -- apply list_lookup_insert_ne. intros ->. apply (Hj (v, x)); [left|exact Hk].
          -- intros p Hp. apply Hj. right. exact Hp.
        * intros l1 l2 v' x' j Ez Hv Hl2. destruct l1 as [|p l1].
          -- simpl in Ez. inversion Ez; subst. rewrite Hk in Hv. inversion Hv; subst.
             rewrite U by exact Hl2. apply list_lookup_insert_eq. exact Hklt.
          -- simpl in Ez. inversion Ez; subst. eapply W; eauto.
  Qed.

Lemma write_adjustment_inl adj vs xs e :
    write_adjustment adj vs xs = inl e ->
    Exists (fun p => py_index (length adj) p.1 = None) (zip vs xs).
  Proof.
    revert adj xs. induction vs as [|v vs IH]; intros adj [|x xs] H; simpl in H;
      try discriminate.
    unfold setitem_z in H. simpl. destruct (py_index (length adj) v) eqn:E.
    - apply Exists_cons; right. apply IH in H. rewrite length_insert in H. exact H.
    - apply Exists_cons; left. exact E.
  Qed.

Lemma lookup_replicate_lt {A} (n j : nat) (x : A) : (j < n)%nat -> replicate n x !! j = Some x.
  Proof. intros H. apply lookup_replicate_2. exact H. Qed.
End SetpointProofs.

(** X1: the stir and temperature updates. When every vial paired with a
    value is a valid Python index for a list of [num_vials_total] entries
    (a negative vial counts from the end), [update_stir_rate] and
    [update_temperature] each emit one "command" message whose value has
    [num_vials_total] entries: at the position of each paired vial the
    value of its last pairing, "NaN" at every position no paired vial
    reaches. *)
Theorem update_stir_temperature_values (s : Controls.controls) (vials : list Z)
  (vals : list pyval) (immediate : bool)
  (Hin : Forall (fun p => is_Some (Setpoints.py_index (Controls.num_vials_total s) p.1))
                (zip vials vals)) :
  exists adjustment,
    Setpoints.update_stir_rate vials vals immediate s
      = Controls.Ok tt (Controls.push_emit "command"
                          (Setpoints.setting_message "stir" adjustment immediate) s)
    /\ Setpoints.update_temperature vials vals immediate s
      = Controls.Ok tt (Controls.push_emit "command"
                          (Setpoints.setting_message "temp" adjustment immediate) s)
    /\ length adjustment = Controls.num_vials_total s
    /\ (forall j, (j < Controls.num_vials_total s)%nat ->
          (forall p, p ∈ zip vials vals ->
             Setpoints.py_index (Controls.num_vials_total s) p.1 <> Some j) ->
          adjustment !! j = Some (PStr "NaN"))
    /\ (forall l1 l2 v x j, zip vials vals = l1 ++ (v, x) :: l2 ->
          Setpoints.py_index (Controls.num_vials_total s) v = Some j ->
          (forall p, p ∈ l2 -> Setpoints.py_index (Controls.num_vials_total s) p.1 <> Some j) ->
          adjustment !! j = Some x).
Proof.
  set (n := Controls.num_vials_total s) in *.
  rewrite <- (length_replicate n (PStr "NaN")) in Hin.
  destruct (write_adjustment_ok (replicate n (PStr "NaN")) vials vals Hin)
    as [adj [E [L [U W]]]].
  rewrite length_replicate in L, U, W.
  exists adj. unfold Setpoints.update_stir_rate, Setpoints.update_temperature,
    Controls.bind, Controls.get. fold n. rewrite E. simpl.
  split; [reflexivity|]. split; [reflexivity|]. split; [exact L|]. split.
  - intros j Hj Hn. rewrite U by exact Hn. apply lookup_replicate_lt. exact Hj.
  - exact W.
Qed.

Lemma update_stir_temperature_values_witness :
  Forall (fun p => is_Some (Setpoints.py_index 4 p.1)) (zip [-1; 1; 1]%Z [PInt 5; PInt 6; PInt 7])
  /\ exists adjustment,
    Setpoints.update_stir_rate [-1; 1; 1]%Z [PInt 5; PInt 6; PInt 7] false (Controls.init 4)
      = Controls.Ok tt (Controls.push_emit "command"
                          (Setpoints.setting_message "stir" adjustment false) (Controls.init 4))
    /\ adjustment = [PStr "NaN"; PInt 7; PStr "NaN"; PInt 5].
Proof.
  assert (H : Forall (fun p => is_Some (Setpoints.py_index 4 p.1))
                     (zip [-1; 1; 1]%Z [PInt 5; PInt 6; PInt 7])).
  { repeat constructor; vm_compute; eauto. }
  split; [exact H|].
  destruct (update_stir_temperature_values (Controls.init 4) [-1; 1; 1]%Z
              [PInt 5; PInt 6; PInt 7] false H) as [adj [E [_ [L [U W]]]]].
  exists adj. split; [exact E|].
  assert (E2 : Setpoints.update_stir_rate [-1; 1; 1]%Z [PInt 5; PInt 6; PInt 7] false
                 (Controls.init 4)
               = Controls.Ok tt (Controls.push_emit "command"
                   (Setpoints.setting_message "stir" [PStr "NaN"; PInt 7; PStr "NaN"; PInt 5] false)
                   (Controls.init 4))) by (vm_compute; reflexivity).
  rewrite E2 in E.
  apply (f_equal (fun r => match r with
                           | Controls.Ok _ s' => last (Controls.emitted s')
                           | _ => None end)) in E.
  simpl in E. injection E as E. symmetry. exact E.
Defined.

(** X2: out-of-range vials. [update_stir_rate], [update_temperature] and
    [update_led_power] raise IndexError, with nothing emitted and the state
    unchanged, exactly when some vial paired with a value is not a valid
    index of a list of [num_vials_total] entries; vials past the end of the
    value list are never checked. *)
Theorem setpoint_updates_out_of_range (s : Controls.controls) (vials : list Z)
  (vals : list pyval) (immediate : bool) :
  Exists (fun p => Setpoints.py_index (Controls.num_vials_total s) p.1 = None) (zip vials vals)
  <-> (Setpoints.update_stir_rate vials vals immediate s = Controls.Raise IndexError s
       /\ Setpoints.update_temperature vials vals immediate s = Controls.Raise IndexError s
       /\ Setpoints.update_led_power vials vals immediate s = Controls.Raise IndexError s).
Proof.
  split.
  - intros H. rewrite <- (length_replicate (Controls.num_vials_total s) (PStr "NaN")) in H.
    apply write_adjustment_fails in H.
    unfold Setpoints.update_stir_rate, Setpoints.update_temperature,
      Setpoints.update_led_power, Controls.bind, Controls.get.
    rewrite H. simpl. auto.
  - intros [H _]. unfold Setpoints.update_stir_rate, Controls.bind, Controls.get in H.
    destruct (Setpoints.write_adjustment _ vials vals) as [e|adj] eqn:E; [|discriminate H].
    apply write_adjustment_inl in E. rewrite length_replicate in E. exact E.
Qed.

(** X3: [update_led_power] builds the per-vial adjustment only to check the
    vials: when every paired vial is a valid index it emits "od_led" with
    [led_powers] exactly as given, whatever the vials and whatever the
    length of [led_powers]. *)
Theorem update_led_power_sends_powers (s : Controls.controls) (vials : list Z)
  (led_powers : list pyval) (immediate : bool)
  (Hin : Forall (fun p => is_Some (Setpoints.py_index (Controls.num_vials_total s) p.1))
                (zip vials led_powers)) :
  Setpoints.update_led_power vials led_powers immediate s
    = Controls.Ok tt (Controls.push_emit "command"
                        (Setpoints.setting_message "od_led" led_powers immediate) s).
Proof.
  rewrite <- (length_replicate (Controls.num_vials_total s) (PStr "NaN")) in Hin.
  destruct (write_adjustment_ok _ vials led_powers Hin) as [adj [E _]].
  unfold Setpoints.update_led_power, Controls.bind, Controls.get. rewrite E. reflexivity.
Qed.

Lemma update_led_power_sends_powers_witness :
  Forall (fun p => is_Some (Setpoints.py_index 16 p.1)) (zip [3%Z] [PInt 100; PInt 200; PInt 300])
  /\ Setpoints.update_led_power [3%Z] [PInt 100; PInt 200; PInt 300] true (Controls.init 16)
     = Controls.Ok tt (Controls.push_emit "command"
         (Setpoints.setting_message "od_led" [PInt 100; PInt 200; PInt 300] true)
         (Controls.init 16)).
Proof.
  assert (H : Forall (fun p => is_Some (Setpoints.py_index 16 p.1))
                     (zip [3%Z] [PInt 100; PInt 200; PInt 300])).
  { repeat constructor; vm_compute; eauto. }
  split; [exact H|]. exact (update_led_power_sends_powers (Controls.init 16) _ _ true H).
Defined.

Section PumpWriteProofs.
  Import Controls.

  (** The positions [stop_pumps] writes "0" to, in the order it writes them. *)
Definition stop_targets (n : nat) (vials : list nat) (fls : list (nat * bool)) : list nat :=
    flat_map (fun (fl : nat * bool) => if fl.2 then map (fun v => (v + fl.1 * n)%nat) vials else []) fls.

Definition stop_step (n : nat) (vials : list nat) (acc : py_exn + list pyval) (fl : nat * bool) :=
    match acc with
    | inl e => inl e
    | inr value => if fl.2 then stop_writes value (fl.1 * n) vials else inr value
    end.

Lemma elem_of_map_2 {A B} (f : A -> B) (l : list A) x : x ∈ l -> f x ∈ map f l.
  Proof. rewrite !list_elem_of_In. apply in_map. Qed.

Lemma elem_of_map_1 {A B} (f : A -> B) (l : list A) y : y ∈ map f l -> exists x, y = f x /\ x ∈ l.
  Proof.
    rewrite list_elem_of_In. intros H. apply in_map_iff in H as [x [<- Hx]].
    exists x. split; [reflexivity|]. apply list_elem_of_In. exact Hx.
  Qed.

Lemma stop_fold_inl n vials fls e : foldl (stop_step n vials) (inl e) fls = inl e.
  Proof. induction fls as [|fl fls IH]; [reflexivity|]. exact IH. Qed.

Lemma stop_writes_ok value off vials :
    Forall (fun v => (v + off < length value)%nat) vials ->
    exists value', stop_writes value off vials = inr value'
      /\ length value' = length value
      /\ (forall j, (j ∈ map (fun v => (v + off)%nat) vials -> value' !! j = Some (PStr "0"))
                 /\ (j ∉ map (fun v => (v + off)%nat) vials -> value' !! j = value !! j)).
  Proof.
    revert value. induction vials as [|v vs IH]; intros value H.
    - exists value. split; [reflexivity|]. split; [reflexivity|].
      intros j. split; [intros Hj; inversion Hj|reflexivity].
    - apply Forall_cons in H as [Hv H]. simpl. unfold Py.setitem.
      rewrite decide_True by exact Hv.
      rewrite <- (length_insert value (v + off) (PStr "0")) in H.
      destruct (IH _ H) as [value' [E [L U]]]. exists value'.
      split; [exact E|]. split; [rewrite L; apply length_insert|].
      intros j. destruct (U j) as [U1 U2]. split.
      + intros Hj. apply elem_of_cons in Hj as [->|Hj]; [|exact (U1 Hj)].
        destruct (decide ((v + off)%nat ∈ map (fun v0 => (v0 + off)%nat) vs)) as [Hin|Hin];
          [exact (U1 Hin)|].
        rewrite (U2 Hin). apply list_lookup_insert_eq. exact Hv.
      + intros Hj. apply not_elem_of_cons in Hj as [Hne Hj].
        rewrite (U2 Hj). apply list_lookup_insert_ne. congruence.
  Qed.

Lemma stop_writes_fail value off vials :
    Exists (fun v => (length value <= v + off)%nat) vials ->
    stop_writes value off vials = inl IndexError.
  Proof.
    revert value. induction vials as [|v vs IH]; intros value H; [inversion H|].
    simpl. unfold Py.setitem. apply Exists_cons in H as [H|H].
    - rewrite decide_False by lia. reflexivity.
    - destruct (decide _); [|reflexivity]. apply IH. rewrite length_insert. exact H.
  Qed.

Lemma stop_fold_ok n vials fls value :
    Forall (fun t => (t < length value)%nat) (stop_targets n vials fls) ->
    exists value', foldl (stop_step n vials) (inr value) fls = inr value'
      /\ length value' = length value
      /\ (forall j, (j ∈ stop_targets n vials fls -> value' !! j = Some (PStr "0"))
                 /\ (j ∉ stop_targets n vials fls -> value' !! j = value !! j)).
  Proof.
    revert value. induction fls as [|fl fls IH]; intros value H.
    - exists value. split; [reflexivity|]. split; [reflexivity|].
      intros j. split; [intros Hj; inversion Hj|reflexivity].
    - unfold stop_targets in H. simpl in H. apply Forall_app in H as [H1 H2].
      simpl. destruct fl as [k b]. destruct b; simpl.
      + assert (Hw : Forall (fun v => (v + k * n < length value)%nat) vials).
        { apply Forall_forall. intros v Hv. rewrite Forall_forall in H1.
          apply H1. apply (elem_of_map_2 (fun v => (v + k * n)%nat)). exact Hv. }
        destruct (stop_writes_ok value (k * n) vials Hw) as [v1 [E1 [L1 U1]]].
        rewrite E1. rewrite <- L1 in H2.
        destruct (IH v1 H2) as [v2 [E2 [L2 U2]]]. exists v2.
        split; [exact E2|]. split; [congruence|].
        intros j. destruct (U1 j) as [U1a U1b]. destruct (U2 j) as [U2a U2b].
        unfold stop_targets. simpl. split.
        * intros Hj. apply elem_of_app in Hj as [Hj|Hj]; [|exact (U2a Hj)].
          destruct (decide (j ∈ stop_targets n vials fls)) as [Hin|Hin]; [exact (U2a Hin)|].
          rewrite (U2b Hin). exact (U1a Hj).
        * intros Hj. apply not_elem_of_app in Hj as [Hj1 Hj2].
          rewrite (U2b Hj2). exact (U1b Hj1).
      + destruct (IH value H2) as [v2 [E2 [L2 U2]]]. exists v2.
        split; [exact E2|]. split; [exact L2|]. exact U2.
  Qed.

Lemma stop_fold_fail n vials fls value :
    Exists (fun t => (length value <= t)%nat) (stop_targets n vials fls) ->
    foldl (stop_step n vials) (inr value) fls = inl IndexError.
  Proof.
    revert value. induction fls as [|fl fls IH]; intros value H; [inversion H|].
    unfold stop_targets in H. simpl in H. apply Exists_app in H. simpl.
    destruct fl as [k b]. destruct b; simpl in *.
    - destruct (decide (Forall (fun v => (v + k * n < length value)%nat) vials)) as [Hw|Hw].
      + destruct (stop_writes_ok value (k * n) vials Hw) as [v1 [E1 [L1 _]]].
        rewrite E1. destruct H as [H|H].
        * exfalso. apply Exists_exists in H as [t [Ht Hle]].
          apply elem_of_map_1 in Ht as [v [-> Hv]].
          rewrite Forall_forall in Hw. specialize (Hw v Hv). lia.
        * apply IH. rewrite L1. exact H.
      + rewrite stop_writes_fail; [apply stop_fold_inl|].
        apply not_Forall_Exists in Hw; [|apply _].
        eapply Exists_impl; [exact Hw|]. simpl. intros v Hv. lia.
    - destruct H as [H|H]; [inversion H|]. apply IH. exact H.
  Qed.
End PumpWriteProofs.

(** X4: [stop_pumps]. Let the targets be [v + k * num_vials_total] for each
    vial [v] and each pump set [k] (0 for in1, 1 for in2, 2 for out) whose
    flag is set. If every target is below 48, [stop_pumps] emits one
    "command" message whose 48-entry value holds "0" at the targets and "__"
    everywhere else (also when [vials] is empty); if some target is 48 or
    more it raises IndexError and emits nothing. *)
Theorem stop_pumps_positions (s : Controls.controls) (vials : list nat) (in1 in2 out : bool) :
  let ts := stop_targets (Controls.num_vials_total s) vials [(0, in1); (1, in2); (2, out)]%nat in
  (Forall (fun t => (t < 48)%nat) ts ->
   exists value,
     Controls.stop_pumps vials in1 in2 out s
       = Controls.Ok tt (Controls.push_emit "command"
           (PDict [("fields_expected_incoming", PInt 49); ("fields_expected_outgoing", PInt 49);
                   ("param", PStr "pump"); ("value", PList value);
                   ("recurring", PBool false); ("immediate", PBool true)]) s)
     /\ length value = 48%nat
     /\ (forall j, (j < 48)%nat ->
           value !! j = Some (if decide (j ∈ ts) then PStr "0" else PStr "__")))
  /\ (Exists (fun t => (48 <= t)%nat) ts ->
      Controls.stop_pumps vials in1 in2 out s = Controls.Raise IndexError s).
Proof.
  intros ts. split.
  - intros H. rewrite <- (length_replicate 48 (PStr "__")) in H.
    destruct (stop_fold_ok _ vials _ _ H) as [value [E [L U]]].
    exists value. unfold Controls.stop_pumps, Controls.bind, Controls.get.
    change (foldl _ (inr (replicate 48 (PStr "__"))) [(0, in1); (1, in2); (2, out)]%nat)
      with (foldl (stop_step (Controls.num_vials_total s) vials)
              (inr (replicate 48 (PStr "__"))) [(0, in1); (1, in2); (2, out)]%nat).
    rewrite E. split; [reflexivity|]. split; [rewrite L; apply length_replicate|].
    intros j Hj. destruct (U j) as [U1 U2]. fold ts in U1, U2.
    destruct (decide (j ∈ ts)) as [Hin|Hin]; [exact (U1 Hin)|].
    rewrite (U2 Hin). apply lookup_replicate_lt. exact Hj.
  - intros H. rewrite <- (length_replicate 48 (PStr "__")) in H.
    unfold Controls.stop_pumps, Controls.bind, Controls.get.
    change (foldl _ (inr (replicate 48 (PStr "__"))) [(0, in1); (1, in2); (2, out)]%nat)
      with (foldl (stop_step (Controls.num_vials_total s) vials)
              (inr (replicate 48 (PStr "__"))) [(0, in1); (1, in2); (2, out)]%nat).
    rewrite (stop_fold_fail _ _ _ _ H). reflexivity.
Qed.

Lemma stop_pumps_positions_witness :
  exists value,
    Controls.stop_pumps [2%nat] true false true (Controls.init 16)
      = Controls.Ok tt (Controls.push_emit "command"
          (PDict [("fields_expected_incoming", PInt 49); ("fields_expected_outgoing", PInt 49);
                  ("param", PStr "pump"); ("value", PList value);
                  ("recurring", PBool false); ("immediate", PBool true)]) (Controls.init 16))
    /\ value !! 2%nat = Some (PStr "0") /\ value !! 34%nat = Some (PStr "0")
    /\ value !! 18%nat = Some (PStr "__").
Proof.
  destruct (stop_pumps_positions (Controls.init 16) [2%nat] true false true) as [H _].
  destruct H as [value [E [_ U]]].
  { repeat constructor; vm_compute; lia. }
  exists value. split; [exact E|].
  rewrite (U 2%nat), (U 34%nat), (U 18%nat) by lia.
  split; [|split]; f_equal; vm_compute; reflexivity.
Defined.

Section FluidCommandProofs.
  Import Controls.

Lemma elem_of_zip_fst {A B} (l1 : list A) (l2 : list B) a b : (a, b) ∈ zip l1 l2 -> a ∈ l1.
  Proof.
    revert l2. induction l1 as [|x l1 IH]; intros [|y l2] H; simpl in H;
      try (inversion H; fail).
    apply elem_of_cons in H as [H|H].
    - inversion H; subst. left.
    - right. exact (IH _ H).
  Qed.

Lemma write_tokens_length value off vials vals :
    Forall (fun v => (v + off < length value)%nat) vials ->
    exists value', write_tokens value off vials vals = inr value'
      /\ length value' = length value.
  Proof.
    revert value vals. induction vials as [|v vs IH]; intros value vals H;
      [exists value; destruct vals; split; reflexivity|].
    destruct vals as [|x xs]; [exists value; split; reflexivity|].
    apply Forall_cons in H as [Hv H].
    destruct (match x with PNone => true | _ => false end) eqn:Hx.
    { destruct x; try discriminate Hx. exact (IH value xs H). }
    assert (Step : write_tokens value off (v :: vs) (x :: xs)
                   = write_tokens (<[(v + off)%nat:=x]> value) off vs xs).
    { destruct x; try discriminate Hx; simpl; unfold Py.setitem;
        rewrite decide_True by exact Hv; reflexivity. }
    rewrite Step. rewrite <- (length_insert value (v + off) x) in H.
    destruct (IH _ xs H) as [value' [E L]]. exists value'. split; [exact E|].
    rewrite L. apply length_insert.
  Qed.

Lemma write_tokens_ok value off vials ps :
    Forall (fun v => (v + off < length value)%nat) vials ->
    Forall (fun x => is_str x = true) ps ->
    exists value', write_tokens value off vials ps = inr value'
      /\ length value' = length value
      /\ (forall l1 l2 v x, zip vials ps = l1 ++ (v, x) :: l2 -> v ∉ l2.*1 ->
            value' !! (v + off)%nat = Some x)
      /\ (forall j, (forall v x, (v, x) ∈ zip vials ps -> j <> (v + off)%nat) ->
            value' !! j = value !! j).
  Proof.
    revert value ps. induction vials as [|v vs IH]; intros value ps H Hs.
    - exists value. split; [destruct ps; reflexivity|]. split; [reflexivity|].
      split; [intros l1 l2 v x E; destruct l1; discriminate|reflexivity].
    - destruct ps as [|x xs].
      + exists value. split; [reflexivity|]. split; [reflexivity|].
        split; [intros l1 l2 v' x' E; destruct l1; discriminate|reflexivity].
      + apply Forall_cons in H as [Hv H]. apply Forall_cons in Hs as [Hx Hs].
        rewrite <- (length_insert value (v + off) x) in H.
        destruct (IH _ xs H Hs) as [value' [E [L [W U]]]].
        rewrite length_insert in L.
        assert (Step : write_tokens value off (v :: vs) (x :: xs)
                       = write_tokens (<[(v + off)%nat:=x]> value) off vs xs).
        { destruct x; try discriminate Hx; simpl; unfold Py.setitem;
            rewrite decide_True by exact Hv; reflexivity. }
        exists value'. rewrite Step. split; [exact E|]. split; [exact L|]. split.
        * intros l1 l2 v' x' Ez Hn. destruct l1 as [|p l1].
          -- simpl in Ez. inversion Ez; subst. rewrite U.
             ++ apply list_lookup_insert_eq. exact Hv.
             ++ intros v'' x'' Hin Heq. apply Hn.
                apply (list_elem_of_fmap_2' _ _ (v'', x'')); [exact Hin|]. simpl. lia.
          -- simpl in Ez. inversion Ez; subst. eapply W; eauto.
        * intros j Hj. rewrite U.
          -- apply list_lookup_insert_ne. intros Heq. apply (Hj v x); [left|lia].
          -- intros v' x' Hin. apply (Hj v' x'). right. exact Hin.
  Qed.

Lemma fill_sets_ok n idx vials sets value :
    length value = (3 * n)%nat -> Forall (fun v => (v < n)%nat) vials ->
    (idx + length sets <= 3)%nat ->
    (forall ps, Some ps ∈ sets -> Forall (fun x => is_str x = true) ps) ->
    exists value', fill_sets n idx vials sets value = inr value'
      /\ length value' = length value
      /\ (forall i ps l1 l2 v x, sets !! i = Some (Some ps) ->
            zip vials ps = l1 ++ (v, x) :: l2 -> v ∉ l2.*1 ->
            value' !! (v + (idx + i) * n)%nat = Some x)
      /\ (forall j, (forall i ps v x, sets !! i = Some (Some ps) -> (v, x) ∈ zip vials ps ->
                       j <> (v + (idx + i) * n)%nat) ->
            value' !! j = value !! j).
  Proof.
    revert idx value. induction sets as [|o rest IH]; intros idx value Hl Hv Hi Hs.
    - exists value. split; [reflexivity|]. split; [reflexivity|].
      split; [intros i ps l1 l2 v x Hi'; inversion Hi'|reflexivity].
    - simpl in Hi. destruct o as [ps|].
      + assert (Hps : Forall (fun x => is_str x = true) ps) by (apply Hs; left).
        assert (Hw : Forall (fun v => (v + idx * n < length value)%nat) vials).
        { rewrite Hl. eapply Forall_impl; [exact Hv|]. simpl. intros v Hv'. nia. }
        destruct (write_tokens_ok value (idx * n) vials ps Hw Hps) as [v1 [E1 [L1 [W1 U1]]]].
        destruct (IH (S idx) v1 ltac:(lia) Hv ltac:(lia)) as [v2 [E2 [L2 [W2 U2]]]].
        { intros ps' Hps'. apply Hs. right. exact Hps'. }
        exists v2. simpl. rewrite E1.
        assert (Hf : forallb is_str ps = true).
        { apply forallb_forall. intros x Hx. rewrite Forall_forall in Hps.
          apply Hps. apply list_elem_of_In. exact Hx. }
        rewrite Hf. split; [exact E2|]. split; [congruence|]. split.
        * intros [|i] ps' l1 l2 v x Hi' Ez Hn.
          -- simpl in Hi'. inversion Hi'; subst ps'.
             assert (Hvn : (v < n)%nat).
             { rewrite Forall_forall in Hv. apply Hv. apply (elem_of_zip_fst vials ps v x).
               rewrite Ez. apply elem_of_app. right. left. }
             rewrite U2.
             ++ rewrite Nat.add_0_r. exact (W1 l1 l2 v x Ez Hn).
             ++ intros i' ps'' v' x' Hi'' Hin Heq.
                assert (Hv'n : (v' < n)%nat).
                { rewrite Forall_forall in Hv. apply Hv. exact (elem_of_zip_fst _ _ _ _ Hin). }
                nia.
          -- simpl in Hi'. rewrite <- Nat.add_succ_comm. exact (W2 i ps' l1 l2 v x Hi' Ez Hn).
        * intros j Hj. rewrite U2.
          -- apply U1. intros v x Hin. specialize (Hj 0%nat ps v x eq_refl Hin).
             rewrite Nat.add_0_r in Hj. exact Hj.
          -- intros i ps' v x Hi' Hin. rewrite Nat.add_succ_comm.
             exact (Hj (S i) ps' v x Hi' Hin).
      + destruct (IH (S idx) value Hl Hv ltac:(lia)) as [v2 [E2 [L2 [W2 U2]]]].
        { intros ps' Hps'. apply Hs. right. exact Hps'. }
        exists v2. simpl. split; [exact E2|]. split; [exact L2|]. split.
        * intros [|i] ps' l1 l2 v x Hi' Ez Hn; [discriminate Hi'|].
          simpl in Hi'. rewrite <- Nat.add_succ_comm. exact (W2 i ps' l1 l2 v x Hi' Ez Hn).
        * intros j Hj. apply U2. intros i ps' v x Hi' Hin. rewrite Nat.add_succ_comm.
          exact (Hj (S i) ps' v x Hi' Hin).
  Qed.

Lemma fill_sets_type_error n idx vials sets value :
    length value = (3 * n)%nat -> Forall (fun v => (v < n)%nat) vials ->
    (idx + length sets <= 3)%nat ->
    (exists ps, Some ps ∈ sets /\ Exists (fun x => is_str x = false) ps) ->
    fill_sets n idx vials sets value = inl TypeError.
  Proof.
    revert idx value. induction sets as [|o rest IH]; intros idx value Hl Hv Hi [ps [Hin Hbad]].
    - inversion Hin.
    - simpl in Hi. destruct o as [ps'|].
      + assert (Hw : Forall (fun v => (v + idx * n < length value)%nat) vials).
        { rewrite Hl. eapply Forall_impl; [exact Hv|]. simpl. intros v Hv'. nia. }
        destruct (write_tokens_length value (idx * n) vials ps' Hw) as [v1 [E1 L1]].
        simpl. rewrite E1. destruct (forallb is_str ps') eqn:Hf; [|reflexivity].
        apply elem_of_cons in Hin as [Hin|Hin].
        * inversion Hin; subst ps'. exfalso.
          apply Exists_exists in Hbad as [x [Hx Hx']].
          rewrite forallb_forall in Hf. rewrite Hf in Hx'; [discriminate|].
          apply list_elem_of_In. exact Hx.
        * apply IH; [congruence|exact Hv|lia|]. exists ps. split; assumption.
      + apply elem_of_cons in Hin as [Hin|Hin]; [discriminate|].
        simpl. apply IH; [exact Hl|exact Hv|lia|]. exists ps. split; assumption.
  Qed.
End FluidCommandProofs.

(** X5: [fluid_command] joins every given pump set with [", ".join] after
    writing it, so when all vials are below [num_vials_total] and some given
    pump set holds a value that is not a string ([None] included, and also
    past the last paired vial), it raises TypeError, emits nothing and
    leaves the state unchanged. *)
Theorem fluid_command_non_string_raises (s : Controls.controls) (vials : list nat)
  (in1 in2 out : option (list pyval)) (recurring immediate : bool)
  (Hv : Forall (fun v => (v < Controls.num_vials_total s)%nat) vials)
  (Hbad : exists ps, Some ps ∈ [in1; in2; out] /\ Exists (fun x => Controls.is_str x = false) ps) :
  Controls.fluid_command vials in1 in2 out recurring immediate s = Controls.Raise TypeError s.
Proof.
  unfold Controls.fluid_command, Controls.bind, Controls.get.
  rewrite (fill_sets_type_error _ 0 vials [in1; in2; out] _); [reflexivity| |exact Hv|simpl; lia|exact Hbad].
  apply length_replicate.
Qed.

Lemma fluid_command_non_string_raises_witness :
  Forall (fun v => (v < 16)%nat) [0%nat]
  /\ Controls.fluid_command [0%nat] (Some [PStr "1"; PNone]) None None false true (Controls.init 16)
     = Controls.Raise TypeError (Controls.init 16).
Proof.
  assert (Hv : Forall (fun v => (v < 16)%nat) [0%nat]) by (repeat constructor; lia).
  split; [exact Hv|].
  apply (fluid_command_non_string_raises (Controls.init 16) [0%nat] _ None None false true Hv).
  exists [PStr "1"; PNone]. split; [left|]. apply Exists_cons. right. apply Exists_cons. left.
  reflexivity.
Defined.

(** X6: where [fluid_command] puts its tokens. When all vials are below
    [num_vials_total] ([n]) and every given pump set holds strings only,
    it emits one "command" message whose value has [3 * n] entries: the
    token of pump set [k] (0 for in1, 1 for in2, 2 for out) for vial [v] is
    at position [v + k * n], the last pairing of a vial winning, and every
    position no token reaches holds "--". *)
Theorem fluid_command_positions (s : Controls.controls) (vials : list nat)
  (in1 in2 out : option (list pyval)) (recurring immediate : bool)
  (Hv : Forall (fun v => (v < Controls.num_vials_total s)%nat) vials)
  (Hs : forall ps, Some ps ∈ [in1; in2; out] -> Forall (fun x => Controls.is_str x = true) ps) :
  exists value,
    Controls.fluid_command vials in1 in2 out recurring immediate s
      = Controls.Ok tt (Controls.push_emit "command"
                          (Controls.pump_message recurring immediate value) s)
    /\ length value = (3 * Controls.num_vials_total s)%nat
    /\ (forall k ps l1 l2 v x, [in1; in2; out] !! k = Some (Some ps) ->
          zip vials ps = l1 ++ (v, x) :: l2 -> v ∉ l2.*1 ->
          value !! (v + k * Controls.num_vials_total s)%nat = Some x)
    /\ (forall j, (j < 3 * Controls.num_vials_total s)%nat ->
          (forall k ps v x, [in1; in2; out] !! k = Some (Some ps) -> (v, x) ∈ zip vials ps ->
             j <> (v + k * Controls.num_vials_total s)%nat) ->
          value !! j = Some (PStr "--")).
Proof.
  destruct (fill_sets_ok (Controls.num_vials_total s) 0 vials [in1; in2; out]
              (replicate (3 * Controls.num_vials_total s) (PStr "--"))
              (length_replicate _ _) Hv ltac:(simpl; lia) Hs) as [value [E [L [W U]]]].
  exists value. unfold Controls.fluid_command, Controls.bind, Controls.get. rewrite E.
  split; [reflexivity|]. split; [rewrite L; apply length_replicate|]. split.
  - intros k ps l1 l2 v x Hk Ez Hn. exact (W k ps l1 l2 v x Hk Ez Hn).
  - intros j Hj Hn. rewrite U by exact Hn. apply lookup_replicate_lt. exact Hj.
Qed.

Lemma fluid_command_positions_witness :
  Forall (fun v => (v < 16)%nat) [0; 5; 0]%nat
  /\ exists value,
    Controls.fluid_command [0; 5; 0]%nat (Some [PStr "a"; PStr "b"; PStr "c"]) None
      (Some [PStr "o"]) false true (Controls.init 16)
      = Controls.Ok tt (Controls.push_emit "command" (Controls.pump_message false true value)
                          (Controls.init 16))
    /\ value !! 0%nat = Some (PStr "c") /\ value !! 5%nat = Some (PStr "b")
    /\ value !! 32%nat = Some (PStr "o") /\ value !! 16%nat = Some (PStr "--").
Proof.
  assert (Hv : Forall (fun v => (v < 16)%nat) [0; 5; 0]%nat) by (repeat constructor; lia).
  split; [exact Hv|].
  destruct (fluid_command_positions (Controls.init 16) [0; 5; 0]%nat
              (Some [PStr "a"; PStr "b"; PStr "c"]) None (Some [PStr "o"]) false true Hv)
    as [value [E [_ [W U]]]].
  { intros ps Hps. apply elem_of_cons in Hps as [Hps|Hps];
      [inversion Hps; subst; repeat constructor|].
    apply elem_of_cons in Hps as [Hps|Hps]; [discriminate|].
    apply elem_of_cons in Hps as [Hps|Hps]; [inversion Hps; subst; repeat constructor|].
    inversion Hps. }
  exists value. split; [exact E|].
  split; [exact (W 0%nat _ [(0, PStr "a"); (5, PStr "b")]%nat [] 0%nat (PStr "c")
                   eq_refl eq_refl ltac:(simpl; set_solver))|].
  split; [exact (W 0%nat _ [(0, PStr "a")]%nat [(0, PStr "c")]%nat 5%nat (PStr "b")
                   eq_refl eq_refl ltac:(simpl; set_solver))|].
  split; [exact (W 2%nat _ [] [] 0%nat (PStr "o") eq_refl eq_refl ltac:(simpl; set_solver))|].
  apply U; [vm_compute; lia|].
  intros k ps v x Hk Hin. destruct k as [|[|[|k]]]; simpl in Hk; inversion Hk; subst ps.
  - simpl in Hin. apply elem_of_cons in Hin as [Hin|Hin]; [inversion Hin; subst; simpl; lia|].
    apply elem_of_cons in Hin as [Hin|Hin]; [inversion Hin; subst; simpl; lia|].
    apply elem_of_cons in Hin as [Hin|Hin]; [inversion Hin; subst; simpl; lia|].
    inversion Hin.
  - simpl in Hin. apply elem_of_cons in Hin as [Hin|Hin]; [inversion Hin; subst; simpl; lia|].
    inversion Hin.
Defined.

(** ** EvolverControls.dilute_repeat (evolver_controls.py, l. 347-427) *)
Module Repeat.
Import Controls Config Adjust.

Section Body.
    (** [f"{volume}|{period}"], Python's text for a float pair *)
Variable fmt_command : Q -> Q -> string.
    (** [round(x, self.FLOAT_RESOLUTION)] *)
Variable round2 : Q -> Q.
    (** [round(volume / fit.get_val(0), self.FLOAT_RESOLUTION)], the pump
        seconds numpy computes from a volume and a pump fit *)
Variable pump_seconds : Q -> Q -> Q.

    (** Python's [/] on floats *)
Definition py_div (a b : Q) : py_exn + Q :=
      if Qeq_bool b 0 then inl ZeroDivisionError else inr (a / b).
Definition py_sum (l : list Q) : Q := fold_left Qplus l 0.
Definition nth_q (l : list Q) (i : nat) : py_exn + Q :=
      match l !! i with Some x => inr x | None => inl IndexError end.

    (** [pump_settings] and the three command lists the loop fills. *)
Record repeat_acc := mkRA {
      settings : gmap nat (Q * Q * Q * Q);
      in1_cmd : list string;
      in2_cmd : list string;
      out_cmd : list string
    }.

    (** One iteration of the loop; a fit is given by the values its three
        pump fits take at 0. *)
Definition repeat_step (vial : nat) (ratio : list Q) (bolus : Q) (fit : Q * Q * Q)
        (rate volume : Q) (a : repeat_acc) : py_exn + repeat_acc :=
      if Qle_bool rate 0 then inr a else
      match adjust_bolus_rate bolus rate volume with
      | inl e => inl e
      | inr (_, bolus', rate') =>
          match py_div (SECS_PER_UNIT_TIME * bolus') (rate' * volume) with
          | inl e => inl e
          | inr period0 =>
              let period := round2 period0 in
              match nth_q ratio 0 with
              | inl e => inl e
              | inr r0 =>
                  match py_div r0 (py_sum ratio) with
                  | inl e => inl e
                  | inr in1_frac =>
                      match nth_q ratio 1 with
                      | inl e => inl e
                      | inr r1 =>
                          match py_div r1 (py_sum ratio) with
                          | inl e => inl e
                          | inr in2_frac =>
                              let '(f1, f2, f3) := fit in
                              let secs := (pump_seconds (in1_frac * bolus') f1,
                                           pump_seconds (in2_frac * bolus') f2,
                                           pump_seconds (bolus' + OUTFLOW_EXTRA) f3, period) in
                              inr (mkRA (<[vial := secs]> a.(settings))
                                        (a.(in1_cmd) ++ [fmt_command (in1_frac * bolus') period])
                                        (a.(in2_cmd) ++ [fmt_command (in2_frac * bolus') period])
                                        (a.(out_cmd) ++ [fmt_command (bolus' + OUTFLOW_EXTRA) period]))
                          end
                      end
                  end
              end
          end
      end.

    (** The loop over [zip(vials, ratios, bolus_volumes, fits, rates, total_volumes)]. *)
Fixpoint repeat_loop (vials : list nat) (ratios : list (list Q)) (boluses : list Q)
        (fits : list (Q * Q * Q)) (rates volumes : list Q) (a : repeat_acc)
        : py_exn + repeat_acc :=
      match vials, ratios, boluses, fits, rates, volumes with
      | v :: vs, r :: rs, b :: bs, f :: fs, rt :: rts, vol :: vols =>
          match repeat_step v r b f rt vol a with
          | inl e => inl e
          | inr a' => repeat_loop vs rs bs fs rts vols a'
          end
      | _, _, _, _, _, _ => inr a
      end.

    (** [for vial, value in zip(vials, vals): self._recurrent_commands[pump][vial] = value] *)
Fixpoint store_row (pump : string) (vials : list nat) (vals : list string) : M unit :=
      match vials, vals with
      | v :: vs, x :: xs =>
          let! s := get in
          let! row := lift (match s.(recurrent_commands) !! pump with
                            | Some r => inr r | None => inl KeyError end) in
          let! row' := lift (Py.setitem row v (PStr x)) in
          let! _ := put (set_recurrent_commands (<[pump := row']> s.(recurrent_commands)) s) in
          store_row pump vs xs
      | _, _ => ret tt
      end.

    (** [dilute_repeat]: returns [pump_settings]. *)
Definition dilute_repeat (vials : list nat) (ratios : list (list Q)) (bolus_volumes : list Q)
        (rates : list Q) (fits : list (Q * Q * Q)) (total_volumes : list Q)
        : M (gmap nat (Q * Q * Q * Q)) :=
      let! a := lift (repeat_loop vials ratios bolus_volumes fits rates total_volumes
                                  (mkRA ∅ [] [] [])) in
      let! s := get in
      let! _ := if s.(locked) then
                  let! _ := store_row "IN1" vials a.(in1_cmd) in
                  let! _ := store_row "IN2" vials a.(in2_cmd) in
                  store_row "OUT" vials a.(out_cmd)
                else fluid_command vials (Some (map PStr a.(in1_cmd)))
                       (Some (map PStr a.(in2_cmd))) (Some (map PStr a.(out_cmd))) true false in
      ret a.(settings).
End Body.
End Repeat.

(** X7: [dilute_repeat] skips a vial whose rate is at most 0 but still passes
    the full vial list to [fluid_command], so the commands shift onto the
    wrong vials. With vials [a; b] (distinct, below [n = num_vials_total]),
    a rate [<= 0] for [a] and an accepted positive rate for [b], the unlocked
    controls emit one recurring message in which [a]'s in1, in2 and out
    positions ([a], [a + n], [a + 2n]) carry [b]'s commands and [b]'s
    positions stay "--", while the returned settings have an entry for [b]
    only. *)
Theorem dilute_repeat_shifts_commands (fmt : Q -> Q -> string) (round2 : Q -> Q)
  (secs : Q -> Q -> Q) (s : Controls.controls) (a b : nat) (ra rb ba bb Va Vb : Q)
  (ratio_a : list Q) (r0 r1 : Q) (fa fb : Q * Q * Q) (adj : bool) (bol rate : Q)
  (Hl : Controls.locked s = false)
  (Ha : (a < Controls.num_vials_total s)%nat) (Hb : (b < Controls.num_vials_total s)%nat)
  (Hab : a <> b) (Hra : ra <= 0) (Hrb : 0 < rb)
  (Hadj : Adjust.adjust_bolus_rate bb rb Vb = inr (adj, bol, rate))
  (Hrv : ~ rate * Vb == 0) (Hsum : ~ Repeat.py_sum [r0; r1] == 0) :
  let n := Controls.num_vials_total s in
  let p := round2 (Adjust.implied_period bol rate Vb) in
  exists settings value,
    Repeat.dilute_repeat fmt round2 secs [a; b] [ratio_a; [r0; r1]] [ba; bb] [ra; rb]
      [fa; fb] [Va; Vb] s
      = Controls.Ok settings (Controls.push_emit "command"
                                (Controls.pump_message true false value) s)
    /\ settings !! a = None
    /\ (exists x1 x2 x3, settings !! b = Some (x1, x2, x3, p))
    /\ value !! a = Some (PStr (fmt (r0 / Repeat.py_sum [r0; r1] * bol) p))
    /\ value !! (a + n)%nat = Some (PStr (fmt (r1 / Repeat.py_sum [r0; r1] * bol) p))
    /\ value !! (a + 2 * n)%nat = Some (PStr (fmt (bol + Config.OUTFLOW_EXTRA) p))
    /\ value !! b = Some (PStr "--")
    /\ value !! (b + n)%nat = Some (PStr "--")
    /\ value !! (b + 2 * n)%nat = Some (PStr "--").
Proof.
  intros n p.
  assert (Han : (a < n)%nat) by exact Ha. assert (Hbn : (b < n)%nat) by exact Hb.

  assert (Hra' : Qle_bool ra 0 = true) by (apply Qle_bool_iff; exact Hra).
  assert (Hrb' : Qle_bool rb 0 = false).
  { destruct (Qle_bool rb 0) eqn:E; [|reflexivity]. apply Qle_bool_iff in E. lra. }
  assert (Hrv' : Qeq_bool (rate * Vb) 0 = false).
  { destruct (Qeq_bool (rate * Vb) 0) eqn:E; [|reflexivity]. apply Qeq_bool_iff in E. tauto. }
  assert (Hsum' : Qeq_bool (Repeat.py_sum [r0; r1]) 0 = false).
  { destruct (Qeq_bool (Repeat.py_sum [r0; r1]) 0) eqn:E; [|reflexivity].
    apply Qeq_bool_iff in E. tauto. }
  destruct fb as [[f1 f2] f3].
  set (c1 := fmt (r0 / Repeat.py_sum [r0; r1] * bol) p).
  set (c2 := fmt (r1 / Repeat.py_sum [r0; r1] * bol) p).
  set (c3 := fmt (bol + Config.OUTFLOW_EXTRA) p).
  destruct (fill_sets_ok n 0 [a; b] [Some [PStr c1]; Some [PStr c2]; Some [PStr c3]]
              (replicate (3 * n) (PStr "--")) (length_replicate _ _)
              ltac:(repeat constructor; assumption) ltac:(simpl; lia))
    as [value [E [L [W U]]]].
  { intros ps Hps. repeat (apply elem_of_cons in Hps as [Hps|Hps];
      [inversion Hps; subst; repeat constructor|]). inversion Hps. }
  eexists. exists value. split.
  - unfold Repeat.dilute_repeat, Controls.bind, Controls.get, Controls.lift.
    simpl. unfold Repeat.repeat_step. rewrite Hra', Hrb', Hadj.
    unfold Repeat.py_div. rewrite Hrv'. simpl.
    change (fold_left Qplus [r0; r1] 0) with (Repeat.py_sum [r0; r1]). rewrite Hsum'.
    simpl. rewrite Hl. unfold Controls.fluid_command, Controls.bind, Controls.get.
    fold n. simpl map. unfold Adjust.implied_period in p. fold p. fold c1 c2 c3.
    rewrite E. reflexivity.
  - split; [rewrite lookup_insert_ne; [apply lookup_empty|congruence]|].
    split; [eexists _, _, _; apply lookup_insert_eq|].
    assert (Wk : forall k c, [Some [PStr c1]; Some [PStr c2]; Some [PStr c3]] !! k = Some (Some [PStr c]) ->
                   value !! (a + k * n)%nat = Some (PStr c)).
    { intros k c Hk.
      pose proof (W k [PStr c] [] [] a (PStr c) Hk eq_refl ltac:(simpl; set_solver)) as H.
      rewrite Nat.add_0_l in H. exact H. }
    assert (Ub : forall k, (k < 3)%nat -> value !! (b + k * n)%nat = Some (PStr "--")).
    { intros k Hk. rewrite U.
      - apply lookup_replicate_lt. nia.
      - intros i ps v x Hi Hin.
        destruct i as [|[|[|i]]]; simpl in Hi; inversion Hi; subst ps;
          simpl in Hin; apply elem_of_cons in Hin as [Hin|Hin]; try (inversion Hin; fail);
          inversion Hin; subst; destruct k as [|[|[|k]]]; lia. }
    pose proof (Wk 0%nat c1 eq_refl) as H0. pose proof (Wk 1%nat c2 eq_refl) as H1.
    pose proof (Wk 2%nat c3 eq_refl) as H2.
    pose proof (Ub 0%nat ltac:(lia)) as U0. pose proof (Ub 1%nat ltac:(lia)) as U1.
    pose proof (Ub 2%nat ltac:(lia)) as U2.
    replace (a + 0 * n)%nat with a in H0 by lia. replace (a + 1 * n)%nat with (a + n)%nat in H1 by lia.
    replace (b + 0 * n)%nat with b in U0 by lia. replace (b + 1 * n)%nat with (b + n)%nat in U1 by lia.
    repeat split; assumption.
Qed.

Lemma dilute_repeat_shifts_commands_witness :
  Adjust.adjust_bolus_rate 1 1 20 = inr (false, 1, 1)
  /\ exists settings value,
    Repeat.dilute_repeat (fun _ _ => "1|3600") (fun q => q) (fun v _ => v)
      [0%nat; 1%nat] [[1; 1]; [1; 1]] [1; 1] [0; 1] [(1, 1, 1); (1, 1, 1)] [20; 20]
      (Controls.init 16)
      = Controls.Ok settings (Controls.push_emit "command"
                                (Controls.pump_message true false value) (Controls.init 16))
    /\ settings !! 0%nat = None
    /\ value !! 0%nat = Some (PStr "1|3600")
    /\ value !! 1%nat = Some (PStr "--").
Proof.
  assert (Hadj : Adjust.adjust_bolus_rate 1 1 20 = inr (false, 1, 1)) by (vm_compute; reflexivity).
  split; [exact Hadj|].
  destruct (dilute_repeat_shifts_commands (fun _ _ => "1|3600") (fun q => q) (fun v _ => v)
              (Controls.init 16) 0%nat 1%nat 0 1 1 1 20 20 [1; 1] 1 1 (1, 1, 1) (1, 1, 1)
              false 1 1 eq_refl ltac:(vm_compute; lia) ltac:(vm_compute; lia) ltac:(lia)
              ltac:(vm_compute; discriminate) ltac:(vm_compute; reflexivity) Hadj
              ltac:(vm_compute; discriminate) ltac:(vm_compute; discriminate))
    as [settings [value [E [Ha [_ [V0 [_ [_ [V1 _]]]]]]]]].
  exists settings, value. split; [exact E|]. split; [exact Ha|]. split; [exact V0|].
  exact V1.
Defined.

(** ** The settings checks: ReactorSettings.__post_init__ (bioreactor.py,
    l. 56-85) and ChemostatSettings.__post_init__ (chemostat.py, l. 19-42).
    [None] is a normal return, [Some msg] is [raise ValueError(msg)]. *)
Module SettingsCheck.

  (** [", ".join(l)] *)
Definition join (sep : string) (l : list string) : string :=
    match l with
    | [] => ""
    | x :: r => fold_left (fun acc y => acc +:+ sep +:+ y) r x
    end.

  (** The shared shape of both checks: every named length is compared with
      [len(vials)] in order, the names that differ are collected. *)
Definition mismatch_check (n : nat) (named : list (string * nat)) : option string :=
    let wrong := map fst (List.filter (fun p => negb (Nat.eqb n p.2)) named) in
    match wrong with
    | [] => None
    | _ => Some ("Number of vials do not match number of elements in " +:+ join ", " wrong)
    end.

Definition reactor_post_init (volumes : list Q) (vials : list Z) (temp : list Q)
    (stir power : list Z) (start_delay durations : list Q) : option string :=
    mismatch_check (length vials)
      [("start_delay", length start_delay); ("duration", length durations);
       ("stir", length stir); ("power", length power); ("temp", length temp);
       ("volume", length volumes)].

Definition chemostat_post_init (vials : list Z) (start_od bolus rates : list Q)
    (pump_ratios : list (Q * Q)) : option string :=
    mismatch_check (length vials)
      [("start_od", length start_od); ("bolus volumes", length bolus);
       ("dilution rates", length rates); ("pump_ratios", length pump_ratios)].
End SettingsCheck.

Section SettingsCheckProofs.
Lemma mismatch_check_none (n : nat) (named : list (string * nat)) :
  SettingsCheck.mismatch_check n named = None <-> Forall (fun p => p.2 = n) named.
Proof.
  unfold SettingsCheck.mismatch_check.
  assert (Hf : List.filter (fun p : string * nat => negb (Nat.eqb n p.2)) named = []
               <-> Forall (fun p => p.2 = n) named).
  { induction named as [|[x k] r IH]; simpl.
    - split; [constructor|reflexivity].
    - rewrite Forall_cons. simpl. destruct (Nat.eqb n k) eqn:E; simpl.
      + apply Nat.eqb_eq in E. rewrite IH. split; [intros H; split; [lia|exact H]|tauto].
      + apply Nat.eqb_neq in E. split; [discriminate|intros [H _]; lia]. }
  rewrite <- Hf.
  destruct (List.filter (fun p : string * nat => negb (Nat.eqb n p.2)) named); simpl.
  - split; reflexivity.
  - split; discriminate.
Qed.
End SettingsCheckProofs.

(** X8: the settings checks accept exactly when every per-vial tuple has one
    entry per vial: [ReactorSettings.__post_init__] raises no error iff
    start_delay, durations, stir, power, temp and volumes all have
    [len(vials)] entries, and [ChemostatSettings.__post_init__] iff
    start_od, bolus, rates and pump_ratios do. *)
Theorem settings_checks_accept_iff_lengths_match
  (volumes : list Q) (vials : list Z) (temp : list Q) (stir power : list Z)
  (start_delay durations start_od bolus rates : list Q) (pump_ratios : list (Q * Q)) :
  (SettingsCheck.reactor_post_init volumes vials temp stir power start_delay durations = None
   <-> length start_delay = length vials /\ length durations = length vials
       /\ length stir = length vials /\ length power = length vials
       /\ length temp = length vials /\ length volumes = length vials)
  /\ (SettingsCheck.chemostat_post_init vials start_od bolus rates pump_ratios = None
   <-> length start_od = length vials /\ length bolus = length vials
       /\ length rates = length vials /\ length pump_ratios = length vials).
Proof.
  unfold SettingsCheck.reactor_post_init, SettingsCheck.chemostat_post_init.
  rewrite !mismatch_check_none, !Forall_cons. simpl.
  split; split.
  - intros (H1 & H2 & H3 & H4 & H5 & H6 & _). tauto.
  - intros (H1 & H2 & H3 & H4 & H5 & H6). repeat split; auto.
  - intros (H1 & H2 & H3 & H4 & _). tauto.
  - intros (H1 & H2 & H3 & H4). repeat split; auto.
Qed.

(** ** Chemostat.check_pump_settings (chemostat.py, l. 92-126) and
    Chemostat.update (l. 128-204) *)
Module Chemostat.
Import Fl Turbidostat.

Record chemo_settings := mkCS {
    cs_start_od : list Q;
    cs_bolus : list Q;
    cs_rates : list Q;
    cs_pump_ratios : list (Q * Q)
  }.

  (** [self.volume]: [Bioreactor] defines the property [volumes] only, so
      the lookup on a [Chemostat] raises AttributeError. *)
Definition chemostat_volume : py_exn + Q := inl AttributeError.

  (** The loop over [zip(self.vials, bolus_volumes, dilutions_per_unit_time)]:
      the flag [adjusted] and the lists [new_boluses], [new_rates]. *)
Fixpoint check_loop (vials : list Z) (boluses rates : list Q)
    : py_exn + (bool * list Q * list Q) :=
    match vials, boluses, rates with
    | _ :: vs, b :: bs, r :: rs =>
        let step := if Qle_bool r 0 then inr (true, 0, 0) else
                    match chemostat_volume with
                    | inl e => inl e
                    | inr vol => Adjust.adjust_bolus_rate b r vol
                    end in
        match step with
        | inl e => inl e
        | inr (adj, b', r') =>
            match check_loop vs bs rs with
            | inl e => inl e
            | inr (adjd, nbs, nrs) => inr (adj || adjd, b' :: nbs, r' :: nrs)
            end
        end
    | _, _, _ => inr (false, [], [])
    end.

Definition check_pump_settings (vials : list Z) (cs : chemo_settings)
    : py_exn + chemo_settings :=
    match check_loop vials cs.(cs_bolus) cs.(cs_rates) with
    | inl e => inl e
    | inr (adjusted, nbs, nrs) =>
        inr (if adjusted then mkCS cs.(cs_start_od) nbs nrs cs.(cs_pump_ratios) else cs)
    end.

  (** The message [update] returns: its time is a float (NaN at first). *)
Record chemo_msg := mkCM {
    cm_time : fl; cm_record : option (list pyval); cm_vials : list Z;
    cm_od : list fl; cm_temp : list fl
  }.

  (** [Chemostat.update] up to [sum(self._awaiting_update.values)]: the
      message is built after [pre_update] from the updated histories; the
      sum is taken over the bound method [values], not its result, and
      raises TypeError. *)
Definition update (cfg : tconfig) (st : tstate) (curr : Q) (ods temps : list fl)
    : py_exn + (tstate * list event * chemo_msg) :=
    match pre_update cfg st curr ods temps with
    | inl e => inl e
    | inr (st1, recs, evs) =>
        let vs := map tv_vial cfg.(tc_vials) in
        match last_readings st1.(od_history) vs with
        | inl e => inl e
        | inr odr =>
            match last_readings st1.(temp_history) vs with
            | inl e => inl e
            | inr tr =>
                let msg := mkCM NaN None vs odr tr in
                match recs with
                | None => inr (st1, evs, msg)
                | Some _ => inl TypeError
                end
            end
        end
    end.
End Chemostat.

Section ChemostatProofs.
Lemma check_loop_spec (vials : list Z) (bs rs : list Q) :
  let k := Nat.min (length vials) (Nat.min (length bs) (length rs)) in
  (Exists (fun r => 0 < r) (take k rs) -> Chemostat.check_loop vials bs rs = inl AttributeError)
  /\ (Forall (fun r => r <= 0) (take k rs) ->
      Chemostat.check_loop vials bs rs = inr (negb (Nat.eqb k 0), replicate k 0, replicate k 0)).
Proof.
  revert bs rs. induction vials as [|v vs IH]; intros bs rs k.
  - split; [intros H; inversion H|reflexivity].
  - destruct bs as [|b bs]; [split; [intros H; simpl in k; subst k; simpl in H; inversion H|reflexivity]|].
    destruct rs as [|r rs].
    { subst k. simpl. rewrite ?Nat.min_0_r. simpl. split; [intros H; inversion H|reflexivity]. }
    subst k. simpl. destruct (IH bs rs) as [IHe IHf].
    split.
    + intros H. apply Exists_cons in H as [H|H].
      * destruct (Qle_bool r 0) eqn:E; [apply Qle_bool_iff in E; lra|reflexivity].
      * destruct (Qle_bool r 0) eqn:E; [|reflexivity]. rewrite (IHe H). reflexivity.
    + intros H. apply Forall_cons in H as [H1 H2].
      assert (E : Qle_bool r 0 = true) by (apply Qle_bool_iff; exact H1).
      rewrite E, (IHf H2). reflexivity.
Qed.
End ChemostatProofs.

(** X9: [check_pump_settings] (run by [Chemostat.__init__]) raises
    AttributeError as soon as one of the rates it zips with the vials and
    boluses is positive, because it reads [self.volume]. When all those
    [k] rates are at most 0 it leaves the settings as they are if [k = 0],
    and otherwise replaces bolus and rates by [k] zeros each. *)
Theorem check_pump_settings_outcome (vials : list Z) (cs : Chemostat.chemo_settings) :
  let k := Nat.min (length vials)
             (Nat.min (length (Chemostat.cs_bolus cs)) (length (Chemostat.cs_rates cs))) in
  (Exists (fun r => 0 < r) (take k (Chemostat.cs_rates cs)) ->
   Chemostat.check_pump_settings vials cs = inl AttributeError)
  /\ (Forall (fun r => r <= 0) (take k (Chemostat.cs_rates cs)) ->
      Chemostat.check_pump_settings vials cs
      = inr (if Nat.eqb k 0 then cs
             else Chemostat.mkCS (Chemostat.cs_start_od cs) (replicate k 0) (replicate k 0)
                    (Chemostat.cs_pump_ratios cs))).
Proof.
  intros k. destruct (check_loop_spec vials (Chemostat.cs_bolus cs) (Chemostat.cs_rates cs))
    as [He Hf].
  unfold Chemostat.check_pump_settings. fold k in He, Hf. split.
  - intros H. rewrite (He H). reflexivity.
  - intros H. rewrite (Hf H). destruct (Nat.eqb k 0); reflexivity.
Qed.

Lemma check_pump_settings_outcome_witness :
  Chemostat.check_pump_settings [0%Z; 1%Z] (Chemostat.mkCS [1; 1] [1; 2] [0; 1] [(1, 1); (1, 1)])
    = inl AttributeError
  /\ Chemostat.check_pump_settings [0%Z; 1%Z] (Chemostat.mkCS [1; 1] [1; 2] [0; -1] [(1, 1); (1, 1)])
    = inr (Chemostat.mkCS [1; 1] [0; 0] [0; 0] [(1, 1); (1, 1)]).
Proof.
  split.
  - apply (check_pump_settings_outcome [0%Z; 1%Z] (Chemostat.mkCS [1; 1] [1; 2] [0; 1] [(1, 1); (1, 1)])).
    simpl. apply Exists_cons. right. apply Exists_cons. left. reflexivity.
  - apply (check_pump_settings_outcome [0%Z; 1%Z] (Chemostat.mkCS [1; 1] [1; 2] [0; -1] [(1, 1); (1, 1)])).
    simpl. repeat constructor; discriminate.
Defined.

(** X10: [Chemostat.update] never gets past the start time: once [curr_time]
    has reached [min(start_times)] it raises, and every message it does
    return has time NaN, no record, and comes with no pump calls. *)
Theorem chemostat_update_only_before_start (cfg : Turbidostat.tconfig)
  (st : Turbidostat.tstate) (curr : Q) (ods temps : list Fl.fl) :
  (Turbidostat.started cfg curr = true ->
   exists e, Chemostat.update cfg st curr ods temps = inl e)
  /\ (forall st1 evs msg, Chemostat.update cfg st curr ods temps = inr (st1, evs, msg) ->
      Chemostat.cm_time msg = Fl.NaN /\ Chemostat.cm_record msg = None /\ evs = []
      /\ Turbidostat.started cfg curr = false).
Proof.
  unfold Chemostat.update, Turbidostat.pre_update, Turbidostat.started.
  destruct (Turbidostat.record_readings _ _ ods temps st) as [e|st1].
  { split; [intros _; eexists; reflexivity|intros ? ? ? H; discriminate]. }
  destruct (Turbidostat.min_start cfg) as [e|m].
  { split; [discriminate|intros ? ? ? H; discriminate]. }
  destruct (Turbidostat.qlt curr m) eqn:Q; simpl.
  - split; [discriminate|].
    intros st2 evs msg H.
    destruct (Turbidostat.last_readings _ _); [discriminate|].
    destruct (Turbidostat.last_readings _ _); [discriminate|].
    inversion H; subst. simpl. repeat split.
  - split.
    + intros _.
      destruct (Turbidostat.last_readings _ _); [eexists; reflexivity|].
      destruct (Turbidostat.last_readings _ _); eexists; reflexivity.
    + intros st2 evs msg H.
      destruct (Turbidostat.last_readings _ _); [discriminate|].
      destruct (Turbidostat.last_readings _ _); discriminate.
Qed.

Lemma chemostat_update_only_before_start_witness :
  let cfg := Turbidostat.mkTC [Turbidostat.mkTV 0 0 10 0 0] 3 in
  let st := Turbidostat.bioreactor_init cfg in
  Turbidostat.started cfg 1 = true
  /\ exists e, Chemostat.update cfg st 1 [Fl.Num 1] [Fl.Num 30] = inl e.
Proof.
  intros cfg st.
  assert (Hs : Turbidostat.started cfg 1 = true) by reflexivity.
  split; [exact Hs|].
  exact (proj1 (chemostat_update_only_before_start cfg st 1 [Fl.Num 1] [Fl.Num 30]) Hs).
Defined.

Section ReadingsProofs.
Import Fl Turbidostat.

Lemma append_bounded_drop (m : nat) (h : list fl) (x : fl) :
  append_bounded m h x = drop (length h + 1 - m) (h ++ [x]).
Proof.
  unfold append_bounded. rewrite length_app. simpl.
  destruct (decide (m < length h + 1)%nat) as [H|H]; [reflexivity|].
  replace (length h + 1 - m)%nat with 0%nat by lia. reflexivity.
Qed.

Lemma record_readings_spec (m : nat) (vs : list Z) (ods temps : list fl) (st st' : tstate) :
  record_readings m vs ods temps st = inr st' ->
  let k := Nat.min (length vs) (Nat.min (length ods) (length temps)) in
  num_readings st' = (num_readings st + Z.of_nat k)%Z
  /\ is_diluting st' = is_diluting st
  /\ num_dilutions_left st' = num_dilutions_left st
  /\ (forall v, v ∉ take k vs ->
      od_history st' !! v = od_history st !! v /\ temp_history st' !! v = temp_history st !! v)
  /\ (NoDup (take k vs) -> forall i v o t, vs !! i = Some v -> ods !! i = Some o ->
      temps !! i = Some t ->
      exists h th, od_history st !! v = Some h /\ temp_history st !! v = Some th
        /\ od_history st' !! v = Some (drop (length h + 1 - m) (h ++ [o]))
        /\ temp_history st' !! v = Some (drop (length th + 1 - m) (th ++ [t]))).
Proof.
  revert ods temps st. induction vs as [|v vs IH]; intros ods temps st H; cbv zeta.
  - simpl in H. inversion H; subst. simpl.
    repeat split; [lia|intros _ i v o t Hi; discriminate].
  - destruct ods as [|o os]; [simpl in H; inversion H; subst; simpl;
      rewrite ?Nat.min_0_r; repeat split; try (simpl; lia);
      intros _ i v' o t _ Ho; discriminate|].
    destruct temps as [|t ts]; [simpl in H; inversion H; subst; simpl;
      rewrite ?Nat.min_0_r; repeat split; try (simpl; lia);
      intros _ i v' o' t _ _ Ht; discriminate|].
    simpl in H.
    destruct (od_history st !! v) as [h|] eqn:Eh; [|discriminate].
    destruct (temp_history st !! v) as [th|] eqn:Et; [|discriminate].
    destruct (IH os ts _ H) as (N & D & L & U & A). clear IH H.
    simpl.
    set (k' := Nat.min (length vs) (Nat.min (length os) (length ts))) in *.
    split; [simpl in N; rewrite N; lia|]. split; [exact D|]. split; [exact L|]. split.
    + intros w Hw. apply not_elem_of_cons in Hw as [Hw1 Hw2].
      destruct (U w Hw2) as [U1 U2]. rewrite U1, U2. simpl.
      rewrite !lookup_insert_ne by congruence. split; reflexivity.
    + intros Hnd i w o' t' Hi Ho Ht. apply NoDup_cons in Hnd as [Hnin Hnd].
      destruct i as [|i].
      * simpl in Hi, Ho, Ht. inversion Hi; inversion Ho; inversion Ht; subst.
        exists h, th. split; [exact Eh|]. split; [exact Et|].
        destruct (U w Hnin) as [U1 U2]. rewrite U1, U2. simpl.
        rewrite !lookup_insert_eq, !append_bounded_drop. split; reflexivity.
      * simpl in Hi, Ho, Ht.
        destruct (A Hnd i w o' t' Hi Ho Ht) as (h' & th' & E1 & E2 & E3 & E4).
        assert (Hne : w <> v).
        { intros ->. apply Hnin. apply list_elem_of_lookup_2 with i.
          rewrite lookup_take_lt; [exact Hi|].
          apply lookup_lt_Some in Hi, Ho, Ht. subst k'. lia. }
        simpl in E1, E2. rewrite !lookup_insert_ne in E1, E2 by congruence.
        exists h', th'. repeat split; assumption.
Qed.
End ReadingsProofs.

(** X11: [pre_update] records the readings of a broadcast per zipped vial:
    [_num_readings] grows by the number [k] of (vial, od, temp) triples the
    zip forms, not by one per broadcast; the dilution state is untouched;
    vials outside the first [k] keep their histories; and when those [k]
    vials are distinct, each one's OD and temperature history becomes the
    last [mem_len] items of the old history followed by its new reading. *)
Theorem pre_update_records_per_vial (cfg : Turbidostat.tconfig) (st : Turbidostat.tstate)
  (curr : Q) (ods temps : list Fl.fl) (st1 : Turbidostat.tstate)
  (r : option (list pyval)) (evs : list Turbidostat.event)
  (H : Turbidostat.pre_update cfg st curr ods temps = inr (st1, r, evs)) :
  let vs := map Turbidostat.tv_vial (Turbidostat.tc_vials cfg) in
  let k := Nat.min (length vs) (Nat.min (length ods) (length temps)) in
  let m := Turbidostat.mem_len cfg in
  Turbidostat.num_readings st1 = (Turbidostat.num_readings st + Z.of_nat k)%Z
  /\ Turbidostat.is_diluting st1 = Turbidostat.is_diluting st
  /\ Turbidostat.num_dilutions_left st1 = Turbidostat.num_dilutions_left st
  /\ (forall v, v ∉ take k vs ->
      Turbidostat.od_history st1 !! v = Turbidostat.od_history st !! v
      /\ Turbidostat.temp_history st1 !! v = Turbidostat.temp_history st !! v)
  /\ (NoDup (take k vs) -> forall i v o t, vs !! i = Some v -> ods !! i = Some o ->
      temps !! i = Some t ->
      exists h th, Turbidostat.od_history st !! v = Some h
        /\ Turbidostat.temp_history st !! v = Some th
        /\ Turbidostat.od_history st1 !! v = Some (drop (length h + 1 - m) (h ++ [o]))
        /\ Turbidostat.temp_history st1 !! v = Some (drop (length th + 1 - m) (th ++ [t]))).
Proof.
  unfold Turbidostat.pre_update in H.
  destruct (Turbidostat.record_readings _ _ ods temps st) as [e|st'] eqn:E; [discriminate|].
  destruct (Turbidostat.min_start cfg); [discriminate|].
  assert (st' = st1) as <-.
  { destruct (Turbidostat.qlt curr q); inversion H; reflexivity. }
  exact (record_readings_spec _ _ _ _ _ _ E).
Qed.

Lemma pre_update_records_per_vial_witness :
  let cfg := Turbidostat.mkTC [Turbidostat.mkTV 0 0 10 0 0; Turbidostat.mkTV 1 0 10 0 0] 2 in
  let st := Turbidostat.bioreactor_init cfg in
  exists st1 r evs,
    Turbidostat.pre_update cfg st 5 [Fl.Num 1; Fl.Num 2] [Fl.Num 30; Fl.Num 31] = inr (st1, r, evs)
    /\ Turbidostat.num_readings st1 = 2%Z.
Proof.
  intros cfg st.
  destruct (Turbidostat.pre_update cfg st 5 [Fl.Num 1; Fl.Num 2] [Fl.Num 30; Fl.Num 31])
    as [e|[[st1 r] evs]] eqn:E; [vm_compute in E; discriminate|].
  exists st1, r, evs. split; [reflexivity|].
  destruct (pre_update_records_per_vial cfg st 5 _ _ st1 r evs E) as [N _].
  rewrite N. reflexivity.
Defined.

(** ** Daemon: the "fluid" updates of manage_updates (daemon.py, l. 286-331),
    the registration and end steps of update_experiment_list (l. 249-280),
    config_utils.add_fluid_tracking (l. 163-193), and pause / unpause
    (l. 150-158, 395-404). *)
Module DaemonFluids.
Import Daemon.

  (** [self._fluid_key]: vial to (pump to fluid name). *)
Abbreviation fluid_key := (gmap Z (gmap string string)).





Fixpoint fold_err {A B} (f : A -> B -> py_exn + A) (a : A) (l : list B) : py_exn + A :=
    match l with
    | [] => inr a
    | x :: r => match f a x with inl e => inl e | inr a' => fold_err f a' r end
    end.


  (** The configuration [add_fluid_tracking] reads: [None] for a missing or
      "None" [config["fluids"]]; per fluid its name, volume and the vial
      lists under "in1" and "in2" ([None] when absent or "None"). *)
Record fluid_cfg := mkFC {
    fc_name : string; fc_vol : Q; fc_in1 : option (list Z); fc_in2 : option (list Z)
  }.

Definition fluid_pump (f : fluid_cfg) (pump : string) : option (list Z) :=
    if String.eqb pump "in1" then f.(fc_in1)
    else if String.eqb pump "in2" then f.(fc_in2) else None.

  (** [config_utils.PUMP_SET] *)
Definition cfg_pumps : list string := ["in1"; "in2"; "out"].

Abbreviation reactor_fluid_key := (gmap string (gmap Z (gmap string string))).

  (** [fluid_key[reactor_key[vial]][vial][pump] = fluid["name"]] *)
Definition assign_vial (rk : gmap Z string) (name pump : string) (fk : reactor_fluid_key)
    (vial : Z) : py_exn + reactor_fluid_key :=
    match rk !! vial with
    | None => inl KeyError
    | Some r =>
        match fk !! r with
        | None => inl KeyError
        | Some m =>
            match m !! vial with
            | None => inl KeyError
            | Some d => inr (<[r := <[vial := <[pump := name]> d]> m]> fk)
            end
        end
    end.

Definition track_fluid (rk : gmap Z string) (fk : reactor_fluid_key) (f : fluid_cfg)
    : py_exn + reactor_fluid_key :=
    fold_err (fun fk' pump =>
                if String.eqb pump "out" then inr fk' else
                match fluid_pump f pump with
                | None => inr fk'
                | Some vials => fold_err (assign_vial rk f.(fc_name) pump) fk' vials
                end) fk cfg_pumps.

  (** [add_fluid_tracking] with the fluid volumes of [starting_vol]; the
      alert addresses are left out. *)
Definition add_fluid_tracking (fluids : option (list fluid_cfg))
    (reactors : list (string * list Z))
    : py_exn + (reactor_fluid_key * gmap string Q) :=
    match fluids with
    | None => inr (∅, ∅)
    | Some fs =>
        let '(fk, rk) := foldl (fun '(fk, rk) '(reactor, vials) =>
            (<[reactor := foldl (fun m v => <[v := ∅]> m) ∅ vials]> fk,
             foldl (fun rk v => <[v := reactor]> rk) rk vials)) (∅, ∅) reactors in
        let starting := foldl (fun sv f => <[f.(fc_name) := f.(fc_vol)]> sv) ∅ fs in
        match fold_err (track_fluid rk) fk fs with
        | inl e => inl e
        | inr fk' => inr (fk', starting)
        end
    end.
End DaemonFluids.

Section DaemonFluidProofs.
Import Daemon DaemonFluids.

End DaemonFluidProofs.

Section DaemonFluidProofs2.
Import Daemon DaemonFluids.




End DaemonFluidProofs2.



Section FluidTrackingProofs.
Import DaemonFluids.

Definition pump_keys_ok (fk : reactor_fluid_key) : Prop :=
  forall r m v d p x, fk !! r = Some m -> m !! v = Some d -> d !! p = Some x ->
    p = "in1" \/ p = "in2".

Lemma fold_err_invariant {A B} (I : A -> Prop) (f : A -> B -> py_exn + A)
  (Hf : forall a x a', f a x = inr a' -> I a -> I a') (l : list B) :
  forall a a', fold_err f a l = inr a' -> I a -> I a'.
Proof.
  induction l as [|x l IH]; simpl; intros a a' H Ia.
  - inversion H; subst; exact Ia.
  - destruct (f a x) as [e|a1] eqn:E; [discriminate|]. exact (IH a1 a' H (Hf a x a1 E Ia)).
Qed.

Lemma assign_vial_keys (rk : gmap Z string) (name pump : string) (fk fk' : reactor_fluid_key)
  (v : Z) (Hp : pump = "in1" \/ pump = "in2") :
  assign_vial rk name pump fk v = inr fk' -> pump_keys_ok fk -> pump_keys_ok fk'.
Proof.
  unfold assign_vial. intros H Ok.
  destruct (rk !! v) as [r|] eqn:Er; [|discriminate].
  destruct (fk !! r) as [m|] eqn:Em; [|discriminate].
  destruct (m !! v) as [d|] eqn:Ed; [|discriminate].
  inversion H; subst fk'. clear H.
  intros r' m' v' d' p x H1 H2 H3.
  apply lookup_insert_Some in H1 as [[<- <-]|[Hne H1]]; [|exact (Ok _ _ _ _ _ _ H1 H2 H3)].
  apply lookup_insert_Some in H2 as [[<- <-]|[Hne H2]]; [|exact (Ok _ _ _ _ _ _ Em H2 H3)].
  apply lookup_insert_Some in H3 as [[<- _]|[Hne H3]]; [exact Hp|exact (Ok _ _ _ _ _ _ Em Ed H3)].
Qed.

Lemma track_fluid_keys (rk : gmap Z string) (fk fk' : reactor_fluid_key) (f : fluid_cfg) :
  track_fluid rk fk f = inr fk' -> pump_keys_ok fk -> pump_keys_ok fk'.
Proof.
  unfold track_fluid. intros Ht Ik.
  refine (fold_err_invariant pump_keys_ok _ _ cfg_pumps fk fk' Ht Ik). intros a pump a' H Ia.
  destruct (String.eqb pump "out") eqn:Eo; [inversion H; subst; exact Ia|].
  unfold fluid_pump in H.
  destruct (String.eqb pump "in1") eqn:E1.
  - apply String.eqb_eq in E1. subst pump.
    destruct (fc_in1 f) as [vials|]; [|inversion H; subst; exact Ia].
    refine (fold_err_invariant pump_keys_ok _ _ vials a a' H Ia). intros b v b' Hb Ib.
    exact (assign_vial_keys _ _ _ _ _ _ (or_introl eq_refl) Hb Ib).
  - destruct (String.eqb pump "in2") eqn:E2; [|inversion H; subst; exact Ia].
    apply String.eqb_eq in E2. subst pump.
    destruct (fc_in2 f) as [vials|]; [|inversion H; subst; exact Ia].
    refine (fold_err_invariant pump_keys_ok _ _ vials a a' H Ia). intros b v b' Hb Ib.
    exact (assign_vial_keys _ _ _ _ _ _ (or_intror eq_refl) Hb Ib).
Qed.

Lemma empty_vial_maps (vials : list Z) (m : gmap Z (gmap string string)) :
  (forall v d, m !! v = Some d -> d = ∅) ->
  forall v d, foldl (fun m v => <[v := ∅]> m) m vials !! v = Some d -> d = ∅.
Proof.
  revert m. induction vials as [|w vials IH]; simpl; intros m Hm; [exact Hm|].
  apply IH. intros v d H. apply lookup_insert_Some in H as [[_ <-]|[_ H]]; [reflexivity|].
  exact (Hm v d H).
Qed.

Lemma reactor_maps_empty (reactors : list (string * list Z))
  (fk : reactor_fluid_key) (rk : gmap Z string) :
  (forall r m v d, fk !! r = Some m -> m !! v = Some d -> d = ∅) ->
  forall r m v d,
  (foldl (fun '(fk, rk) '(reactor, vials) =>
      (<[reactor := foldl (fun m v => <[v := ∅]> m) ∅ vials]> fk,
       foldl (fun rk v => <[v := reactor]> rk) rk vials)) (fk, rk) reactors).1 !! r = Some m ->
  m !! v = Some d -> d = ∅.
Proof.
  revert fk rk. induction reactors as [|[reactor vials] reactors IH]; simpl; intros fk rk Hfk.
  - exact Hfk.
  - apply IH. intros r m v d H1 H2.
    apply lookup_insert_Some in H1 as [[_ <-]|[_ H1]]; [|exact (Hfk r m v d H1 H2)].
    revert H2. apply empty_vial_maps. intros w e H. rewrite lookup_empty in H. discriminate.
Qed.
End FluidTrackingProofs.

(** X13: [add_fluid_tracking] only ever writes the pump keys "in1" and "in2"
    under a reactor's vial ("out" is skipped): every pump key of the
    [fluid_key] it returns is "in1" or "in2". *)
Theorem add_fluid_tracking_pump_keys (fluids : option (list DaemonFluids.fluid_cfg))
  (reactors : list (string * list Z)) (fk : DaemonFluids.reactor_fluid_key)
  (sv : gmap string Q)
  (H : DaemonFluids.add_fluid_tracking fluids reactors = inr (fk, sv)) :
  forall r m v d p x, fk !! r = Some m -> m !! v = Some d -> d !! p = Some x ->
    p = "in1" \/ p = "in2".
Proof.
  change (pump_keys_ok fk).
  unfold DaemonFluids.add_fluid_tracking in H.
  destruct fluids as [fs|]; [|inversion H; subst; intros r m v d p x E; rewrite lookup_empty in E;
                               discriminate].
  pose proof (reactor_maps_empty reactors ∅ ∅
                ltac:(intros r m v d E; rewrite lookup_empty in E; discriminate)) as H0.
  destruct (foldl _ (∅, ∅) reactors) as [fk0 rk] eqn:E0. simpl in H0.
  destruct (DaemonFluids.fold_err (DaemonFluids.track_fluid rk) fk0 fs) as [e|fk1] eqn:E1;
    [discriminate|].
  inversion H; subst fk1.
  refine (fold_err_invariant pump_keys_ok _ _ fs fk0 fk E1 _).
  - intros a f a' Ht Ia. exact (track_fluid_keys _ _ _ _ Ht Ia).
  - intros r m v d p x Hm Hd Hp. rewrite (H0 r m v d Hm Hd) in Hp.
    rewrite lookup_empty in Hp. discriminate.
Qed.

Lemma add_fluid_tracking_pump_keys_witness :
  exists fk sv,
    DaemonFluids.add_fluid_tracking
      (Some [DaemonFluids.mkFC "water" 100 (Some [1%Z]) None;
             DaemonFluids.mkFC "drug" 50 (Some [2%Z]) (Some [1%Z])])
      [("chemostat", [1%Z; 2%Z])] = inr (fk, sv)
    /\ (forall r m v d p x, fk !! r = Some m -> m !! v = Some d -> d !! p = Some x ->
          p = "in1" \/ p = "in2").
Proof.
  destruct (DaemonFluids.add_fluid_tracking
      (Some [DaemonFluids.mkFC "water" 100 (Some [1%Z]) None;
             DaemonFluids.mkFC "drug" 50 (Some [2%Z]) (Some [1%Z])])
      [("chemostat", [1%Z; 2%Z])]) as [e|[fk sv]] eqn:E; [vm_compute in E; discriminate|].
  exists fk, sv. split; [reflexivity|].
  exact (add_fluid_tracking_pump_keys _ _ fk sv E).
Defined.

(** ** The pause state of the daemon: [handle_client]'s "unpause" branch
    (daemon.py, l. 155-158) with [unpause] (l. 401-404). *)
Module DaemonPause.

Record daemon := mkD {
    paused : bool;                        (* self._pause *)
    evolver_controls : list Controls.controls  (* manager.controls of self.evolvers *)
  }.

  (** [for _, manager in self.evolvers.items(): f(manager.controls)]: the
      controls are changed in place, up to the one that raises. *)
Fixpoint run_all (f : Controls.M unit) (cs : list Controls.controls)
    : list Controls.controls * option py_exn :=
    match cs with
    | [] => ([], None)
    | c :: r =>
        match f c with
        | Controls.Ok _ c' => let '(r', e) := run_all f r in (c' :: r', e)
        | Controls.Raise e c' => (c' :: r, Some e)
        end
    end.

Section Handle.
    (** [str(e)] *)
Variable exn_msg : py_exn -> string.

Definition error_response (e : py_exn) : pyval :=
      PDict [("status", PStr "error"); ("msg", PStr (exn_msg e))].

    (** The "unpause" command: the response sent back, and the new state. An
        exception out of [unpause] is caught by [handle_client], which
        answers with an error. *)
Definition handle_unpause (d : daemon) : daemon * pyval :=
      if d.(paused) then
        match run_all Controls.unlock d.(evolver_controls) with
        | (cs', None) => (mkD false cs', Daemon.ok_response)
        | (cs', Some e) => (mkD true cs', error_response e)
        end
      else (d, Daemon.ok_response).
End Handle.
End DaemonPause.

(** X14: the daemon cannot leave the paused state while it manages an
    evolver. Because [unlock] always raises, an "unpause" command on a
    paused daemon with at least one evolver answers with an error and
    leaves [_pause] set and every evolver's controls unchanged; only with
    no evolver at all does it clear [_pause]. *)
Theorem unpause_keeps_paused (exn_msg : py_exn -> string) (d : DaemonPause.daemon)
  (Hp : DaemonPause.paused d = true) :
  (DaemonPause.evolver_controls d = [] ->
   DaemonPause.handle_unpause exn_msg d = (DaemonPause.mkD false [], Daemon.ok_response))
  /\ (DaemonPause.evolver_controls d <> [] ->
      exists e, DaemonPause.handle_unpause exn_msg d = (d, DaemonPause.error_response exn_msg e)).
Proof.
  unfold DaemonPause.handle_unpause. rewrite Hp. split.
  - intros ->. reflexivity.
  - intros Hne. destruct d as [p cs]. simpl in *. subst p.
    destruct cs as [|c cs]; [congruence|]. simpl.
    destruct (unlock_raises c) as [e He]. rewrite He.
    exists e. reflexivity.
Qed.

Lemma unpause_keeps_paused_witness :
  DaemonPause.paused (DaemonPause.mkD true [Controls.init 16]) = true
  /\ exists e, DaemonPause.handle_unpause (fun _ => "error")
                 (DaemonPause.mkD true [Controls.init 16])
               = (DaemonPause.mkD true [Controls.init 16],
                  DaemonPause.error_response (fun _ => "error") e).
Proof.
  split; [reflexivity|].
  apply (proj2 (unpause_keeps_paused (fun _ => "error") (DaemonPause.mkD true [Controls.init 16])
                  eq_refl)).
  simpl. discriminate.
Defined.

(** ** The registration of a new experiment's fluids in
    update_experiment_list (daemon.py, l. 249-256). *)
Module DaemonRegister.
Import Daemon DaemonFluids.

Abbreviation vial_key := (gmap string (gset Z)).

  (** [for _, fluid_name in pump_dict.items(): if fluid_name not in
      self._fluids: ...] for one vial. *)
Definition register_vial (vial : Z) (st : inventory * vial_key) (pump_dict : list (string * string))
    : inventory * vial_key :=
    foldl (fun '(fl, vk) '(_, fluid_name) =>
             if bool_decide (is_Some (fl !! fluid_name)) then (fl, vk)
             else (<[fluid_name := 0]> fl, <[fluid_name := {[vial]}]> vk)) st pump_dict.

  (** The registration loop followed by [self._fluid_key.update(fluid_dict)]. *)
Definition register (fluids : inventory) (vk : vial_key) (fk : fluid_key)
    (fluid_dict : list (Z * list (string * string))) : inventory * vial_key * fluid_key :=
    let '(fl, vk') := foldl (fun st '(vial, pd) => register_vial vial st pd) (fluids, vk) fluid_dict in
    (fl, vk', foldl (fun m '(vial, pd) => <[vial := list_to_map pd]> m) fk fluid_dict).

  (** The first vial of [fluid_dict] whose pumps name the fluid. *)
Fixpoint first_user (name : string) (fluid_dict : list (Z * list (string * string))) : option Z :=
    match fluid_dict with
    | [] => None
    | (vial, pd) :: r => if existsb (fun p => String.eqb p.2 name) pd then Some vial
                         else first_user name r
    end.
End DaemonRegister.

Section RegisterProofs.
Import Daemon DaemonRegister.

Lemma register_vial_known (vial : Z) (pd : list (string * string)) (fl : inventory) (vk : vial_key)
  (name : string) (x : Q) :
  fl !! name = Some x ->
  (register_vial vial (fl, vk) pd).1 !! name = Some x
  /\ (register_vial vial (fl, vk) pd).2 !! name = vk !! name.
Proof.
  unfold register_vial. revert fl vk. induction pd as [|[p n] pd IH]; simpl; intros fl vk H.
  - split; [exact H|reflexivity].
  - destruct (bool_decide (is_Some (fl !! n))) eqn:B; [exact (IH fl vk H)|].
    apply bool_decide_eq_false in B.
    assert (Hne : n <> name) by (intros ->; apply B; eexists; exact H).
    destruct (IH (<[n:=0]> fl) (<[n:={[vial]}]> vk)) as [H1 H2].
    + rewrite lookup_insert_ne by exact Hne. exact H.
    + rewrite H1, H2. split; [reflexivity|]. apply lookup_insert_ne, Hne.
Qed.

Lemma register_vial_new (vial : Z) (pd : list (string * string)) (fl : inventory) (vk : vial_key)
  (name : string) :
  fl !! name = None ->
  if existsb (fun p => String.eqb p.2 name) pd
  then (register_vial vial (fl, vk) pd).1 !! name = Some 0
       /\ (register_vial vial (fl, vk) pd).2 !! name = Some {[vial]}
  else (register_vial vial (fl, vk) pd).1 !! name = None
       /\ (register_vial vial (fl, vk) pd).2 !! name = vk !! name.
Proof.
  unfold register_vial. revert fl vk. induction pd as [|[p n] pd IH]; simpl; intros fl vk H.
  - split; [exact H|reflexivity].
  - destruct (String.eqb n name) eqn:En; simpl.
    + apply String.eqb_eq in En. subst n.
      rewrite bool_decide_eq_false_2 by (rewrite H; intros [y Hy]; discriminate).
      destruct (register_vial_known vial pd (<[name:=0]> fl) (<[name:={[vial]}]> vk) name 0
                  (lookup_insert_eq _ _ _)) as [H1 H2].
      unfold register_vial in H1, H2. rewrite H1, H2.
      split; [reflexivity|apply lookup_insert_eq].
    + apply String.eqb_neq in En.
      destruct (bool_decide (is_Some (fl !! n))); [exact (IH fl vk H)|].
      pose proof (IH (<[n:=0]> fl) (<[n:={[vial]}]> vk)
                    ltac:(rewrite lookup_insert_ne by exact En; exact H)) as IH'.
      destruct (existsb _ pd); [exact IH'|].
      destruct IH' as [H1 H2]. rewrite H1, H2. split; [reflexivity|].
      apply lookup_insert_ne, En.
Qed.
End RegisterProofs.

(** X15: registering an experiment's [fluid_key] starts tracking each fluid
    the daemon does not know yet with volume 0 and records for it only the
    first vial that uses it, however many vials name it; a fluid the daemon
    already tracks keeps its volume and its vial set unchanged. *)
Theorem register_records_first_vial (fluids : Daemon.inventory) (vk : DaemonRegister.vial_key)
  (fk : DaemonFluids.fluid_key) (fluid_dict : list (Z * list (string * string))) (name : string) :
  let '(fl', vk', _) := DaemonRegister.register fluids vk fk fluid_dict in
  (forall x, fluids !! name = Some x -> fl' !! name = Some x /\ vk' !! name = vk !! name)
  /\ (forall v, fluids !! name = None -> DaemonRegister.first_user name fluid_dict = Some v ->
      fl' !! name = Some 0 /\ vk' !! name = Some {[v]}).
Proof.
  unfold DaemonRegister.register.
  destruct (foldl _ (fluids, vk) fluid_dict) as [fl' vk'] eqn:E. simpl.
  revert fluids vk E. induction fluid_dict as [|[vial pd] fd IH]; simpl; intros fluids vk E.
  - inversion E; subst. split; [intros x H; split; [exact H|reflexivity]|].
    intros v _ H. discriminate.
  - destruct (DaemonRegister.register_vial vial (fluids, vk) pd) as [fl1 vk1] eqn:E1.
    destruct (IH fl1 vk1 E) as [K N]. split.
    + intros x H. destruct (register_vial_known vial pd fluids vk name x H) as [H1 H2].
      rewrite E1 in H1, H2. simpl in H1, H2. rewrite <- H2. exact (K x H1).
    + intros v H Hf. pose proof (register_vial_new vial pd fluids vk name H) as Hn.
      rewrite E1 in Hn. simpl in Hn.
      destruct (existsb _ pd).
      * inversion Hf; subst v. destruct Hn as [H1 H2].
        destruct (K 0 H1) as [K1 K2]. rewrite K2. split; [exact K1|exact H2].
      * destruct Hn as [H1 _]. exact (N v H1 Hf).
Qed.

Lemma register_records_first_vial_witness :
  (DaemonRegister.register ∅ ∅ ∅ [(0%Z, [("in1", "water")]); (1%Z, [("in1", "water")])]).1.2
    !! "water" = Some {[0%Z]}.
Proof.
  pose proof (register_records_first_vial ∅ ∅ ∅
                [(0%Z, [("in1", "water")]); (1%Z, [("in1", "water")])] "water") as H.
  destruct (DaemonRegister.register ∅ ∅ ∅ _) as [[fl' vk'] fk'].
  simpl. destruct H as [_ N]. exact (proj2 (N 0%Z eq_refl eq_refl)).
Defined.

(** X16: [dispatch_queues] sends the immediate queue, then the recurring
    queue, each only if it holds an entry other than "--", and then resets
    both queues to [3 * num_vials_total] entries "--"; so dispatching a
    second time right after sends nothing and changes nothing. *)
Theorem dispatch_queues_then_nothing (s : Controls.controls) :
  let n := Controls.num_vials_total s in
  let sent := (if existsb Controls.not_noop (Controls.immediate_queue s)
               then [("command", Controls.pump_message false true (Controls.immediate_queue s))]
               else [])
              ++ (if existsb Controls.not_noop (Controls.recurring_queue s)
                  then [("command", Controls.pump_message true false (Controls.recurring_queue s))]
                  else []) in
  let s' := Controls.set_queues (replicate (3 * n) (PStr "--")) (replicate (3 * n) (PStr "--"))
              (Controls.mkControls n (Controls.locked s) (Controls.data s) (Controls.power s)
                 (Controls.temp_setpoint s) (Controls.stir_rate s)
                 (Controls.recurrent_commands s) (Controls.paused_dilutions s)
                 (Controls.immediate_queue s) (Controls.recurring_queue s)
                 (Controls.awaiting_response_field s) (Controls.awaiting_response_attr s)
                 (Controls.active_calibrations s) (Controls.emitted s ++ sent)) in
  Controls.dispatch_queues s = Controls.Ok tt s'
  /\ Controls.dispatch_queues s' = Controls.Ok tt s'.
Proof.
  intros n sent s'.
  assert (E1 : Controls.dispatch_queues s = Controls.Ok tt s').
  { unfold Controls.dispatch_queues, Controls.bind, Controls.get.
    subst s' sent n. destruct s; simpl.
    destruct (existsb Controls.not_noop immediate_queue);
      destruct (existsb Controls.not_noop recurring_queue);
      unfold Controls.reset_queues, Controls.modify, Controls.emit, Controls.push_emit,
        Controls.set_queues; simpl; rewrite ?app_nil_r, <- ?app_assoc; reflexivity. }
  split; [exact E1|].
  unfold Controls.dispatch_queues, Controls.bind, Controls.get. subst s'. simpl.
  rewrite !existsb_not_noop_replicate. reflexivity.
Qed.

(** ** EvolverControls.dilute_single (evolver_controls.py, l. 290-345) *)
Module Single.
Import Controls Config Fl Repeat.

  (** Python's [min(a, b)]: the first argument unless the second is smaller. *)
Definition py_min (a b : fl) : fl := if lt b a then b else a.

Definition fl_mul (a : fl) (q : Q) : fl :=
    match a with Num x => Num (x * q) | NaN => NaN end.
Definition fl_add (a : fl) (q : Q) : fl :=
    match a with Num x => Num (x + q) | NaN => NaN end.

Section Body.
    (** [self.compute_bolus_volume(current, starting, target, steps, volume)] *)
Variable compute_bolus_volume : fl -> fl -> fl -> Z -> Q -> fl.
    (** [round(volume / fit.get_val(0), self.FLOAT_RESOLUTION)] *)
Variable pump_seconds : fl -> Q -> fl.
    (** [str(x)] *)
Variable fl_str : fl -> string.

Record single_acc := mkSA {
      s_settings : gmap nat (fl * fl * fl * fl);
      s_in1 : list string; s_in2 : list string; s_out : list string
    }.

Definition single_step (steps : Z) (vial : nat) (cur start target : fl) (ratio : list Q)
        (fit : Q * Q * Q) (volume : Q) (a : single_acc) : py_exn + single_acc :=
      let bolus_vol := py_min (compute_bolus_volume cur start target steps volume)
                              (Num BOLUS_VOLUME_MAX) in
      let '(f1, f2, f3) := fit in
      match nth_q ratio 0 with
      | inl e => inl e
      | inr r0 =>
          match py_div r0 (py_sum ratio) with
          | inl e => inl e
          | inr in1_frac =>
              match nth_q ratio 1 with
              | inl e => inl e
              | inr r1 =>
                  match py_div r1 (py_sum ratio) with
                  | inl e => inl e
                  | inr in2_frac =>
                      let in1_s := py_min (Num PUMP_TIME_MAX) (pump_seconds (fl_mul bolus_vol in1_frac) f1) in
                      let in2_s := py_min (Num PUMP_TIME_MAX) (pump_seconds (fl_mul bolus_vol in2_frac) f2) in
                      let out_s := py_min (Num PUMP_TIME_MAX) (pump_seconds (fl_add bolus_vol OUTFLOW_EXTRA) f3) in
                      inr (mkSA (<[vial := (bolus_vol, in1_s, in2_s, out_s)]> a.(s_settings))
                                (a.(s_in1) ++ [fl_str (fl_mul bolus_vol in1_frac)])
                                (a.(s_in2) ++ [fl_str (fl_mul bolus_vol in2_frac)])
                                (a.(s_out) ++ [fl_str (fl_add bolus_vol OUTFLOW_EXTRA)]))
                  end
              end
          end
      end.

    (** The loop over [zip(vials, zip(current_ods, starting_ods, target_ods),
        zip(ratios, fits_list), volumes)]. *)
Fixpoint single_loop (steps : Z) (vials : list nat) (ods : list (fl * fl * fl))
        (params : list (list Q * (Q * Q * Q))) (volumes : list Q) (a : single_acc)
        : py_exn + single_acc :=
      match vials, ods, params, volumes with
      | v :: vs, (c, st, t) :: os, (r, f) :: ps, vol :: vols =>
          match single_step steps v c st t r f vol a with
          | inl e => inl e
          | inr a' => single_loop steps vs os ps vols a'
          end
      | _, _, _, _ => inr a
      end.

    (** [self._paused_dilutions[pump][vial] = value] over the zip. *)
Fixpoint store_paused (pump : string) (vials : list nat) (vals : list string) : M unit :=
      match vials, vals with
      | v :: vs, x :: xs =>
          let! s := get in
          let! row := lift (match s.(paused_dilutions) !! pump with
                            | Some r => inr r | None => inl KeyError end) in
          let! row' := lift (Py.setitem row v (PStr x)) in
          let! _ := put (mkControls s.(num_vials_total) s.(locked) s.(data) s.(power)
                           s.(temp_setpoint) s.(stir_rate) s.(recurrent_commands)
                           (<[pump := row']> s.(paused_dilutions)) s.(immediate_queue)
                           s.(recurring_queue) s.(awaiting_response_field)
                           s.(awaiting_response_attr) s.(active_calibrations) s.(emitted)) in
          store_paused pump vs xs
      | _, _ => ret tt
      end.

Definition dilute_single (vials : list nat) (current_ods starting_ods target_ods : list fl)
        (steps : Z) (ratios : list (list Q)) (fits_list : list (Q * Q * Q)) (volumes : list Q)
        : M (gmap nat (fl * fl * fl * fl)) :=
      let ods := zip (zip current_ods starting_ods) target_ods in
      let! a := lift (single_loop steps vials ods (zip ratios fits_list) volumes (mkSA ∅ [] [] [])) in
      let! s := get in
      let! _ := if s.(locked) then
                  let! _ := store_paused "IN1" vials a.(s_in1) in
                  let! _ := store_paused "IN2" vials a.(s_in2) in
                  store_paused "OUT" vials a.(s_out)
                else fluid_command vials (Some (map PStr a.(s_in1))) (Some (map PStr a.(s_in2)))
                       (Some (map PStr a.(s_out))) false false in
      ret a.(s_settings).
End Body.
End Single.

Section SingleProofs.
Import Fl Single.

Definition capped_setting (x : fl * fl * fl * fl) : Prop :=
  let '(b, t1, t2, t3) := x in
  (b = NaN \/ exists q, b = Num q /\ q <= Config.BOLUS_VOLUME_MAX)
  /\ Forall (fun t => exists q, t = Num q /\ q <= Config.PUMP_TIME_MAX) [t1; t2; t3].

Lemma py_min_time (x : fl) :
  exists q, py_min (Num Config.PUMP_TIME_MAX) x = Num q /\ q <= Config.PUMP_TIME_MAX.
Proof.
  unfold py_min, lt. destruct x as [y|]; simpl.
  - destruct (Qle_bool Config.PUMP_TIME_MAX y) eqn:E; simpl.
    + exists Config.PUMP_TIME_MAX. split; [reflexivity|lra].
    + exists y. split; [reflexivity|].
      destruct (Qlt_le_dec y Config.PUMP_TIME_MAX) as [Hl|Hl]; [lra|].
      apply Qle_bool_iff in Hl. congruence.
  - exists Config.PUMP_TIME_MAX. split; [reflexivity|lra].
Qed.

Lemma py_min_bolus (x : fl) :
  py_min x (Num Config.BOLUS_VOLUME_MAX) = NaN
  \/ exists q, py_min x (Num Config.BOLUS_VOLUME_MAX) = Num q /\ q <= Config.BOLUS_VOLUME_MAX.
Proof.
  unfold py_min, lt. destruct x as [y|]; simpl.
  - right. destruct (Qle_bool y Config.BOLUS_VOLUME_MAX) eqn:E; simpl.
    + exists y. split; [reflexivity|]. apply Qle_bool_iff, E.
    + exists Config.BOLUS_VOLUME_MAX. split; [reflexivity|lra].
  - left. reflexivity.
Qed.

Lemma single_loop_capped cbv ps fs steps vials ods params volumes a a' :
  single_loop cbv ps fs steps vials ods params volumes a = inr a' ->
  (forall v x, s_settings a !! v = Some x -> capped_setting x) ->
  forall v x, s_settings a' !! v = Some x -> capped_setting x.
Proof.
  revert ods params volumes a. induction vials as [|vial vials IH]; simpl;
    intros ods params volumes a H Ha.
  - inversion H; subst; exact Ha.
  - destruct ods as [|[[c st] t] ods]; [inversion H; subst; exact Ha|].
    destruct params as [|[r f] params]; [inversion H; subst; exact Ha|].
    destruct volumes as [|vol volumes]; [inversion H; subst; exact Ha|].
    destruct (single_step cbv ps fs steps vial c st t r f vol a) as [e|a1] eqn:E;
      [discriminate|].
    apply (IH ods params volumes a1 H).
    unfold single_step in E. destruct f as [[f1 f2] f3].
    destruct (Repeat.nth_q r 0); [discriminate|].
    destruct (Repeat.py_div _ _); [discriminate|].
    destruct (Repeat.nth_q r 1); [discriminate|].
    destruct (Repeat.py_div _ _); [discriminate|].
    inversion E; subst a1. simpl. intros v x Hx.
    apply lookup_insert_Some in Hx as [[_ <-]|[_ Hx]]; [|exact (Ha v x Hx)].
    simpl. split; [apply py_min_bolus|].
    repeat constructor; apply py_min_time.
Qed.
End SingleProofs.

(** X17: the pump settings [dilute_single] returns are capped. Every bolus
    volume is at most [BOLUS_VOLUME_MAX] (15) unless it is NaN, which
    Python's [min] lets through; and every pump time is a number at most
    [PUMP_TIME_MAX] (18), even when the computed time is NaN, because
    [min(PUMP_TIME_MAX, nan)] is [PUMP_TIME_MAX]. *)
Theorem dilute_single_settings_capped (cbv : Fl.fl -> Fl.fl -> Fl.fl -> Z -> Q -> Fl.fl)
  (ps : Fl.fl -> Q -> Fl.fl) (fs : Fl.fl -> string) (s s' : Controls.controls)
  (vials : list nat) (cur start target : list Fl.fl) (steps : Z) (ratios : list (list Q))
  (fits : list (Q * Q * Q)) (volumes : list Q) (settings : gmap nat (Fl.fl * Fl.fl * Fl.fl * Fl.fl))
  (H : Single.dilute_single cbv ps fs vials cur start target steps ratios fits volumes s
       = Controls.Ok settings s') :
  forall v b t1 t2 t3, settings !! v = Some (b, t1, t2, t3) ->
    (b = Fl.NaN \/ exists q, b = Fl.Num q /\ q <= Config.BOLUS_VOLUME_MAX)
    /\ Forall (fun t => exists q, t = Fl.Num q /\ q <= Config.PUMP_TIME_MAX) [t1; t2; t3].
Proof.
  intros v b t1 t2 t3 Hv.
  unfold Single.dilute_single, Controls.bind, Controls.lift in H.
  destruct (Single.single_loop cbv ps fs steps vials _ _ volumes _) as [e|a] eqn:E;
    [discriminate|].
  assert (Hs : Single.s_settings a = settings).
  { unfold Controls.ret, Controls.get in H. simpl in H.
    destruct (Controls.locked s).
    - destruct (Single.store_paused "IN1" vials (Single.s_in1 a) s) as [? s1|? s1];
        [|discriminate].
      destruct (Single.store_paused "IN2" vials (Single.s_in2 a) s1) as [? s2|? s2];
        [|discriminate].
      destruct (Single.store_paused "OUT" vials (Single.s_out a) s2); [|discriminate].
      inversion H; reflexivity.
    - destruct (Controls.fluid_command _ _ _ _ _ _ s); [|discriminate].
      inversion H; reflexivity. }
  subst settings.
  exact (single_loop_capped cbv ps fs steps vials _ _ volumes _ a E
           ltac:(intros w x Hw; simpl in Hw; rewrite lookup_empty in Hw; discriminate) v _ Hv).
Qed.

Lemma dilute_single_settings_capped_witness :
  let cbv := fun (_ _ _ : Fl.fl) (_ : Z) (_ : Q) => Fl.NaN in
  let ps := fun (_ : Fl.fl) (_ : Q) => Fl.NaN in
  let fs := fun (_ : Fl.fl) => "nan" in
  exists settings s',
    Single.dilute_single cbv ps fs [2%nat] [Fl.Num 1] [Fl.Num 2] [Fl.Num 1] 1 [[1; 1]]
      [(1, 1, 1)] [20] (Controls.init 16) = Controls.Ok settings s'
    /\ settings !! 2%nat = Some (Fl.NaN, Fl.Num 18, Fl.Num 18, Fl.Num 18)
    /\ (forall v b t1 t2 t3, settings !! v = Some (b, t1, t2, t3) ->
        (b = Fl.NaN \/ exists q, b = Fl.Num q /\ q <= Config.BOLUS_VOLUME_MAX)
        /\ Forall (fun t => exists q, t = Fl.Num q /\ q <= Config.PUMP_TIME_MAX) [t1; t2; t3]).
Proof.
  intros cbv ps fs.
  destruct (Single.dilute_single cbv ps fs [2%nat] [Fl.Num 1] [Fl.Num 2] [Fl.Num 1] 1 [[1; 1]]
              [(1, 1, 1)] [20] (Controls.init 16)) as [settings s'|e s'] eqn:E;
    [|vm_compute in E; discriminate].
  exists settings, s'. split; [reflexivity|]. split.
  - vm_compute in E. injection E as <- _. reflexivity.
  - exact (dilute_single_settings_capped cbv ps fs _ _ _ _ _ _ _ _ _ _ settings E).
Defined.


(** ** Bioreactor.process_data (bioreactor.py, l. 283-344) *)
Module ProcessData.
Import Fl.

  (** Exceptions [process_data] raises beyond [py_exn]: with no fits the
      loop never binds [od_reading]. *)
Inductive exn := Py (e : py_exn) | UnboundLocalError.

  (** [fit.get_val(column)[0]]: the reading, or the exception it raises. *)
Abbreviation fit_fn := (list fl -> py_exn + fl).

  (** The per-vial entries of [self._data_fits] it reads: vial, od fit and
      temperature fit. *)
Record fit_set := mkFS { fs_vial : Z; fs_od : fit_fn; fs_temp : fit_fn }.

  (** [self.logger.error(...)]: [self._logger] is a [LoggerAdapter] whose
      extra is [{"name": ...}]. At the default level (WARNING: the
      repository configures no logging) an ERROR record is built, and
      [Logger.makeRecord] refuses to overwrite the LogRecord attribute
      [name]: KeyError. [logger.debug] builds no record at that level. *)
Definition log_error : py_exn := KeyError.

  (** The first [try] of the loop body: [except ValueError] and the
      [not np.isfinite] branch both call [self.logger.error]. *)
Definition od_reading (f : fit_fn) (col : list fl) : py_exn + fl :=
    match f col with
    | inl ValueError => inl log_error
    | inl e => inl e
    | inr x => if is_nan x then inl log_error else inr x
    end.

  (** The second [try]: its [except ValueError] calls [self.logger.error]. *)
Definition temp_reading (f : fit_fn) (col : list fl) : py_exn + fl :=
    match f col with
    | inl ValueError => inl log_error
    | inl e => inl e
    | inr x => inr x
    end.

  (** The loop: each iteration overwrites [od_reading] and [temp_reading];
      both fits are applied to the OD column [od_data[:, vial]]. *)
Fixpoint readings_loop (fits : list fit_set) (od_col temp_col : Z -> list fl)
    (last : option (fl * fl)) : py_exn + option (fl * fl) :=
    match fits with
    | [] => inr last
    | f :: r =>
        match od_reading f.(fs_od) (od_col f.(fs_vial)) with
        | inl e => inl e
        | inr o =>
            match temp_reading f.(fs_temp) (od_col f.(fs_vial)) with
            | inl e => inl e
            | inr t => readings_loop r od_col temp_col (Some (o, t))
            end
        end
    end.

  (** [od_readings.append(od_reading)] after the loop. *)
Definition process_data (fits : list fit_set) (od_col temp_col : Z -> list fl)
    : exn + (list fl * list fl) :=
    match readings_loop fits od_col temp_col None with
    | inl e => inl (Py e)
    | inr None => inl UnboundLocalError
    | inr (Some (o, t)) => inr ([o], [t])
    end.

  (** [Bioreactor.pre_update] fed with what [process_data] returns. *)
Definition pre_update (cfg : Turbidostat.tconfig) (fits : list fit_set) (od_col temp_col : Z -> list fl)
    (st : Turbidostat.tstate) (curr : Q)
    : exn + (Turbidostat.tstate * option (list pyval) * list Turbidostat.event) :=
    match process_data fits od_col temp_col with
    | inl e => inl e
    | inr (ods, temps) =>
        match Turbidostat.pre_update cfg st curr ods temps with
        | inl e => inl (Py e)
        | inr r => inr r
        end
    end.

  (** A fit entry both of whose readings go through. *)
Definition fit_reads (od_col : Z -> list fl) (g : fit_set) : Prop :=
    exists o t, g.(fs_od) (od_col g.(fs_vial)) = inr o /\ is_nan o = false
                /\ g.(fs_temp) (od_col g.(fs_vial)) = inr t.

  (** A fit entry whose failure ends in one of the [except] handlers or in
      the non-finite branch. *)
Definition fit_fails_logged (od_col : Z -> list fl) (g : fit_set) : Prop :=
    g.(fs_od) (od_col g.(fs_vial)) = inl ValueError
    \/ (exists o, g.(fs_od) (od_col g.(fs_vial)) = inr o /\ is_nan o = true)
    \/ (exists o, g.(fs_od) (od_col g.(fs_vial)) = inr o /\ is_nan o = false
                  /\ g.(fs_temp) (od_col g.(fs_vial)) = inl ValueError).
End ProcessData.

Section ProcessDataProofs.
Import Fl ProcessData.

Lemma readings_loop_reads (pre : list fit_set) (od_col temp_col : Z -> list fl) lst rest :
  Forall (fit_reads od_col) pre ->
  exists last', readings_loop (pre ++ rest) od_col temp_col lst
                = readings_loop rest od_col temp_col last'
    /\ (pre <> [] -> exists g o t, last' = Some (o, t) /\ last pre = Some g
          /\ g.(fs_od) (od_col g.(fs_vial)) = inr o /\ g.(fs_temp) (od_col g.(fs_vial)) = inr t)
    /\ (pre = [] -> last' = lst).
Proof.
  revert lst. induction pre as [|g pre IH]; intros lst H.
  - exists lst. split; [reflexivity|]. split; [congruence|auto].
  - apply Forall_cons in H as [(o & t & Ho & Hn & Ht) Hpre].
    destruct (IH (Some (o, t)) Hpre) as (l' & E & Hne & He).
    exists l'. split.
    + simpl. unfold od_reading, temp_reading. rewrite Ho, Hn, Ht. exact E.
    + split; [|discriminate]. intros _.
      destruct pre as [|g' pre'].
      * rewrite (He eq_refl). exists g, o, t. auto.
      * destruct (Hne ltac:(discriminate)) as (g'' & o' & t' & A & B & C & D).
        exists g'', o', t'. split; [exact A|]. split; [|auto]. simpl in B |- *. exact B.
Qed.

Lemma readings_loop_some (fits : list fit_set) (od_col temp_col : Z -> list fl) last o t :
  readings_loop fits od_col temp_col last = inr (Some (o, t)) ->
  (fits = [] /\ last = Some (o, t))
  \/ exists init f, fits = init ++ [f]
       /\ f.(fs_od) (od_col f.(fs_vial)) = inr o /\ f.(fs_temp) (od_col f.(fs_vial)) = inr t.
Proof.
  revert last. induction fits as [|g fits IH]; intros last H.
  - left. simpl in H. inversion H. auto.
  - right. simpl in H.
    destruct (od_reading (fs_od g) (od_col (fs_vial g))) as [e|o'] eqn:Eo; [discriminate|].
    destruct (temp_reading (fs_temp g) (od_col (fs_vial g))) as [e|t'] eqn:Et; [discriminate|].
    destruct (IH _ H) as [[-> Hl]|(init & f & -> & Ho & Ht)].
    + injection Hl as <- <-. exists [], g. split; [reflexivity|].
      unfold od_reading in Eo. unfold temp_reading in Et.
      split.
      * destruct (fs_od g (od_col (fs_vial g))) as [[]|x]; try discriminate.
        destruct (is_nan x); [discriminate|congruence].
      * destruct (fs_temp g (od_col (fs_vial g))) as [[]|x]; congruence.
    + exists (g :: init), f. auto.
Qed.

Lemma process_data_shape (fits : list fit_set) (od_col temp_col : Z -> list fl) ods temps :
  process_data fits od_col temp_col = inr (ods, temps) ->
  exists init f o t, fits = init ++ [f]
    /\ f.(fs_od) (od_col f.(fs_vial)) = inr o /\ ods = [o] /\ temps = [t].
Proof.
  unfold process_data.
  destruct (readings_loop fits od_col temp_col None) as [e|[[o t]|]] eqn:E;
    try discriminate.
  intros H. injection H as <- <-.
  destruct (readings_loop_some _ _ _ _ _ _ E) as [[_ Hl]|(init & f & Hf & Ho & _)];
    [discriminate|].
  exists init, f, o, t. auto.
Qed.
End ProcessDataProofs.

(** X18: [process_data] returns one OD and one temperature reading, not one
    per vial. When every fit of [_data_fits] reads (a finite OD, a
    temperature), both readings come from the last fit's vial, and the
    temperature fit is applied to that vial's OD column, so the
    temperature sensor data never reaches the result. With no fits it
    raises UnboundLocalError. When a fit fails (a ValueError of either fit
    or a non-finite OD) after the earlier ones read, the handler's
    [self.logger.error] raises KeyError, so no NaN is ever returned. *)
Theorem process_data_last_vial_only (fits : list ProcessData.fit_set)
  (od_col temp_col : Z -> list Fl.fl) :
  (fits = [] -> ProcessData.process_data fits od_col temp_col = inl ProcessData.UnboundLocalError)
  /\ (forall init f o t, fits = init ++ [f] ->
      Forall (ProcessData.fit_reads od_col) init ->
      ProcessData.fs_od f (od_col (ProcessData.fs_vial f)) = inr o -> Fl.is_nan o = false ->
      ProcessData.fs_temp f (od_col (ProcessData.fs_vial f)) = inr t ->
      ProcessData.process_data fits od_col temp_col = inr ([o], [t]))
  /\ (forall pre g post, fits = pre ++ g :: post ->
      Forall (ProcessData.fit_reads od_col) pre ->
      ProcessData.fit_fails_logged od_col g ->
      ProcessData.process_data fits od_col temp_col = inl (ProcessData.Py KeyError)).
Proof.
  split; [|split].
  - intros ->. reflexivity.
  - intros init f o t -> Hi Ho Hn Ht.
    destruct (readings_loop_reads init od_col temp_col None [f] Hi) as (l' & E & _).
    unfold ProcessData.process_data. rewrite E. simpl.
    unfold ProcessData.od_reading, ProcessData.temp_reading. rewrite Ho, Hn, Ht. reflexivity.
  - intros pre g post -> Hp Hg.
    destruct (readings_loop_reads pre od_col temp_col None (g :: post) Hp) as (l' & E & _).
    unfold ProcessData.process_data. rewrite E. simpl.
    unfold ProcessData.od_reading, ProcessData.temp_reading.
    destruct Hg as [H|[(o & H & Hn)|(o & H & Hn & Ht)]].
    + rewrite H. reflexivity.
    + rewrite H, Hn. reflexivity.
    + rewrite H, Hn, Ht. reflexivity.
Qed.

Lemma process_data_last_vial_only_witness :
  ProcessData.process_data
    [ProcessData.mkFS 0 (fun _ => inr (Fl.Num 1)) (fun _ => inr (Fl.Num 30));
     ProcessData.mkFS 1 (fun _ => inr (Fl.Num 2)) (fun _ => inr (Fl.Num 31))]
    (fun _ => []) (fun _ => [])
  = inr ([Fl.Num 2], [Fl.Num 31])
  /\ ProcessData.process_data
       [ProcessData.mkFS 0 (fun _ => inl ValueError) (fun _ => inr (Fl.Num 30));
        ProcessData.mkFS 1 (fun _ => inr (Fl.Num 2)) (fun _ => inr (Fl.Num 31))]
       (fun _ => []) (fun _ => [])
     = inl (ProcessData.Py KeyError).
Proof.
  split.
  - destruct (process_data_last_vial_only
                [ProcessData.mkFS 0 (fun _ => inr (Fl.Num 1)) (fun _ => inr (Fl.Num 30));
                 ProcessData.mkFS 1 (fun _ => inr (Fl.Num 2)) (fun _ => inr (Fl.Num 31))]
                (fun _ => []) (fun _ => [])) as [_ [H _]].
    refine (H [ProcessData.mkFS 0 (fun _ => inr (Fl.Num 1)) (fun _ => inr (Fl.Num 30))]
             (ProcessData.mkFS 1 (fun _ => inr (Fl.Num 2)) (fun _ => inr (Fl.Num 31)))
             (Fl.Num 2) (Fl.Num 31) eq_refl _ eq_refl eq_refl eq_refl).
    constructor; [|constructor].
    exists (Fl.Num 1), (Fl.Num 30). repeat split; reflexivity.
  - destruct (process_data_last_vial_only
                [ProcessData.mkFS 0 (fun _ => inl ValueError) (fun _ => inr (Fl.Num 30));
                 ProcessData.mkFS 1 (fun _ => inr (Fl.Num 2)) (fun _ => inr (Fl.Num 31))]
                (fun _ => []) (fun _ => [])) as [_ [_ H]].
    apply (H [] (ProcessData.mkFS 0 (fun _ => inl ValueError) (fun _ => inr (Fl.Num 30)))
             [ProcessData.mkFS 1 (fun _ => inr (Fl.Num 2)) (fun _ => inr (Fl.Num 31))] eq_refl);
      [constructor|].
    left. reflexivity.
Defined.

(** X19: Chained as in [Bioreactor.pre_update], a tick that goes through
    records the single reading of [process_data] (the last fit's OD, read
    through its vial's OD column) for the first configured vial only: the
    reading count grows by one, that vial's OD history gets the reading
    appended (bounded to the memory length), and every other vial's
    histories stay as they were. *)
Theorem bioreactor_pre_update_records_first_vial_only (cfg : Turbidostat.tconfig)
  (fits : list ProcessData.fit_set) (od_col temp_col : Z -> list Fl.fl)
  (st st1 : Turbidostat.tstate) (curr : Q) (r : option (list pyval))
  (evs : list Turbidostat.event) (c0 : Turbidostat.tvial) (cs : list Turbidostat.tvial)
  (Hv : Turbidostat.tc_vials cfg = c0 :: cs)
  (H : ProcessData.pre_update cfg fits od_col temp_col st curr = inr (st1, r, evs)) :
  let v0 := Turbidostat.tv_vial c0 in
  exists init f o h, fits = init ++ [f]
    /\ ProcessData.fs_od f (od_col (ProcessData.fs_vial f)) = inr o
    /\ Turbidostat.num_readings st1 = (Turbidostat.num_readings st + 1)%Z
    /\ Turbidostat.od_history st !! v0 = Some h
    /\ Turbidostat.od_history st1 !! v0 = Some (drop (length h + 1 - Turbidostat.mem_len cfg) (h ++ [o]))
    /\ (forall v, v <> v0 ->
        Turbidostat.od_history st1 !! v = Turbidostat.od_history st !! v
        /\ Turbidostat.temp_history st1 !! v = Turbidostat.temp_history st !! v).
Proof.
  intros v0. unfold ProcessData.pre_update in H.
  destruct (ProcessData.process_data fits od_col temp_col) as [e|[ods temps]] eqn:Ep;
    [discriminate|].
  destruct (process_data_shape _ _ _ _ _ Ep) as (init & f & o & t & Hf & Ho & -> & ->).
  destruct (Turbidostat.pre_update cfg st curr [o] [t]) as [e|res] eqn:H'; [discriminate|].
  injection H as ->.
  unfold Turbidostat.pre_update in H'.
  destruct (Turbidostat.record_readings _ _ _ _ st) as [e|st'] eqn:E; [discriminate|].
  destruct (Turbidostat.min_start cfg); [discriminate|].
  assert (st' = st1) as <-.
  { destruct (Turbidostat.qlt curr q); inversion H'; reflexivity. }
  pose proof (record_readings_spec _ _ _ _ _ _ E) as S. cbv zeta in S.
  rewrite Hv in S. simpl in S. rewrite Nat.min_0_r in S. simpl in S.
  destruct S as (N & _ & _ & U & P).
  destruct (P (NoDup_singleton _) 0%nat v0 _ _ eq_refl eq_refl eq_refl)
    as (h & th & Eh & _ & Eh' & _).
  exists init, f, o, h. split; [exact Hf|]. split; [exact Ho|]. split; [exact N|].
  split; [exact Eh|]. split; [exact Eh'|].
  intros v Hne. apply U. simpl. intros Hin. apply list_elem_of_singleton in Hin. exact (Hne Hin).
Qed.

Lemma bioreactor_pre_update_records_first_vial_only_witness :
  let c0 := Turbidostat.mkTV 0 0 10 0 0 in
  let cfg := Turbidostat.mkTC [c0; Turbidostat.mkTV 1 0 10 0 0] 2 in
  let fits := [ProcessData.mkFS 0 (fun _ => inr (Fl.Num 1)) (fun _ => inr (Fl.Num 30));
               ProcessData.mkFS 1 (fun _ => inr (Fl.Num 2)) (fun _ => inr (Fl.Num 31))] in
  let st := Turbidostat.bioreactor_init cfg in
  exists st1 r evs,
    ProcessData.pre_update cfg fits (fun _ => []) (fun _ => []) st 5 = inr (st1, r, evs)
    /\ Turbidostat.num_readings st1 = 1%Z
    /\ Turbidostat.od_history st1 !! 0%Z = Some [Fl.Num 2]
    /\ Turbidostat.od_history st1 !! 1%Z = Turbidostat.od_history st !! 1%Z.
Proof.
  intros c0 cfg fits st.
  destruct (ProcessData.pre_update cfg fits (fun _ => []) (fun _ => []) st 5)
    as [e|[[st1 r] evs]] eqn:E; [vm_compute in E; discriminate|].
  exists st1, r, evs. split; [reflexivity|].
  destruct (bioreactor_pre_update_records_first_vial_only cfg fits _ _ st st1 5 r evs c0
              [Turbidostat.mkTV 1 0 10 0 0] eq_refl E)
    as (init & f & o & h & Hf & Ho & N & Eh & Eh' & U).
  split; [rewrite N; reflexivity|].
  split.
  - change (Turbidostat.tv_vial c0) with 0%Z in Eh, Eh'. rewrite Eh'.
    assert (h = []) as -> by (vm_compute in Eh; congruence).
    apply (f_equal (@last _)) in Hf. rewrite last_snoc in Hf. unfold fits in Hf.
    simpl in Hf. injection Hf as <-.
    simpl in Ho. injection Ho as <-. reflexivity.
  - apply (U 1%Z). discriminate.
Defined.

(** ** Building a Turbidostat: TurbidostatSettings.__post_init__
    (turbidostat.py, l. 19-41) and Turbidostat.__init__ (l. 64-92) *)
Module TurbidostatInit.
Import Turbidostat.

  (** Exceptions the constructor raises beyond [py_exn]. *)
Inductive exn := Py (e : py_exn) | RuntimeError.

  (** The fields the generated [__init__] of the dataclass
      [TurbidostatSettings] assigns before it calls [__post_init__]. *)
Definition settings_fields : list string :=
    ["base_settings"; "n_dilution_steps"; "n_cycles"; "lower_thresh";
     "upper_thresh"; "pump_ratios"].

  (** What [__post_init__] reads of those fields. *)
Record tsettings := mkTSet {
    ts_vials : list Z;            (* base_settings.vials *)
    ts_n_cycles : list Z;
    ts_lower_thresh : list Q;
    ts_upper_thresh : list Q;
    ts_pump_ratios : list (Q * Q)
  }.

  (** [self.<name>] on an instance whose [__dict__] holds [attrs], of a
      class that defines no attribute of that name: AttributeError when
      [name] is not in [attrs]. *)
Definition getattr (attrs : list string) (name : string) : py_exn + unit :=
    if bool_decide (name ∈ attrs) then inr tt else inl AttributeError.

Definition settings_post_init (ts : tsettings) : py_exn + unit :=
    let attrs := settings_fields in
    match getattr attrs "base_settings" with
    | inl e => inl e
    | inr _ =>
        let vials := ts.(ts_vials) in
        (* self.bolus = tuple(self.bolus) *)
        match getattr attrs "bolus" with
        | inl e => inl e
        | inr _ =>
            let attrs := "bolus" :: attrs in
            (* self.rates = tuple(self.rates) *)
            match getattr attrs "rates" with
            | inl e => inl e
            | inr _ =>
                let wrong := List.filter (fun p : string * nat => negb (Nat.eqb (length vials) p.2))
                  [("n_cycles", length ts.(ts_n_cycles));
                   ("lower_thresh", length ts.(ts_lower_thresh));
                   ("upper_thresh", length ts.(ts_upper_thresh));
                   ("pump_ratios", length ts.(ts_pump_ratios))] in
                match wrong with [] => inr tt | _ => inl ValueError end
            end
        end
    end.

  (** The properties of [Turbidostat] and [Bioreactor]; none has a setter. *)
Definition properties : list string :=
    ["dil_steps"; "od_upper_bounds"; "od_lower_bounds"; "pump_ratios"; "is_diluting";
     "name"; "logger"; "vials"; "volumes"; "mem_len"; "temp_setpoints"; "start_times";
     "end_times"; "od_history"; "temp_history"; "od_readings"; "temp_readings";
     "num_readings"].

  (** [self.<name> = ...]: a property without a setter raises
      AttributeError; any other name is stored in the instance. *)
Definition setattr (name : string) : py_exn + unit :=
    if bool_decide (name ∈ properties) then inl AttributeError else inr tt.

  (** [dict(zip(vials, n_cycles))] (a later key wins) and the loop of
      l. 90-92, which deletes from the dict it iterates over: after a
      deletion the next step of the iteration raises RuntimeError. *)
Definition drop_zero_budgets (vials n_cycles : list Z) : exn + gmap Z Z :=
    let d : gmap Z Z := list_to_map (reverse (zip vials n_cycles)) in
    if existsb (fun p : Z * Z => Z.eqb p.2 0) (map_to_list d) then inl RuntimeError else inr d.

  (** [Turbidostat.__init__] after [super().__init__(...)], whose outcome is
      [bio]. *)
Definition init (bio : py_exn + tstate) (vials n_cycles : list Z) : exn + tstate :=
    match bio with
    | inl e => inl (Py e)
    | inr st0 =>
        match setattr "_turbidostat_settings" with
        | inl e => inl (Py e)
        | inr _ =>
            match setattr "_is_diluting" with
            | inl e => inl (Py e)
            | inr _ =>
                let dil : gmap Z bool := list_to_map (map (fun v => (v, false)) vials) in
                (* self.num_readings: int = 0 *)
                match setattr "num_readings" with
                | inl e => inl (Py e)
                | inr _ =>
                    match setattr "_num_dilutions_left" with
                    | inl e => inl (Py e)
                    | inr _ =>
                        match drop_zero_budgets vials n_cycles with
                        | inl e => inl e
                        | inr budgets =>
                            inr (mkTS dil budgets st0.(od_history) st0.(temp_history)
                                      st0.(num_readings))
                        end
                    end
                end
            end
        end
    end.
End TurbidostatInit.

(** ** Building a Chemostat: Chemostat.__init__ (chemostat.py, l. 60-86) *)
Module ChemostatInit.
Import Turbidostat Chemostat.

  (** After [super().__init__(...)] (the state [bioreactor_init]): the
      call to [check_pump_settings], [_awaiting_update] with [True] for
      every vial, and [if max(start_od) > 0: self._check_od = True], where
      [max] of an empty tuple raises ValueError. The result carries the
      settings, [_awaiting_update] and whether [_check_od] was set. *)
Definition init (cfg : tconfig) (cs : chemo_settings)
    : py_exn + (tstate * chemo_settings * gmap Z bool * bool) :=
    let vs := map tv_vial cfg.(tc_vials) in
    match check_pump_settings vs cs with
    | inl e => inl e
    | inr cs' =>
        let awaiting : gmap Z bool := list_to_map (map (fun v => (v, true)) vs) in
        match cs'.(cs_start_od) with
        | [] => inl ValueError
        | o :: os =>
            let m := fold_left (fun a b => if qlt a b then b else a) os o in
            inr (bioreactor_init cfg, cs', awaiting, qlt 0 m)
        end
    end.
End ChemostatInit.

Section ConstructorProofs.
Import Turbidostat Chemostat.

Lemma chemostat_update_started_raises (cfg : tconfig) (st : tstate) (curr : Q)
  (ods temps : list Fl.fl) :
  started cfg curr = true -> exists e, Chemostat.update cfg st curr ods temps = inl e.
Proof.
  unfold Chemostat.update, pre_update, started.
  destruct (record_readings _ _ ods temps st) as [e|st1]; [intros _; eexists; reflexivity|].
  destruct (min_start cfg) as [e|m]; [discriminate|].
  destruct (qlt curr m); simpl; [discriminate|]. intros _.
  destruct (last_readings _ _); [eexists; reflexivity|].
  destruct (last_readings _ _); eexists; reflexivity.
Qed.

Lemma chemostat_init_ok (cfg : tconfig) (cs : chemo_settings) (o : Q) (os : list Q) :
  Forall (fun r => r <= 0) (cs_rates cs) -> cs_start_od cs = o :: os ->
  exists cs' aw co, ChemostatInit.init cfg cs = inr (bioreactor_init cfg, cs', aw, co).
Proof.
  intros Hr Hs. unfold ChemostatInit.init.
  set (k := Nat.min (length (map tv_vial (tc_vials cfg)))
              (Nat.min (length (cs_bolus cs)) (length (cs_rates cs)))).
  destruct (check_loop_spec (map tv_vial (tc_vials cfg)) (cs_bolus cs) (cs_rates cs)) as [_ Hf].
  unfold check_pump_settings. rewrite (Hf (Forall_take _ _ _ Hr)).
  destruct (negb _); simpl; rewrite Hs; eexists _, _, _; reflexivity.
Qed.
End ConstructorProofs.

(** C5 (code bug): no Turbidostat is ever built, so no turbidostat vial
    ever runs the dilution budget the claim describes. Building the
    settings fails: [TurbidostatSettings.__post_init__] reads [self.bolus],
    which is not a field of the dataclass, and raises AttributeError for
    every input. [Turbidostat.__init__], given any settings object, raises
    what [Bioreactor.__init__] raises or else AttributeError at l. 88,
    where [self.num_readings = 0] assigns to a property with no setter,
    before [_num_dilutions_left] is ever set. *)
Theorem C5_turbidostat_never_built (ts : TurbidostatInit.tsettings)
  (bio : py_exn + Turbidostat.tstate) (vials n_cycles : list Z) :
  TurbidostatInit.settings_post_init ts = inl AttributeError
  /\ TurbidostatInit.init bio vials n_cycles
     = match bio with
       | inl e => inl (TurbidostatInit.Py e)
       | inr _ => inl (TurbidostatInit.Py AttributeError)
       end.
Proof. split; [reflexivity|destruct bio; reflexivity]. Qed.

(** C7 (code bug): a Chemostat can be built (for instance with every rate
    at most 0 and a non-empty [start_od]), and its [update] calls
    [pre_update] first, but once the start time is reached it never
    returns a message, from any state: it raises, at the latest on
    [sum(self._awaiting_update.values)] (TypeError). A Turbidostat cannot
    be built at all: its settings object raises AttributeError. *)
Theorem C7_chemostat_update_never_returns_after_start (cfg : Turbidostat.tconfig)
  (cs : Chemostat.chemo_settings) (ts : TurbidostatInit.tsettings) :
  (forall o os, Forall (fun r => r <= 0) (Chemostat.cs_rates cs) ->
     Chemostat.cs_start_od cs = o :: os ->
     exists cs' aw co, ChemostatInit.init cfg cs = inr (Turbidostat.bioreactor_init cfg, cs', aw, co))
  /\ (forall st curr ods temps, Turbidostat.started cfg curr = true ->
      exists e, Chemostat.update cfg st curr ods temps = inl e)
  /\ TurbidostatInit.settings_post_init ts = inl AttributeError.
Proof.
  split; [|split].
  - intros o os Hr Hs. exact (chemostat_init_ok cfg cs o os Hr Hs).
  - intros st curr ods temps Hs. exact (chemostat_update_started_raises cfg st curr ods temps Hs).
  - reflexivity.
Qed.

Lemma C7_chemostat_update_never_returns_after_start_witness :
  let cfg := Turbidostat.mkTC [Turbidostat.mkTV 0 0 1000 0 0] 1 in
  let cs := Chemostat.mkCS [1#2] [1] [0] [(1, 0)] in
  exists cs' aw co,
    ChemostatInit.init cfg cs = inr (Turbidostat.bioreactor_init cfg, cs', aw, co)
    /\ Chemostat.update cfg (Turbidostat.bioreactor_init cfg) 10 [Fl.Num 1] [Fl.Num 30]
       = inl TypeError.
Proof.
  intros cfg cs.
  destruct (C7_chemostat_update_never_returns_after_start cfg cs
              (TurbidostatInit.mkTSet [] [] [] [] [])) as [Hi [Hu _]].
  destruct (Hi (1#2) [] ltac:(repeat constructor; vm_compute; discriminate) eq_refl)
    as (cs' & aw & co & E).
  exists cs', aw, co. split; [exact E|].
  destruct (Hu (Turbidostat.bioreactor_init cfg) 10 [Fl.Num 1] [Fl.Num 30]
              ltac:(vm_compute; reflexivity)) as [e He].
  rewrite He. vm_compute in He. congruence.
Defined.
